(** * Link adaptation in [scratch/multi-bss.cc]

    A shallow embedding of the two classes that [multi-bss.cc] adds to the
    simulator: [TgaxResidentialPropagationLossModel] (received power from
    geometry and building layout) and [AutoMcsWifiManager] (per-station
    choice of the data and RTS transmission vectors).

    Conventions.
    - A C++ [double] is a binary64 [float] of the kernel; [<], [==] and [/]
      are the IEEE-754 operations, so a NaN compares false with everything
      and the cache sentinel [-100] is an ordinary value of the type.
    - [uint8_t], [uint16_t], [uint64_t] and [int] values are [Z]; the source
      never relies on their wrap-around for the inputs the simulator
      produces (widths up to 320 MHz, at most 8 spatial streams).
    - What lives in the simulator library and not in this repository (the
      PHY's mode lists, [CalculateSnr], [IsValid], [GetDataRate], the
      capabilities negotiated with a station) is read from the records
      [Env] and [WifiRemoteStationState].
    - [NS_ASSERT] and [NS_ASSERT_MSG] abort the run: a failed assertion is
      the result [None] of the monad [M]. *)

From Stdlib Require Import ZArith List Bool String Ascii Lia Floats QArith.
From Stdlib Require Import DecimalString.
From Stdlib Require Sorted.
Import ListNotations.

Set Warnings "-inexact-float".
Local Open Scope Z_scope.

(** ** Numbers *)

(** [static_cast<double>(n)] for the small non-negative integers of the
    source (channel widths, stream counts, floor and wall counts). *)
Definition double_of_Z (n : Z) : float := PrimFloat.of_uint63 (Uint63.of_Z n).

(** The literal [0] where the source compares or returns a [double]. *)
Definition dzero : float := 0%float.

(** [std::to_string(int)]. *)
Definition to_string (n : Z) : string := NilZero.string_of_int (Z.to_int n).

(** The integers [1, 2, ..., n] of a loop [for (k = 1; k <= n; k++)]. *)
Definition upto (n : Z) : list Z := map Z.of_nat (seq 1 (Z.to_nat n)).

(** ** TgaxResidentialPropagationLossModel *)

Module Tgax.

(** [Vector]: a position in metres. *)
Record Vector := mkVector { vx : float; vy : float; vz : float }.

(** [MobilityBuildingInfo], the object aggregated to a mobility model when
    the node has been placed in a building layout. *)
Record MobilityBuildingInfo := mkInfo {
  IsIndoor : bool;
  GetFloorNumber : Z;
  GetRoomNumberX : Z;
  GetRoomNumberY : Z
}.

(** [MobilityModel]: a position, and the building information when one is
    aggregated ([GetObject<MobilityBuildingInfo>()] is a null pointer
    otherwise). *)
Record MobilityModel := mkMobility {
  GetPosition : Vector;
  GetBuildingInfo : option MobilityBuildingInfo
}.

(** [MobilityModel::GetDistanceFrom]: the Euclidean distance. *)
Definition GetDistanceFrom (a b : MobilityModel) : float :=
  let dx := (vx (GetPosition b) - vx (GetPosition a))%float in
  let dy := (vy (GetPosition b) - vy (GetPosition a))%float in
  let dz := (vz (GetPosition b) - vz (GetPosition a))%float in
  PrimFloat.sqrt (dx * dx + dy * dy + dz * dz)%float.

Definition dmax (x y : float) : float := if PrimFloat.ltb x y then y else x.
Definition dmin (x y : float) : float := if PrimFloat.ltb y x then y else x.

Section Model.

(** [std::log10] and [std::pow] of the C library. *)
Variable log10 : float -> float.
Variable pow : float -> float -> float.

(** The attribute [Frequency] of the model. *)
Variable m_frequencyHz : float.

Definition breakpointDistance : float := 5%float.
Definition fc : float := 2400000000%float.

(** The path loss once the link is known not to be blocked
    (lines 132 to 148). *)
Definition pathloss (distance : float) (floors walls : Z) : float :=
  let p0 := (40.05 + 20 * log10 (m_frequencyHz / fc)
             + 20 * log10 (dmin distance breakpointDistance))%float in
  let p1 := if PrimFloat.ltb breakpointDistance distance
            then (p0 + 35 * log10 (distance / 5))%float else p0 in
  let p2 := if floors =? 0 then p1
            else
              let r := (distance / double_of_Z floors)%float in
              (p1 + 18.3 * pow r ((r + 2) / (r + 1) - 0.46))%float in
  if walls =? 0 then p2 else (p2 + 5 * double_of_Z walls)%float.

(** [DoCalcRxPower] (lines 101 to 151). *)
Definition DoCalcRxPower (txPowerDbm : float) (a b : MobilityModel) : float :=
  let distance := GetDistanceFrom a b in
  if PrimFloat.eqb distance dzero then txPowerDbm
  else
    let distance := dmax 1 distance in
    match GetBuildingInfo a, GetBuildingInfo b with
    | Some aInfo, Some bInfo =>
        if negb (IsIndoor aInfo) || negb (IsIndoor bInfo) then dzero
        else
          let floors := Z.abs (GetFloorNumber aInfo - GetFloorNumber bInfo) in
          let walls := Z.abs (GetRoomNumberX aInfo - GetRoomNumberX bInfo)
                       + Z.abs (GetRoomNumberY aInfo - GetRoomNumberY bInfo) in
          (txPowerDbm - pathloss distance floors walls)%float
    | _, _ => (txPowerDbm - pathloss distance 0 0)%float
    end.

(** [GetRxPower] (lines 92 to 98). *)
Definition GetRxPower (txPowerDbm : float) (a b : MobilityModel) : float :=
  DoCalcRxPower txPowerDbm a b.

End Model.

(** One endpoint is outdoor and the other indoor. *)
Definition mixed_indoor (a b : MobilityModel) : Prop :=
  exists ia ib,
    GetBuildingInfo a = Some ia /\ GetBuildingInfo b = Some ib /\
    IsIndoor ia <> IsIndoor ib.

End Tgax.

(** ** Modes and transmission vectors *)

Inductive WifiModulationClass :=
| WIFI_MOD_CLASS_UNKNOWN
| WIFI_MOD_CLASS_DSSS
| WIFI_MOD_CLASS_HR_DSSS
| WIFI_MOD_CLASS_ERP_OFDM
| WIFI_MOD_CLASS_OFDM
| WIFI_MOD_CLASS_HT
| WIFI_MOD_CLASS_VHT
| WIFI_MOD_CLASS_HE.

(** [WifiMode]: a handle on an entry of the simulator's mode registry; the
    entry has a unique name, a modulation class and, for the HT, VHT and HE
    classes, an MCS index ([GetMcsValue] is 0 for the other classes). *)
Record WifiMode := mkMode {
  GetUniqueName : string;
  GetModulationClass : WifiModulationClass;
  GetMcsValue : Z
}.

Definition class_eq_dec (c d : WifiModulationClass) : {c = d} + {c <> d}.
Proof. decide equality. Defined.

(** [operator==] on modes. *)
Definition WifiMode_eq_dec (m n : WifiMode) : {m = n} + {m <> n}.
Proof.
  decide equality; [apply Z.eq_dec | apply class_eq_dec | apply string_dec].
Defined.

Definition mode_eqb (m n : WifiMode) : bool :=
  if WifiMode_eq_dec m n then true else false.

Definition class_eqb (c d : WifiModulationClass) : bool :=
  if class_eq_dec c d then true else false.

(** The default-constructed, invalid [WifiMode]. *)
Definition InvalidWifiMode : WifiMode :=
  mkMode "Invalid-WifiMode" WIFI_MOD_CLASS_UNKNOWN 0.

(** The registry entries the manager names: the high-efficiency modes
    [HeMcs0] to [HeMcs11] and [OfdmRate6Mbps]. *)
Definition HeMcs (k : Z) : WifiMode :=
  mkMode ("HeMcs" ++ to_string k) WIFI_MOD_CLASS_HE k.

Definition OfdmRate6Mbps : WifiMode :=
  mkMode "OfdmRate6Mbps" WIFI_MOD_CLASS_OFDM 0.

Definition WifiModeFactory : list WifiMode :=
  OfdmRate6Mbps :: map HeMcs [0; 1; 2; 3; 4; 5; 6; 7; 8; 9; 10; 11].

(** [WifiMode(std::string)]: the registry entry of that name, and the
    invalid mode when there is none. *)
Definition WifiMode_of_name (name : string) : WifiMode :=
  match find (fun m => String.eqb (GetUniqueName m) name) WifiModeFactory with
  | Some m => m
  | None => InvalidWifiMode
  end.

(** [WifiTxVector], restricted to the fields that the manager reads or
    writes while it selects: power level, preamble, antenna count, NESS and
    the aggregation flag are copied from getters of the base class and take
    part in no comparison. *)
Record WifiTxVector := mkTx {
  GetMode : WifiMode;
  GetGuardInterval : Z;
  GetNss : Z;
  GetChannelWidth : Z
}.

(** The default-constructed vector: no mode, 800 ns, one stream, 20 MHz. *)
Definition WifiTxVector_default : WifiTxVector := mkTx InvalidWifiMode 800 1 20.

Definition SetMode (m : WifiMode) (v : WifiTxVector) : WifiTxVector :=
  mkTx m (GetGuardInterval v) (GetNss v) (GetChannelWidth v).
Definition SetGuardInterval (g : Z) (v : WifiTxVector) : WifiTxVector :=
  mkTx (GetMode v) g (GetNss v) (GetChannelWidth v).
Definition SetNss (n : Z) (v : WifiTxVector) : WifiTxVector :=
  mkTx (GetMode v) (GetGuardInterval v) n (GetChannelWidth v).
Definition SetChannelWidth (w : Z) (v : WifiTxVector) : WifiTxVector :=
  mkTx (GetMode v) (GetGuardInterval v) (GetNss v) w.

(** ** What the manager reads from the simulator *)

(** The PHY, the mode arithmetic and the capabilities of the local device
    (the argument-free getters of [WifiRemoteStationManager]). *)
Record Env := mkEnv {
  GetModeList : list WifiMode;
  GetMcsList : list WifiMode;
  PhyGetChannelWidth : Z;
  GetMaxSupportedTxSpatialStreams : Z;
  CalculateSnr : WifiTxVector -> float -> float;
  GetTxBandwidth : WifiMode -> Z -> Z;
  IsAllowed : WifiMode -> Z -> Z -> bool;
  GetDataRate : WifiMode -> Z -> Z -> Z -> Z;
  IsValid : WifiTxVector -> bool;
  GetHtSupported : bool;
  GetVhtSupported : bool;
  GetHeSupported : bool;
  GetShortGuardIntervalSupported : bool;
  GetGuardIntervalNs : Z;
  GetMaxNumberOfTransmitStreams : Z;
  GetDefaultMode : WifiMode;
  GetBasicModes : list WifiMode
}.

(** The part of a [WifiRemoteStation] that the base class maintains: what
    the getters taking a station return. *)
Record WifiRemoteStationState := mkSta {
  StaHtSupported : bool;
  StaVhtSupported : bool;
  StaHeSupported : bool;
  StaShortGuardIntervalSupported : bool;
  StaGuardIntervalNs : Z;
  StaChannelWidth : Z;
  StaNumberOfSupportedStreams : Z;
  StaMcsSupported : list WifiMode;
  StaSupported : list WifiMode;
  StaDefaultMode : WifiMode
}.

(** [AutoMcsWifiRemoteStation] (lines 168 to 182). *)
Record AutoMcsWifiRemoteStation := mkStation {
  m_state : WifiRemoteStationState;
  m_lastSnrObserved : float;
  m_lastChannelWidthObserved : Z;
  m_lastNssObserved : Z;
  m_lastSnrCached : float;
  m_lastNss : Z;
  m_lastMode : WifiMode;
  m_lastChannelWidth : Z
}.

Definition CACHE_INITIAL_VALUE : float := (-100)%float.

Definition Thresholds := list (float * WifiTxVector).

(** The fields of [AutoMcsWifiManager] (lines 802 to 807). [n_rebuilds] is
    a ghost counter of the calls of [BuildSnrThresholds]; no code reads it. *)
Record AutoMcsWifiManager := mkManager {
  m_ber : float;
  m_thresholds : Thresholds;
  m_currentRate : Z;
  choosenMCS : list Z;
  m_autoMCS : bool;
  n_rebuilds : nat
}.

(** ** The monad of manager methods: state, and abort on a failed assertion *)

Definition M (A : Type) : Type := AutoMcsWifiManager -> option (A * AutoMcsWifiManager).

Definition ret {A} (a : A) : M A := fun mgr => Some (a, mgr).

Definition bind {A B} (c : M A) (k : A -> M B) : M B :=
  fun mgr => match c mgr with
             | Some (a, mgr') => k a mgr'
             | None => None
             end.

Definition abort {A} : M A := fun _ => None.

Definition NS_ASSERT (b : bool) : M unit := if b then ret tt else abort.

Notation "x <- c ;; k" := (bind c (fun x => k))
  (at level 61, c at next level, right associativity).
Notation "c ;;; k" := (bind c (fun _ => k))
  (at level 61, right associativity).

(** A loop over a container, carrying the locals that the body updates. *)
Fixpoint forM {X S} (body : X -> S -> M S) (l : list X) (s : S) : M S :=
  match l with
  | [] => ret s
  | x :: l' => s' <- body x s ;; forM body l' s'
  end.

Definition lift {A} (o : option A) : M A :=
  fun mgr => match o with Some a => Some (a, mgr) | None => None end.

Definition gets {A} (f : AutoMcsWifiManager -> A) : M A := fun mgr => Some (f mgr, mgr).

Definition set_thresholds (t : Thresholds) (mgr : AutoMcsWifiManager) : AutoMcsWifiManager :=
  mkManager (m_ber mgr) t (m_currentRate mgr) (choosenMCS mgr) (m_autoMCS mgr)
            (n_rebuilds mgr).

Definition count_rebuild (mgr : AutoMcsWifiManager) : AutoMcsWifiManager :=
  mkManager (m_ber mgr) (m_thresholds mgr) (m_currentRate mgr) (choosenMCS mgr)
            (m_autoMCS mgr) (S (n_rebuilds mgr)).

Definition set_currentRate (r : Z) (mgr : AutoMcsWifiManager) : AutoMcsWifiManager :=
  mkManager (m_ber mgr) (m_thresholds mgr) r (choosenMCS mgr) (m_autoMCS mgr)
            (n_rebuilds mgr).

Definition set_choosenMCS (h : list Z) (mgr : AutoMcsWifiManager) : AutoMcsWifiManager :=
  mkManager (m_ber mgr) (m_thresholds mgr) (m_currentRate mgr) h (m_autoMCS mgr)
            (n_rebuilds mgr).

(** ** AutoMcsWifiManager *)

(** [GetChannelWidthForNonHtMode] (lines 765 to 779). *)
Definition GetChannelWidthForNonHtMode (mode : WifiMode) : option Z :=
  let c := GetModulationClass mode in
  if negb (class_eqb c WIFI_MOD_CLASS_HT) && negb (class_eqb c WIFI_MOD_CLASS_VHT)
     && negb (class_eqb c WIFI_MOD_CLASS_HE)
  then Some (if class_eqb c WIFI_MOD_CLASS_DSSS || class_eqb c WIFI_MOD_CLASS_HR_DSSS
             then 22 else 20)
  else None.

(** [GetLastObservedSnr] (lines 781 to 800), its body written over any
    arithmetic: [rescale PrimFloat.div double_of_Z] is the function of the
    source, [rescale Qdiv inject_Z] the same text read in exact rationals. *)
Definition rescale {D} (ddiv : D -> D -> D) (of_int : Z -> D)
    (lastSnrObserved : D) (lastChannelWidthObserved lastNssObserved : Z)
    (channelWidth nss : Z) : D :=
  let snr := lastSnrObserved in
  let snr := if negb (channelWidth =? lastChannelWidthObserved)
             then ddiv snr (ddiv (of_int channelWidth) (of_int lastChannelWidthObserved))
             else snr in
  let snr := if negb (nss =? lastNssObserved)
             then ddiv snr (ddiv (of_int nss) (of_int lastNssObserved))
             else snr in
  snr.

Definition GetLastObservedSnr (station : AutoMcsWifiRemoteStation)
    (channelWidth nss : Z) : float :=
  rescale PrimFloat.div double_of_Z (m_lastSnrObserved station)
          (m_lastChannelWidthObserved station) (m_lastNssObserved station)
          channelWidth nss.

(** The widths [20, 40, 80, ...] of the loop
    [for (uint16_t j = 20; j <= GetPhy()->GetChannelWidth(); j *= 2)]; twelve
    doublings stay below [2^16]. *)
Fixpoint widths_from (fuel : nat) (j W : Z) : list Z :=
  match fuel with
  | O => []
  | S fuel' => if j <=? W then j :: widths_from fuel' (2 * j) W else []
  end.

Definition phy_widths (W : Z) : list Z := widths_from 12 20 W.

(** The predicate of both [std::find_if] calls of [GetSnrThreshold]. *)
Definition same_key (txVector : WifiTxVector) (p : float * WifiTxVector) : bool :=
  mode_eqb (GetMode txVector) (GetMode (snd p))
  && (GetNss txVector =? GetNss (snd p))
  && (GetChannelWidth txVector =? GetChannelWidth (snd p)).

Definition find_threshold (t : Thresholds) (txVector : WifiTxVector) : option float :=
  option_map fst (find (same_key txVector) t).

(** [AddSnrThreshold] (lines 760 to 763). *)
Definition AddSnrThreshold (txVector : WifiTxVector) (snr : float) (t : Thresholds)
  : Thresholds := t ++ [(snr, txVector)].

Fixpoint fold_opt {X S} (body : X -> S -> option S) (l : list X) (s : S) : option S :=
  match l with
  | [] => Some s
  | x :: l' => match body x s with Some s' => fold_opt body l' s' | None => None end
  end.

Section Manager.

Variable env : Env.

(** *** BuildSnrThresholds (lines 664 to 731)

    The locals of the loops are the vector [txVector], which every
    iteration overwrites in part, and the table under construction. *)

Definition build_mode (ber : float) (mode : WifiMode) (s : WifiTxVector * Thresholds)
  : option (WifiTxVector * Thresholds) :=
  match GetChannelWidthForNonHtMode mode with
  | None => None
  | Some w =>
      let txVector := SetMode mode (SetNss 1 (SetChannelWidth w (fst s))) in
      Some (txVector, AddSnrThreshold txVector (CalculateSnr env txVector ber) (snd s))
  end.

Definition build_mcs_nss (ber : float) (mode : WifiMode) (j : Z)
    (s : WifiTxVector * Thresholds) (k : Z) : WifiTxVector * Thresholds :=
  if IsAllowed env mode j k then
    let txVector := SetMode mode (SetNss k (fst s)) in
    (txVector, AddSnrThreshold txVector (CalculateSnr env txVector ber) (snd s))
  else s.

Definition build_mcs_width (ber : float) (mode : WifiMode)
    (s : WifiTxVector * Thresholds) (j : Z) : WifiTxVector * Thresholds :=
  let txVector := SetChannelWidth j (fst s) in
  if class_eqb (GetModulationClass mode) WIFI_MOD_CLASS_HT then
    let guardInterval := if GetShortGuardIntervalSupported env then 400 else 800 in
    let txVector := SetGuardInterval guardInterval txVector in
    let nss := GetMcsValue mode / 8 + 1 in
    let txVector := SetMode mode (SetNss nss txVector) in
    (txVector, AddSnrThreshold txVector (CalculateSnr env txVector ber) (snd s))
  else
    let guardInterval :=
      if class_eqb (GetModulationClass mode) WIFI_MOD_CLASS_VHT
      then (if GetShortGuardIntervalSupported env then 400 else 800)
      else GetGuardIntervalNs env in
    let txVector := SetGuardInterval guardInterval txVector in
    fold_left (build_mcs_nss ber mode j)
              (upto (GetMaxSupportedTxSpatialStreams env)) (txVector, snd s).

Definition build_mcs (ber : float) (s : WifiTxVector * Thresholds) (mode : WifiMode)
  : WifiTxVector * Thresholds :=
  fold_left (build_mcs_width ber mode) (phy_widths (PhyGetChannelWidth env)) s.

(** The table that a build leaves in [m_thresholds]. *)
Definition built_table (ber : float) : option Thresholds :=
  match fold_opt (build_mode ber) (GetModeList env) (WifiTxVector_default, []) with
  | None => None
  | Some s =>
      if GetHtSupported env
      then Some (snd (fold_left (build_mcs ber) (GetMcsList env) s))
      else Some (snd s)
  end.

Definition BuildSnrThresholds : M unit :=
  fun mgr =>
    match built_table (m_ber mgr) with
    | Some t => Some (tt, set_thresholds t (count_rebuild mgr))
    | None => None
    end.

(** *** GetSnrThreshold (lines 733 to 758) *)
Definition GetSnrThreshold (txVector : WifiTxVector) : M float :=
  t <- gets m_thresholds ;;
  match find_threshold t txVector with
  | Some threshold => ret threshold
  | None =>
      BuildSnrThresholds ;;;
      t <- gets m_thresholds ;;
      match find_threshold t txVector with
      | Some threshold => ret threshold
      | None => abort
      end
  end.

(** *** Reset, DoCreateStation and the reports (lines 235 to 319, 652 to 662)

    The reports list the arguments that the source reads; [ackSnr] and
    [ackMode] of [DoReportDataOk] and the CTS arguments of [DoReportRtsOk]
    are not read. *)
Definition Reset (st : AutoMcsWifiRemoteStation) : AutoMcsWifiRemoteStation :=
  mkStation (m_state st) dzero 0 1 CACHE_INITIAL_VALUE 1 (GetDefaultMode env) 0.

Definition DoCreateStation (base : WifiRemoteStationState) : AutoMcsWifiRemoteStation :=
  Reset (mkStation base dzero 0 0 dzero 0 InvalidWifiMode 0).

Definition observe (dataSnr : float) (dataChannelWidth dataNss : Z)
    (st : AutoMcsWifiRemoteStation) : AutoMcsWifiRemoteStation :=
  mkStation (m_state st) dataSnr dataChannelWidth dataNss (m_lastSnrCached st)
            (m_lastNss st) (m_lastMode st) (m_lastChannelWidth st).

Definition DoReportRtsOk (st : AutoMcsWifiRemoteStation) (rtsSnr : float)
  : AutoMcsWifiRemoteStation :=
  observe rtsSnr (if 40 <=? PhyGetChannelWidth env then 20 else PhyGetChannelWidth env)
          1 st.

Definition emplace_back (mcs : Z) : M unit :=
  fun mgr => Some (tt, set_choosenMCS (choosenMCS mgr ++ [mcs]) mgr).

Definition DoReportDataOk (st : AutoMcsWifiRemoteStation) (dataSnr : float)
    (dataChannelWidth dataNss : Z) : M AutoMcsWifiRemoteStation :=
  if PrimFloat.eqb dataSnr dzero then ret st
  else
    let station := observe dataSnr dataChannelWidth dataNss st in
    (if negb (mode_eqb (m_lastMode station) (GetDefaultMode env))
     then emplace_back (GetMcsValue (m_lastMode station))
     else ret tt) ;;;
    ret station.

Definition DoReportAmpduTxStatus (st : AutoMcsWifiRemoteStation)
    (nSuccessfulMpdus nFailedMpdus : Z) (rxSnr dataSnr : float)
    (dataChannelWidth dataNss : Z) : M AutoMcsWifiRemoteStation :=
  if PrimFloat.eqb dataSnr dzero then ret st
  else
    forM (fun _ (_ : unit) => emplace_back (GetMcsValue (m_lastMode st)))
         (seq 0 (Z.to_nat nSuccessfulMpdus)) tt ;;;
    ret (observe dataSnr dataChannelWidth dataNss st).

Definition DoReportFinalRtsFailed (st : AutoMcsWifiRemoteStation) := Reset st.
Definition DoReportFinalDataFailed (st : AutoMcsWifiRemoteStation) := Reset st.

End Manager.

(** ** DoGetDataTxVector and DoGetRtsTxVector *)

(** The locals that the search loops of [DoGetDataTxVector] update. *)
Record Search := mkSearch {
  bestRate : Z;
  maxMode : WifiMode;
  selectedNss : Z;
  txVector : WifiTxVector
}.

Definition with_txVector (v : WifiTxVector) (s : Search) : Search :=
  mkSearch (bestRate s) (maxMode s) (selectedNss s) v.

(** [std::ceil(average / choosenMCS.size())] converted to [int], for the
    sum [average] of the history. The sum is exact in binary64, and the
    rounding of the quotient cannot carry it across an integer, for every
    history of MCS indices that fits in memory: the result is the exact
    quotient rounded up. On an empty history the quotient is [0.0 / 0], a
    NaN, whose conversion to [int] is undefined: there is no result. *)
Definition ceil_average (history : list Z) : option Z :=
  let average := fold_left Z.add history 0 in
  let size := Z.of_nat (List.length history) in
  if size =? 0 then None else Some (- ((- average) / size)).

Section Selection.

Variable env : Env.

Definition short_gi (station : AutoMcsWifiRemoteStation) : Z :=
  Z.max (if StaShortGuardIntervalSupported (m_state station) then 400 else 800)
        (if GetShortGuardIntervalSupported env then 400 else 800).

Definition he_gi (station : AutoMcsWifiRemoteStation) : Z :=
  Z.max (StaGuardIntervalNs (m_state station)) (GetGuardIntervalNs env).

Definition max_streams (station : AutoMcsWifiRemoteStation) : Z :=
  Z.min (GetMaxNumberOfTransmitStreams env)
        (StaNumberOfSupportedStreams (m_state station)).

(** The test that closes the three branches of the MCS loop (lines 391 to
    410, 440 to 459 and 484 to 503): look the threshold up, compute the
    rate, estimate the SNR, keep the mode if it is faster and clears. *)
Definition test_mcs (station : AutoMcsWifiRemoteStation) (channelWidth : Z)
    (mode : WifiMode) (nss : Z) (s : Search) : M Search :=
  threshold <- GetSnrThreshold env (txVector s) ;;
  let dataRate := GetDataRate env mode (GetChannelWidth (txVector s))
                              (GetGuardInterval (txVector s)) nss in
  let snr := GetLastObservedSnr station channelWidth nss in
  if (bestRate s <? dataRate) && PrimFloat.ltb threshold snr
  then ret (mkSearch dataRate mode nss (txVector s))
  else ret s.

(** The body of the loops over [nss] (lines 428 to 460 and 472 to 504). *)
Definition nss_body (station : AutoMcsWifiRemoteStation) (channelWidth : Z)
    (mode : WifiMode) (nss : Z) (s : Search) : M Search :=
  let s := with_txVector (SetNss nss (txVector s)) s in
  if negb (IsValid env (txVector s)) then ret s
  else test_mcs station channelWidth mode nss s.

(** The body of the loop over [GetMcsSupported] (lines 357 to 506). *)
Definition mcs_body (station : AutoMcsWifiRemoteStation) (channelWidth : Z)
    (mode : WifiMode) (s : Search) : M Search :=
  let s := with_txVector (SetMode mode (txVector s)) s in
  if class_eqb (GetModulationClass mode) WIFI_MOD_CLASS_HT then
    let s := with_txVector (SetGuardInterval (short_gi station) (txVector s)) s in
    if GetVhtSupported env && StaVhtSupported (m_state station) then ret s
    else if GetHeSupported env && StaHeSupported (m_state station) then ret s
    else
      let nss := GetMcsValue mode / 8 + 1 in
      let s := with_txVector (SetNss nss (txVector s)) s in
      if negb (IsValid env (txVector s)) || (max_streams station <? nss) then ret s
      else test_mcs station channelWidth mode nss s
  else if class_eqb (GetModulationClass mode) WIFI_MOD_CLASS_VHT then
    let s := with_txVector (SetGuardInterval (short_gi station) (txVector s)) s in
    if GetHeSupported env && StaHeSupported (m_state station) then ret s
    else if negb (GetVhtSupported env) || negb (StaVhtSupported (m_state station))
    then ret s
    else forM (nss_body station channelWidth mode) (upto (max_streams station)) s
  else
    let s := with_txVector (SetGuardInterval (he_gi station) (txVector s)) s in
    if negb (GetHeSupported env) || negb (StaHeSupported (m_state station)) then ret s
    else forM (nss_body station channelWidth mode) (upto (max_streams station)) s.

(** The body of the loop over [GetSupported] (lines 512 to 535);
    [selectedNss] is 1 on entry and is not written. *)
Definition nonht_body (station : AutoMcsWifiRemoteStation)
    (mode : WifiMode) (s : Search) : M Search :=
  let s := with_txVector (SetNss (selectedNss s) (SetMode mode (txVector s))) s in
  width <- lift (GetChannelWidthForNonHtMode mode) ;;
  let s := with_txVector (SetChannelWidth width (txVector s)) s in
  threshold <- GetSnrThreshold env (txVector s) ;;
  let dataRate := GetDataRate env mode (GetChannelWidth (txVector s))
                              (GetGuardInterval (txVector s)) (GetNss (txVector s)) in
  let snr := GetLastObservedSnr station width 1 in
  if (bestRate s <? dataRate) && PrimFloat.ltb threshold snr
  then ret (mkSearch dataRate mode (selectedNss s) (txVector s))
  else ret s.

(** The search of lines 353 to 536. *)
Definition search (station : AutoMcsWifiRemoteStation) (channelWidth : Z) (s : Search)
  : M Search :=
  if GetHtSupported env && StaHtSupported (m_state station)
  then forM (mcs_body station channelWidth) (StaMcsSupported (m_state station)) s
  else forM (nonht_body station)
            (StaSupported (m_state station))
            (mkSearch (bestRate s) (maxMode s) 1 (txVector s)).

(** The condition of lines 338 to 340. *)
Definition cache_hit (station : AutoMcsWifiRemoteStation) (channelWidth : Z) : bool :=
  negb (PrimFloat.eqb (m_lastSnrCached station) CACHE_INITIAL_VALUE)
  && PrimFloat.eqb (m_lastSnrObserved station) (m_lastSnrCached station)
  && (channelWidth =? m_lastChannelWidth station).

Definition update_cache (mode : WifiMode) (nss : Z) (st : AutoMcsWifiRemoteStation)
  : AutoMcsWifiRemoteStation :=
  mkStation (m_state st) (m_lastSnrObserved st) (m_lastChannelWidthObserved st)
            (m_lastNssObserved st) (m_lastSnrObserved st) nss mode
            (m_lastChannelWidth st).

Definition set_lastChannelWidth (w : Z) (st : AutoMcsWifiRemoteStation)
  : AutoMcsWifiRemoteStation :=
  mkStation (m_state st) (m_lastSnrObserved st) (m_lastChannelWidthObserved st)
            (m_lastNssObserved st) (m_lastSnrCached st) (m_lastNss st) (m_lastMode st) w.

(** The guard interval of the returned vector (lines 559 to 574). *)
Definition final_gi (station : AutoMcsWifiRemoteStation) (mode : WifiMode) : Z :=
  if class_eqb (GetModulationClass mode) WIFI_MOD_CLASS_HE then he_gi station
  else if class_eqb (GetModulationClass mode) WIFI_MOD_CLASS_HT
          || class_eqb (GetModulationClass mode) WIFI_MOD_CLASS_VHT
  then short_gi station
  else 800.

(** The choice of [maxMode] and [selectedNss] (lines 336 to 555). The
    argument [now] is [Simulator::Now().GetSeconds()]. *)
Definition choose (now : float) (station : AutoMcsWifiRemoteStation) (channelWidth : Z)
  : M (WifiMode * Z * AutoMcsWifiRemoteStation) :=
  let maxMode0 := StaDefaultMode (m_state station) in
  let txVector0 := SetChannelWidth channelWidth WifiTxVector_default in
  if PrimFloat.ltb now 10 then
    if cache_hit station channelWidth
    then ret (m_lastMode station, m_lastNss station, station)
    else
      s <- search station channelWidth (mkSearch 0 maxMode0 1 txVector0) ;;
      ret (maxMode s, selectedNss s, update_cache (maxMode s) (selectedNss s) station)
  else
    history <- gets choosenMCS ;;
    average <- lift (ceil_average history) ;;
    ret (WifiMode_of_name ("HeMcs" ++ to_string average), 1, station).

(** [DoGetDataTxVector] (lines 321 to 596). *)
Definition DoGetDataTxVector (now : float) (station : AutoMcsWifiRemoteStation)
    (allowedWidth : Z) : M (WifiTxVector * AutoMcsWifiRemoteStation) :=
  let channelWidth := Z.min (StaChannelWidth (m_state station)) allowedWidth in
  r <- choose now station channelWidth ;;
  let '(maxMode, selectedNss, station) := r in
  let station := set_lastChannelWidth channelWidth station in
  let guardInterval := final_gi station maxMode in
  let bestTxVector := mkTx maxMode guardInterval selectedNss
                           (GetTxBandwidth env maxMode channelWidth) in
  let maxDataRate := GetDataRate env maxMode (GetChannelWidth bestTxVector)
                                 guardInterval selectedNss in
  (fun mgr => Some (tt, set_currentRate maxDataRate mgr)) ;;;
  ret (bestTxVector, station).

(** The locals that the loop of [DoGetRtsTxVector] updates. *)
Record RtsSearch := mkRts {
  maxThreshold : float;
  rtsMode : WifiMode;
  rtsVector : WifiTxVector
}.

(** The body of the loop over the basic modes (lines 612 to 624). *)
Definition rts_body (station : AutoMcsWifiRemoteStation) (mode : WifiMode)
    (s : RtsSearch) : M RtsSearch :=
  width <- lift (GetChannelWidthForNonHtMode mode) ;;
  let v := SetChannelWidth width (SetNss 1 (SetMode mode (rtsVector s))) in
  threshold <- GetSnrThreshold env v ;;
  if PrimFloat.ltb (maxThreshold s) threshold
     && PrimFloat.ltb threshold (m_lastSnrObserved station)
  then ret (mkRts threshold mode v)
  else ret (mkRts (maxThreshold s) (rtsMode s) v).

(** [DoGetRtsTxVector] (lines 598 to 650). *)
Definition DoGetRtsTxVector (station : AutoMcsWifiRemoteStation) : M WifiTxVector :=
  autoMCS <- gets m_autoMCS ;;
  if negb autoMCS then
    s <- forM (rts_body station) (GetBasicModes env)
              (mkRts dzero (GetDefaultMode env) WifiTxVector_default) ;;
    width <- lift (GetChannelWidthForNonHtMode (rtsMode s)) ;;
    ret (mkTx (rtsMode s) 800 1 width)
  else
    let mode := WifiMode_of_name "OfdmRate6Mbps" in
    ret (mkTx mode (StaGuardIntervalNs (m_state station)) 1
              (GetTxBandwidth env mode (StaChannelWidth (m_state station)))).

End Selection.

(** * The vocabulary of the properties *)

(** ** Reports and the converged phase *)

(** What a report of a successful data frame appends: nothing when the SNR
    of the report is zero or the last mode is the default mode of the
    manager, and the MCS index of the last mode otherwise. *)
Definition data_ok_appends (env : Env) (st : AutoMcsWifiRemoteStation) (dataSnr : float)
  : list Z :=
  if PrimFloat.eqb dataSnr dzero then []
  else if mode_eqb (m_lastMode st) (GetDefaultMode env) then []
  else [GetMcsValue (m_lastMode st)].

(** What a report on an A-MPDU appends: nothing when the SNR of the report
    is zero, and otherwise the MCS index of the last mode once for each
    MPDU that was delivered. *)
Definition ampdu_appends (st : AutoMcsWifiRemoteStation) (nSuccessfulMpdus : Z)
    (dataSnr : float) : list Z :=
  if PrimFloat.eqb dataSnr dzero then []
  else repeat (GetMcsValue (m_lastMode st)) (Z.to_nat nSuccessfulMpdus).

(** The vector that the converged phase returns for MCS index [k], the
    station after the request, and the manager after the request. *)
Definition converged_vector (env : Env) (station : AutoMcsWifiRemoteStation)
    (allowedWidth k : Z) : WifiTxVector :=
  mkTx (HeMcs k) (he_gi env station) 1
       (GetTxBandwidth env (HeMcs k) (Z.min (StaChannelWidth (m_state station)) allowedWidth)).

(** ** The warm-up search *)

Section Combinations.

Variable env : Env.
Variable station : AutoMcsWifiRemoteStation.

(** The data rate of a combination, and the SNR estimated for it. *)
Definition rate_of (v : WifiTxVector) : Z :=
  GetDataRate env (GetMode v) (GetChannelWidth v) (GetGuardInterval v) (GetNss v).

Definition estimate (v : WifiTxVector) : float :=
  GetLastObservedSnr station (GetChannelWidth v) (GetNss v).

(** The combinations that the loop over the MCS list visits for one mode. *)
Definition mcs_combos (channelWidth : Z) (mode : WifiMode) : list WifiTxVector :=
  let vht := GetVhtSupported env && StaVhtSupported (m_state station) in
  let he := GetHeSupported env && StaHeSupported (m_state station) in
  if class_eqb (GetModulationClass mode) WIFI_MOD_CLASS_HT then
    let v := mkTx mode (short_gi env station) (GetMcsValue mode / 8 + 1) channelWidth in
    if vht || he then []
    else if IsValid env v && (GetNss v <=? max_streams env station) then [v] else []
  else if class_eqb (GetModulationClass mode) WIFI_MOD_CLASS_VHT then
    if he || negb vht then []
    else filter (IsValid env)
                (map (fun nss => mkTx mode (short_gi env station) nss channelWidth)
                     (upto (max_streams env station)))
  else
    if negb he then []
    else filter (IsValid env)
                (map (fun nss => mkTx mode (he_gi env station) nss channelWidth)
                     (upto (max_streams env station))).

Definition nonht_width (mode : WifiMode) : Z :=
  match GetChannelWidthForNonHtMode mode with Some w => w | None => 20 end.

(** The combinations that a search visits, in the order of the visit: the
    non-HT modes of the station when HT is not supported on both sides,
    and otherwise the MCS list in ascending index, with the stream counts
    of a VHT or HE mode ascending from 1. *)
Definition visited (channelWidth : Z) : list WifiTxVector :=
  if GetHtSupported env && StaHtSupported (m_state station)
  then flat_map (mcs_combos channelWidth) (StaMcsSupported (m_state station))
  else map (fun mode => mkTx mode 800 1 (nonht_width mode)) (StaSupported (m_state station)).

Variable t : Thresholds.

(** A combination clears when its threshold in the table is strictly below
    the SNR estimated for its width and stream count. *)
Definition clears (v : WifiTxVector) : bool :=
  match find_threshold t v with
  | Some threshold => PrimFloat.ltb threshold (estimate v)
  | None => false
  end.

(** One step of the scan on the triple (best rate, mode, stream count). *)
Definition pick (acc : Z * WifiMode * Z) (v : WifiTxVector) : Z * WifiMode * Z :=
  if (fst (fst acc) <? rate_of v) && clears v then (rate_of v, GetMode v, GetNss v) else acc.

(** [v] is the first of the combinations of [l] that clear at the highest
    rate among those that clear. *)
Definition first_best (l : list WifiTxVector) (v : WifiTxVector) : Prop :=
  exists l1 l2,
    l = l1 ++ v :: l2 /\ clears v = true /\
    (forall x, In x l1 -> clears x = true -> rate_of x < rate_of v) /\
    (forall x, In x l2 -> clears x = true -> rate_of x <= rate_of v).

End Combinations.

(** The table has an entry for every combination of [l]. *)
Definition covered (t : Thresholds) (l : list WifiTxVector) : bool :=
  forallb (fun v => match find_threshold t v with Some _ => true | None => false end) l.

Definition acc_of (s : Search) : Z * WifiMode * Z := (bestRate s, maxMode s, selectedNss s).

(** The state that a loop reaches: no abort, the manager untouched, and the
    triple of the scan over [l]. *)
Definition reaches (env : Env) (station : AutoMcsWifiRemoteStation)
    (mgr : AutoMcsWifiManager) (c : M Search) (s : Search) (l : list WifiTxVector)
    (s' : Search) : Prop :=
  c mgr = Some (s', mgr) /\
  acc_of s' = fold_left (pick env station (m_thresholds mgr)) l (acc_of s).

(** Every mode of [modes] passes the assertion of
    [GetChannelWidthForNonHtMode]. *)
Definition all_nonht (modes : list WifiMode) : bool :=
  forallb (fun mode => match GetChannelWidthForNonHtMode mode with
                       | Some _ => true
                       | None => false
                       end) modes.

(** The search can run to its end: the non-HT modes of the station pass
    the assertion on their class when it is their loop that runs, and the
    table has an entry for every combination visited. *)
Definition searchable (env : Env) (station : AutoMcsWifiRemoteStation) (cw : Z)
    (t : Thresholds) : bool :=
  (GetHtSupported env && StaHtSupported (m_state station)
   || all_nonht (StaSupported (m_state station)))
  && covered t (visited env station cw).

(** The outcome of a search over the combinations visited: the first of
    the combinations that clear, with a positive rate, at the highest rate,
    and the default mode of the station with one stream when no
    combination clears with a positive rate. *)
Definition selects (env : Env) (station : AutoMcsWifiRemoteStation) (t : Thresholds)
    (cw : Z) (mode : WifiMode) (nss : Z) : Prop :=
  (exists v, first_best env station t (visited env station cw) v /\ 0 < rate_of env v /\
             mode = GetMode v /\ nss = GetNss v) \/
  ((forall x, In x (visited env station cw) -> clears station t x = true -> rate_of env x <= 0) /\
   mode = StaDefaultMode (m_state station) /\ nss = 1).

(** The triple that the scan of the combinations visited ends on. *)
Definition scan (env : Env) (station : AutoMcsWifiRemoteStation) (t : Thresholds) (cw : Z)
  : Z * WifiMode * Z :=
  fold_left (pick env station t) (visited env station cw)
            (0, StaDefaultMode (m_state station), 1).

(** The vector returned for a mode and a stream count, and the state of
    the station after a search that chose them (lines 537 to 584). *)
Definition returned_vector (env : Env) (station : AutoMcsWifiRemoteStation) (cw : Z)
    (mode : WifiMode) (nss : Z) : WifiTxVector :=
  mkTx mode (final_gi env station mode) nss (GetTxBandwidth env mode cw).

Definition after_search (station : AutoMcsWifiRemoteStation) (cw : Z)
    (mode : WifiMode) (nss : Z) : AutoMcsWifiRemoteStation :=
  set_lastChannelWidth cw (update_cache mode nss station).

(** ** The RTS search *)

(** The vector that the loop of [DoGetRtsTxVector] looks up for a basic
    mode, and its threshold in the table. *)
Definition rts_key (mode : WifiMode) : WifiTxVector := mkTx mode 800 1 (nonht_width mode).

Definition rts_threshold (t : Thresholds) (mode : WifiMode) : option float :=
  find_threshold t (rts_key mode).

(** A basic mode qualifies when its threshold is positive and strictly
    below the observed SNR. *)
Definition rts_qualifies (t : Thresholds) (observed : float) (mode : WifiMode) : bool :=
  match rts_threshold t mode with
  | Some threshold => PrimFloat.ltb dzero threshold && PrimFloat.ltb threshold observed
  | None => false
  end.

(** One step of the scan on the pair (highest threshold, mode). *)
Definition rts_pick (t : Thresholds) (observed : float) (acc : float * WifiMode)
    (mode : WifiMode) : float * WifiMode :=
  match rts_threshold t mode with
  | Some threshold =>
      if PrimFloat.ltb (fst acc) threshold && PrimFloat.ltb threshold observed
      then (threshold, mode) else acc
  | None => acc
  end.

(** The loop can run to its end: the default mode and the basic modes
    pass the assertion on their class, and the table has an entry for
    every basic mode. *)
Definition rts_searchable (env : Env) (t : Thresholds) : bool :=
  all_nonht (GetDefaultMode env :: GetBasicModes env)
  && covered t (map rts_key (GetBasicModes env)).

(** The vector returned when the search is enabled, for the mode chosen. *)
Definition rts_vector (mode : WifiMode) : WifiTxVector := mkTx mode 800 1 (nonht_width mode).

(** The vector returned when [autoMCS] is set. *)
Definition rts_fixed_vector (env : Env) (station : AutoMcsWifiRemoteStation) : WifiTxVector :=
  mkTx OfdmRate6Mbps (StaGuardIntervalNs (m_state station)) 1
       (GetTxBandwidth env OfdmRate6Mbps (StaChannelWidth (m_state station))).

(** ** A small network, to run the definitions on

    Three OFDM rates and the twelve HE modes on a 20 MHz, single-stream
    PHY; the required SNR grows with the rate. *)

Module Scenario.

Definition OfdmRate12Mbps : WifiMode := mkMode "OfdmRate12Mbps" WIFI_MOD_CLASS_OFDM 0.
Definition OfdmRate24Mbps : WifiMode := mkMode "OfdmRate24Mbps" WIFI_MOD_CLASS_OFDM 0.

Definition ofdm : list WifiMode := [OfdmRate6Mbps; OfdmRate12Mbps; OfdmRate24Mbps].
Definition he : list WifiMode := map HeMcs [0; 1; 2; 3; 4; 5; 6; 7; 8; 9; 10; 11].

Definition calculateSnr (v : WifiTxVector) (ber : float) : float :=
  match GetModulationClass (GetMode v) with
  | WIFI_MOD_CLASS_HE => double_of_Z (4 + 3 * GetMcsValue (GetMode v))
  | _ => if mode_eqb (GetMode v) OfdmRate6Mbps then 2%float
         else if mode_eqb (GetMode v) OfdmRate12Mbps then 5%float
         else 11%float
  end.

Definition dataRate (m : WifiMode) (width gi nss : Z) : Z :=
  match GetModulationClass m with
  | WIFI_MOD_CLASS_HE => (GetMcsValue m + 1) * width * nss * 400000
  | _ => if mode_eqb m OfdmRate6Mbps then 6000000
         else if mode_eqb m OfdmRate12Mbps then 12000000
         else 24000000
  end.

Definition env : Env :=
  mkEnv ofdm he 20 1 calculateSnr (fun _ w => w) (fun _ _ _ => true) dataRate
        (fun _ => true) true true true false 800 1 OfdmRate6Mbps ofdm.

(** The same device without high-throughput support. *)
Definition env_legacy : Env :=
  mkEnv ofdm [] 20 1 calculateSnr (fun _ w => w) (fun _ _ _ => true) dataRate
        (fun _ => true) false false false false 800 1 OfdmRate6Mbps ofdm.

Definition peer : WifiRemoteStationState :=
  mkSta true true true false 800 20 1 he ofdm OfdmRate6Mbps.

Definition ber : float := 0x1.ad7f29abcaf48p-24%float.

(** The manager after [DoInitialize], with the search enabled for RTS. *)
Definition manager : AutoMcsWifiManager :=
  match BuildSnrThresholds env (mkManager ber [] 0 [] false 0) with
  | Some (_, mgr) => mgr
  | None => mkManager ber [] 0 [] false 0
  end.

(** The manager of the device without high-throughput support. *)
Definition manager_legacy : AutoMcsWifiManager :=
  match BuildSnrThresholds env_legacy (mkManager ber [] 0 [] false 0) with
  | Some (_, mgr) => mgr
  | None => mkManager ber [] 0 [] false 0
  end.

(** The manager as [main] configures it, with [autoMCS] set. *)
Definition manager_fixed : AutoMcsWifiManager :=
  mkManager (m_ber manager) (m_thresholds manager) 0 [] true (n_rebuilds manager).

(** A station that has just been created: no observation, empty cache. *)
Definition fresh : AutoMcsWifiRemoteStation := DoCreateStation env peer.

(** The station after a CTS that reported an SNR of 12.5. *)
Definition heard : AutoMcsWifiRemoteStation := DoReportRtsOk env fresh 12.5%float.

(** The first request to [heard] in the warm-up phase: the vector it
    returns, the station and the manager it leaves. *)
Definition first_vector : WifiTxVector := returned_vector env heard 20 (HeMcs 2) 1.
Definition settled : AutoMcsWifiRemoteStation := after_search heard 20 (HeMcs 2) 1.
Definition manager_after : AutoMcsWifiManager := set_currentRate 24000000 manager.

(** The station once [HeMcs7] has been selected for it, and the state after
    [n] reports of a successful data frame received at an SNR of 25. *)
Definition at_mcs7 : AutoMcsWifiRemoteStation :=
  after_search (DoReportRtsOk env fresh 25) 20 (HeMcs 7) 1.

Fixpoint after_reports (n : nat) (st : AutoMcsWifiRemoteStation) (mgr : AutoMcsWifiManager)
  : option (AutoMcsWifiRemoteStation * AutoMcsWifiManager) :=
  match n with
  | O => Some (st, mgr)
  | S n' =>
      match DoReportDataOk env st 25 20 1 mgr with
      | Some (st', mgr') => after_reports n' st' mgr'
      | None => None
      end
  end.

(** A device whose 12 Mb/s rate needs a higher SNR than its 24 Mb/s rate. *)
Definition calculateSnr_skewed (v : WifiTxVector) (ber : float) : float :=
  if mode_eqb (GetMode v) OfdmRate6Mbps then 2%float
  else if mode_eqb (GetMode v) OfdmRate12Mbps then 9%float
  else 5%float.

Definition env_skewed : Env :=
  mkEnv ofdm [] 20 1 calculateSnr_skewed (fun _ w => w) (fun _ _ _ => true) dataRate
        (fun _ => true) false false false false 800 1 OfdmRate6Mbps ofdm.

Definition manager_skewed : AutoMcsWifiManager :=
  match BuildSnrThresholds env_skewed (mkManager ber [] 0 [] false 0) with
  | Some (_, mgr) => mgr
  | None => mkManager ber [] 0 [] false 0
  end.

(** Two nodes at the same position, one flagged outdoor, one indoor, and
    an indoor node five metres away. *)
Definition here : Tgax.Vector := Tgax.mkVector 1 2 0.
Definition there : Tgax.Vector := Tgax.mkVector 4 6 0.
Definition outdoor_here : Tgax.MobilityModel :=
  Tgax.mkMobility here (Some (Tgax.mkInfo false 0 0 0)).
Definition indoor_here : Tgax.MobilityModel :=
  Tgax.mkMobility here (Some (Tgax.mkInfo true 0 0 0)).
Definition indoor_there : Tgax.MobilityModel :=
  Tgax.mkMobility there (Some (Tgax.mkInfo true 1 2 0)).

End Scenario.

(** ** The vocabulary of the further properties *)

(** [DoInitialize] (lines 229 to 233); the base class initialises nothing
    that the manager reads. *)
Definition DoInitialize (env : Env) : M unit := BuildSnrThresholds env.

(** The configuration and the history are as before, and the table is the
    one before, with no build counted, or the one built from the PHY, with
    at least one build counted. *)
Definition evolves (env : Env) (mgr mgr' : AutoMcsWifiManager) : Prop :=
  choosenMCS mgr' = choosenMCS mgr /\ m_ber mgr' = m_ber mgr /\
  m_autoMCS mgr' = m_autoMCS mgr /\
  ((m_thresholds mgr' = m_thresholds mgr /\ n_rebuilds mgr' = n_rebuilds mgr) \/
   (built_table env (m_ber mgr) = Some (m_thresholds mgr') /\
    (n_rebuilds mgr < n_rebuilds mgr')%nat)).

(** Every run of [c] that returns leaves the manager in relation [R] with
    the manager it started from. *)
Definition keeps {A} (R : AutoMcsWifiManager -> AutoMcsWifiManager -> Prop) (c : M A) : Prop :=
  forall mgr a mgr', c mgr = Some (a, mgr') -> R mgr mgr'.

(** The table is the one that a build from the PHY gives. *)
Definition up_to_date (env : Env) (mgr : AutoMcsWifiManager) : Prop :=
  built_table env (m_ber mgr) = Some (m_thresholds mgr).

(** From an up-to-date table a run changes nothing. *)
Definition stays (env : Env) (mgr mgr' : AutoMcsWifiManager) : Prop :=
  up_to_date env mgr -> mgr' = mgr.

(** ** The table that a build leaves *)

(** The entry that [AddSnrThreshold] stores for a vector. *)
Definition entry_of (env : Env) (ber : float) (v : WifiTxVector) : float * WifiTxVector :=
  (CalculateSnr env v ber, v).

(** The table has an entry for a mode, a stream count and a width. *)
Definition has_key (t : Thresholds) (mode : WifiMode) (nss width : Z) : Prop :=
  exists p, In p t /\ GetMode (snd p) = mode /\ GetNss (snd p) = nss /\
            GetChannelWidth (snd p) = width.

(** The vector of a non-HT mode in the table. *)
Definition nonht_vector (mode : WifiMode) : WifiTxVector := mkTx mode 800 1 (nonht_width mode).

(** The capabilities of a station lie within those of the PHY: its modes
    are modes of the PHY, it uses no more streams than the PHY has, and a
    VHT or HE vector that is valid is one that its mode allows. *)
Definition within_phy (env : Env) (station : AutoMcsWifiRemoteStation) : Prop :=
  incl (StaMcsSupported (m_state station)) (GetMcsList env) /\
  incl (StaSupported (m_state station)) (GetModeList env) /\
  max_streams env station <= GetMaxSupportedTxSpatialStreams env /\
  (forall v, IsValid env v = true ->
             class_eqb (GetModulationClass (GetMode v)) WIFI_MOD_CLASS_HT = false ->
             IsAllowed env (GetMode v) (GetChannelWidth v) (GetNss v) = true).

(** Every entry holds the SNR that the PHY computes for its vector. *)
Definition entries_ok (env : Env) (ber : float) (t : Thresholds) : Prop :=
  Forall (fun p => fst p = CalculateSnr env (snd p) ber) t.

(** The second state extends the table of the first by entries that hold
    the SNR computed for their vector. *)
Definition grows (env : Env) (ber : float) (s s' : WifiTxVector * Thresholds) : Prop :=
  exists ext, snd s' = snd s ++ ext /\ entries_ok env ber ext.

(** What the table holds for an MCS and a width once the loops have passed
    them: the entry of the stream count derived from the index for an HT
    mode, and an entry for each stream count that the mode allows
    otherwise. *)
Definition mcs_keys (env : Env) (mode : WifiMode) (j : Z) (s : WifiTxVector * Thresholds) : Prop :=
  if class_eqb (GetModulationClass mode) WIFI_MOD_CLASS_HT
  then has_key (snd s) mode (GetMcsValue mode / 8 + 1) j
  else forall k, In k (upto (GetMaxSupportedTxSpatialStreams env)) ->
                 IsAllowed env mode j k = true -> has_key (snd s) mode k j.

(** ** Configuration strings ([csv_split], multi-bss.cc lines 839-879) *)

Module Csv.

Local Open Scope string_scope.

(** The character of a double quote. *)
Definition dquote : ascii := Ascii.ascii_of_nat 34.

(** The loop of [csv_split] on the characters that remain, with the flag
    [inQuote], the word under construction and the words pushed so far.
    A quote inside a quoted part is followed by a look at the next
    character, [source[i + 1]], which is the terminating NUL at the end of
    the string. *)
Fixpoint csv_loop (source : string) (delimeter : ascii) (inQuote : bool) (word : string)
    (ret : list string) : list string :=
  match source with
  | EmptyString => (ret ++ [word])%list
  | String c rest =>
      if negb inQuote && Ascii.eqb c dquote then csv_loop rest delimeter true word ret
      else if inQuote && Ascii.eqb c dquote then
        match rest with
        | String c' rest' =>
            if Ascii.eqb c' dquote
            then csv_loop rest' delimeter inQuote (word ++ String c' EmptyString) ret
            else csv_loop rest delimeter false word ret
        | EmptyString => csv_loop rest delimeter false word ret
        end
      else if negb inQuote && Ascii.eqb c delimeter
      then csv_loop rest delimeter inQuote EmptyString (ret ++ [word])%list
      else csv_loop rest delimeter inQuote (word ++ String c EmptyString) ret
  end.

(** The index [i] of the loop is a [uint32_t] compared with the size of
    the source: on a source of 2^32 characters or more the index wraps
    before it reaches the size, and the loop does not end. *)
Definition csv_split (source : string) (delimeter : ascii) : option (list string) :=
  if (N.of_nat (String.length source) <? 2 ^ 32)%N
  then Some (csv_loop source delimeter false EmptyString [])
  else None.

(** The string has an occurrence of the character. *)
Fixpoint occurs (c : ascii) (s : string) : bool :=
  match s with
  | EmptyString => false
  | String x rest => Ascii.eqb x c || occurs c rest
  end.

Fixpoint count (c : ascii) (s : string) : nat :=
  match s with
  | EmptyString => O
  | String x rest => (if Ascii.eqb x c then 1 else 0) + count c rest
  end.

(** The quoted form of a field: every double quote doubled, the whole
    between double quotes. *)
Fixpoint escape (s : string) : string :=
  match s with
  | EmptyString => EmptyString
  | String c rest =>
      if Ascii.eqb c dquote then String dquote (String dquote (escape rest))
      else String c (escape rest)
  end.

Definition quoted (s : string) : string :=
  String dquote (escape s ++ String dquote EmptyString).

End Csv.

(** ** The configuration file ([readConfigFile], multi-bss.cc lines 1083-1111) *)

Module Config.

(** [std::map<int, std::string>]: the entry of a node, if any. *)
Definition Config : Type := Z -> option string.

Definition empty : Config := fun _ => None.

(** [config[node] = configLine]. *)
Definition assign (node : Z) (configLine : string) (config : Config) : Config :=
  fun k => if k =? node then Some configLine else config k.

(** [line.find(c)]: the position of the first occurrence, [None] for
    [npos]. *)
Fixpoint find (c : ascii) (line : string) : option nat :=
  match line with
  | EmptyString => None
  | String x rest => if Ascii.eqb x c then Some O else option_map S (find c rest)
  end.

Definition hash : ascii := Ascii.ascii_of_nat 35.
Definition colon : ascii := Ascii.ascii_of_nat 58.

Section Reader.

(** [std::stoi], which throws on a string that does not start with a
    number: [None]. *)
Variable stoi : string -> option Z.

(** The body of the loop over the lines that [std::getline] delivers.
    [!line.find('#')] holds when the position found is 0. *)
Definition readConfigLine (line : string) (config : Config) : option Config :=
  if match find hash line with Some O => true | _ => false end then Some config
  else
    match find colon line with
    | Some delimiterPos =>
        match stoi (String.substring 0 delimiterPos line) with
        | Some node =>
            let configLine :=
              String.substring (delimiterPos + 1)
                               (String.length line - (delimiterPos + 1)) line in
            Some (assign node configLine config)
        | None => None
        end
    | None => Some config
    end.

(** The file is [None] when it cannot be opened, and the list of its lines
    otherwise. *)
Definition readConfigFile (file : option (list string)) : option Config :=
  match file with
  | None => Some empty
  | Some lines => fold_opt readConfigLine lines empty
  end.

(** The line is not a comment and reads [key:value], with no colon in
    the key. *)
Definition cuts (line key value : string) : Prop :=
  match line with String c _ => Ascii.eqb c hash = false | EmptyString => True end /\
  line = (key ++ String colon value)%string /\ Csv.occurs colon key = false.

(** The line sets the entry of the node to the value. *)
Definition binds (line : string) (node : Z) (value : string) : Prop :=
  exists key, cuts line key value /\ stoi key = Some node.

End Reader.

(** A reading of decimal numbers, for the examples. *)
Definition stoi_decimal (s : string) : option Z :=
  option_map Z.of_int (NilZero.int_of_string s).

End Config.

(** ** Measurements ([GenerateMeasurement], multi-bss.cc lines 932-1050) *)

Module Meas.

Definition N_BSS : Z := 4.

Definition uint8 (z : Z) : Z := z mod 2 ^ 8.
Definition uint32 (z : Z) : Z := z mod 2 ^ 32.

(** The identifier of the RX power from TX node [i] to RX node [j] (lines
    995-997).  [i] and [j] are [int]s that count up from 0; the shift and
    the disjunction are computed on [int], and the result is stored in a
    [uint8_t]. *)
Definition measId (i j : Z) : Z :=
  let indexInBss0 := Z.quot j N_BSS in
  uint8 (Z.lor (Z.shiftl (uint8 indexInBss0) 5) (Z.land (uint8 i) 31)).

(** [std::map<uint32_t, uint32_t>], read with [operator[]]. *)
Definition set_count (i v : Z) (m : Z -> Z) : Z -> Z :=
  fun k => if k =? i then v else m k.

Record StepCounters : Type := mkCounters {
  stepSuccPerNode : Z -> Z;
  stepSuccPerNodeInitialized : bool
}.

Definition no_counters : StepCounters := mkCounters (fun _ => 0) false.

(** The indices [0 .. n-1] of a loop over [wifiNodes]. *)
Definition nodes (n : Z) : list Z := map Z.of_nat (seq 0 (Z.to_nat n)).

(** [nRecvdTotal] (lines 961-963): the count of the map, which is a
    [uint64_t], stored in a [uint32_t]. *)
Definition nRecvdTotal (succPktsMap : Z -> option Z) (i : Z) : Z :=
  match succPktsMap i with Some v => uint32 v | None => 0 end.

(** One iteration of the loop of lines 954-965. *)
Definition update_step (succPktsMap : Z -> option Z) (m : Z -> Z) (i : Z) : Z -> Z :=
  if i <? N_BSS then m
  else set_count i (uint32 (nRecvdTotal succPktsMap i - m i)) m.

(** The counters after a call of [GenerateMeasurement] on [n] nodes (lines
    942-965). *)
Definition step_counters (n : Z) (succPktsMap : Z -> option Z) (c : StepCounters)
  : StepCounters :=
  if negb (stepSuccPerNodeInitialized c)
  then mkCounters (fold_left (fun m i => set_count i 0 m) (nodes n) (stepSuccPerNode c)) true
  else mkCounters (fold_left (update_step succPktsMap) (nodes n) (stepSuccPerNode c)) true.

(** The counters after a call for each of the maps, in order. *)
Definition run_steps (n : Z) (maps : list (Z -> option Z)) (c : StepCounters) : StepCounters :=
  fold_left (fun c succPktsMap => step_counters n succPktsMap c) maps c.

(** [bssOfNode] as [main] fills it (lines 1336 and 1376), for the
    identifiers [apId i] and [staId i] of the nodes created. *)
Definition bss_of_aps (apNodeCount : Z) (apId : Z -> Z) (m : Z -> Z) : Z -> Z :=
  fold_left (fun m i => set_count (apId i) i m) (nodes apNodeCount) m.

Definition bss_of_stas (apNodeCount networkSize : Z) (staId : Z -> Z) (m : Z -> Z) : Z -> Z :=
  fold_left (fun m i => set_count (staId i) (i mod apNodeCount) m)
            (nodes (apNodeCount * networkSize)) m.

Definition bssOfNode (apNodeCount networkSize : Z) (apId staId : Z -> Z) : Z -> Z :=
  bss_of_stas apNodeCount networkSize staId (bss_of_aps apNodeCount apId (fun _ => 0)).

(** The indices that the loop of [RecvAction] visits (line 1064), for a
    number of nodes that [i += N_BSS] does not wrap on. *)
Definition action_nodes (n : Z) : list Z :=
  map (fun k => Z.of_nat k * N_BSS) (seq 0 (Z.to_nat ((n + N_BSS - 1) / N_BSS))).

End Meas.

(** ** Single station ([GenerateMeasurement], single-sta-single-link.cc
    lines 183-230) *)

Module SingleSta.

Import Meas.

Record Totals : Type := mkTotals { totalSucc : Z; totalFail : Z }.

Definition GetTotalSuccAndFailCounts (recvdPktsMap failedPktsMap : option Z) : Z * Z :=
  let nRecvd := match recvdPktsMap with Some v => uint32 v | None => 0 end in
  let nFailed := match failedPktsMap with Some v => uint32 v | None => 0 end in
  (nRecvd, nFailed).

(** The measurement [(meas::succ, meas::fail)] and the totals left. *)
Definition GenerateMeasurement (stats : option Z * option Z) (t : Totals)
  : (Z * Z) * Totals :=
  let totalCounts := GetTotalSuccAndFailCounts (fst stats) (snd stats) in
  ((uint32 (fst totalCounts - totalSucc t), uint32 (snd totalCounts - totalFail t)),
   mkTotals (fst totalCounts) (snd totalCounts)).

(** The measurements of a sequence of calls, and the totals left. *)
Fixpoint run (calls : list (option Z * option Z)) (t : Totals) : list (Z * Z) * Totals :=
  match calls with
  | [] => ([], t)
  | stats :: rest =>
      let '(meas, t') := GenerateMeasurement stats t in
      let '(more, t'') := run rest t' in
      (meas :: more, t'')
  end.

(** The sums of the measurements, and the counts of a call. *)
Definition sum_succ (meas : list (Z * Z)) : Z := fold_right (fun m acc => fst m + acc) 0 meas.
Definition sum_fail (meas : list (Z * Z)) : Z := fold_right (fun m acc => snd m + acc) 0 meas.

Definition nRecvd (stats : option Z * option Z) : Z :=
  fst (GetTotalSuccAndFailCounts (fst stats) (snd stats)).
Definition nFailed (stats : option Z * option Z) : Z :=
  snd (GetTotalSuccAndFailCounts (fst stats) (snd stats)).

End SingleSta.

(** ** Sample data for the further properties *)

Module Samples.

Local Open Scope string_scope.

(** The manager of [Scenario] before [DoInitialize]. *)
Definition blank : AutoMcsWifiManager := mkManager Scenario.ber [] 0 [] false 0.

(** The manager of [Scenario] with three indices reported. *)
Definition with_history : AutoMcsWifiManager := set_choosenMCS [5; 7; 6] Scenario.manager.

(** A configuration file: a comment, and a node that is set twice. *)
Definition config_lines : list string :=
  ["# node: settings"; "0:first"; "4:0,-82,20,42,20"; "0:second"].

Definition config : Config.Config :=
  match Config.readConfigFile Config.stoi_decimal (Some config_lines) with
  | Some c => c
  | None => Config.empty
  end.

(** Counters after some calls, with a count of 4 for every node. *)
Definition counted : Meas.StepCounters := Meas.mkCounters (fun _ => 4) true.

End Samples.


(** * Properties *)

(** ** The quotient of line 552 in binary64 *)

(** On an empty history the quotient is a NaN. *)
Lemma empty_history_quotient_is_nan :
  PrimFloat.is_nan (dzero / double_of_Z (Z.of_nat (@List.length Z [])))%float = true.
Proof. reflexivity. Qed.

(** On fifty 7s it is 7, and on a 7 and an 8 it is 7.5: [ceil_average]
    gives 7 and 8. *)
Example quotients_in_binary64 :
  PrimFloat.div (double_of_Z (fold_left Z.add (repeat 7 50%nat) 0)) (double_of_Z 50)
  = 7%float /\
  ceil_average (repeat 7 50%nat) = Some 7 /\
  PrimFloat.div (double_of_Z (fold_left Z.add [7; 8] 0)) (double_of_Z 2) = 7.5%float /\
  ceil_average [7; 8] = Some 8.
Proof. repeat split. Qed.

(** ** The propagation model *)

Module TgaxFacts.
Import Tgax.

Section Facts.

Variable log10 : float -> float.
Variable pow : float -> float -> float.
Variable m_frequencyHz : float.

Lemma same_position_keeps_power txPowerDbm a b :
  PrimFloat.eqb (GetDistanceFrom a b) dzero = true ->
  DoCalcRxPower log10 pow m_frequencyHz txPowerDbm a b = txPowerDbm.
Proof. intros H. unfold DoCalcRxPower. now rewrite H. Qed.

Lemma outdoor_endpoint_blocks txPowerDbm a b ia ib :
  PrimFloat.eqb (GetDistanceFrom a b) dzero = false ->
  GetBuildingInfo a = Some ia -> GetBuildingInfo b = Some ib ->
  IsIndoor ia = false \/ IsIndoor ib = false ->
  DoCalcRxPower log10 pow m_frequencyHz txPowerDbm a b = dzero.
Proof.
  intros Hd Ha Hb Hout. unfold DoCalcRxPower. rewrite Hd, Ha, Hb.
  destruct Hout as [-> | ->]; simpl; [reflexivity | now rewrite orb_true_r].
Qed.

End Facts.

(** C7, as amended. Whatever the transmit power, the floors and the rooms,
    when both endpoints carry building information, one is flagged outdoor
    and the other indoor, and the two positions are at a non-zero distance,
    the received power is exactly 0; and at distance zero the transmit
    power is returned unchanged, whatever the building information and
    the indoor flags. *)
Theorem blocked_link_zero_power log10 pow m_frequencyHz txPowerDbm a b :
  (PrimFloat.eqb (GetDistanceFrom a b) dzero = false ->
   mixed_indoor a b ->
   DoCalcRxPower log10 pow m_frequencyHz txPowerDbm a b = dzero) /\
  (PrimFloat.eqb (GetDistanceFrom a b) dzero = true ->
   DoCalcRxPower log10 pow m_frequencyHz txPowerDbm a b = txPowerDbm).
Proof.
  split.
  - intros Hd (ia & ib & Ha & Hb & Hmix).
    apply outdoor_endpoint_blocks with (ia := ia) (ib := ib); trivial.
    destruct (IsIndoor ia), (IsIndoor ib); auto; congruence.
  - apply same_position_keeps_power.
Qed.

Lemma scenario_mixed : mixed_indoor Scenario.outdoor_here Scenario.indoor_there.
Proof. do 2 eexists; repeat split; discriminate. Qed.

Lemma blocked_link_zero_power_witness :
  DoCalcRxPower (fun x => x) (fun x _ => x) 2437000000 16
                Scenario.outdoor_here Scenario.indoor_there = dzero /\
  DoCalcRxPower (fun x => x) (fun x _ => x) 2437000000 16
                Scenario.outdoor_here Scenario.indoor_here = 16%float.
Proof.
  split.
  - apply (proj1 (blocked_link_zero_power (fun x => x) (fun x _ => x) 2437000000 16
                    Scenario.outdoor_here Scenario.indoor_there));
      [reflexivity | exact scenario_mixed].
  - apply (proj2 (blocked_link_zero_power (fun x => x) (fun x _ => x) 2437000000 16
                    Scenario.outdoor_here Scenario.indoor_here)).
    reflexivity.
Defined.

(** C7, as stated, fails where the two endpoints share a position: the
    test of the distance comes first and the transmit power is returned,
    here 16 dBm and not 0. *)
Lemma blocked_link_same_position :
  mixed_indoor Scenario.outdoor_here Scenario.indoor_here /\
  (forall log10 pow m_frequencyHz,
      DoCalcRxPower log10 pow m_frequencyHz 16 Scenario.outdoor_here Scenario.indoor_here
      = 16%float) /\
  PrimFloat.eqb 16 dzero = false.
Proof.
  split; [| split].
  - do 2 eexists; repeat split; discriminate.
  - intros. now apply same_position_keeps_power.
  - reflexivity.
Qed.

End TgaxFacts.

(** ** The SNR estimate *)

Lemma rescale_cases {D} (ddiv : D -> D -> D) (of_int : Z -> D) s w0 n0 w n :
  rescale ddiv of_int s w0 n0 w n =
  let s1 := if w =? w0 then s else ddiv s (ddiv (of_int w) (of_int w0)) in
  if n =? n0 then s1 else ddiv s1 (ddiv (of_int n) (of_int n0)).
Proof. unfold rescale. destruct (w =? w0), (n =? n0); reflexivity. Qed.

(** In exact arithmetic the estimate is the linear rescaling
    [s * (w0 / w) * (n0 / n)]. *)
Lemma rescale_exact_linear (s : Q) (w0 n0 w n : Z) :
  w <> 0 -> w0 <> 0 -> n <> 0 -> n0 <> 0 ->
  (rescale Qdiv inject_Z s w0 n0 w n
   == s * (inject_Z w0 / inject_Z w) * (inject_Z n0 / inject_Z n))%Q.
Proof.
  intros Hw Hw0 Hn Hn0. rewrite rescale_cases. cbv zeta.
  assert (Qw : ~ (inject_Z w == 0)%Q) by (unfold inject_Z, Qeq; simpl; lia).
  assert (Qw0 : ~ (inject_Z w0 == 0)%Q) by (unfold inject_Z, Qeq; simpl; lia).
  assert (Qn : ~ (inject_Z n == 0)%Q) by (unfold inject_Z, Qeq; simpl; lia).
  assert (Qn0 : ~ (inject_Z n0 == 0)%Q) by (unfold inject_Z, Qeq; simpl; lia).
  destruct (Z.eqb_spec w w0) as [-> | _], (Z.eqb_spec n n0) as [-> | _]; field; auto.
Qed.

(** C6. The estimate is the last observed SNR [s], divided by [w / w0]
    when the requested width [w] differs from the observed width [w0],
    and divided further by [n / n0] when the requested stream count [n]
    differs from the observed one [n0]; it is [s] itself when both match.
    Read in exact arithmetic, the same text computes
    [s * (w0 / w) * (n0 / n)]. *)
Theorem GetLastObservedSnr_rescales (station : AutoMcsWifiRemoteStation) (w n : Z) :
  let s := m_lastSnrObserved station in
  let w0 := m_lastChannelWidthObserved station in
  let n0 := m_lastNssObserved station in
  let by_width := (s / (double_of_Z w / double_of_Z w0))%float in
  (w = w0 -> n = n0 -> GetLastObservedSnr station w n = s) /\
  (w <> w0 -> n = n0 -> GetLastObservedSnr station w n = by_width) /\
  (w = w0 -> n <> n0 ->
   GetLastObservedSnr station w n = (s / (double_of_Z n / double_of_Z n0))%float) /\
  (w <> w0 -> n <> n0 ->
   GetLastObservedSnr station w n
   = (by_width / (double_of_Z n / double_of_Z n0))%float) /\
  (forall q : Q, w <> 0 -> w0 <> 0 -> n <> 0 -> n0 <> 0 ->
     (rescale Qdiv inject_Z q w0 n0 w n
      == q * (inject_Z w0 / inject_Z w) * (inject_Z n0 / inject_Z n))%Q).
Proof.
  cbv zeta. unfold GetLastObservedSnr. rewrite rescale_cases. cbv zeta.
  repeat split; intros.
  - subst. now rewrite !Z.eqb_refl.
  - subst n. rewrite Z.eqb_refl. now destruct (Z.eqb_spec w (m_lastChannelWidthObserved station)).
  - subst w. rewrite Z.eqb_refl. now destruct (Z.eqb_spec n (m_lastNssObserved station)).
  - destruct (Z.eqb_spec w (m_lastChannelWidthObserved station));
      destruct (Z.eqb_spec n (m_lastNssObserved station)); congruence.
  - now apply rescale_exact_linear.
Qed.

Lemma GetLastObservedSnr_rescales_witness :
  GetLastObservedSnr Scenario.heard 40 1
  = (12.5 / (double_of_Z 40 / double_of_Z 20))%float /\
  GetLastObservedSnr Scenario.heard 40 1 = 6.25%float /\
  (rescale Qdiv inject_Z (25 # 2) 20 1 40 2
   == (25 # 2) * (inject_Z 20 / inject_Z 40) * (inject_Z 1 / inject_Z 2))%Q.
Proof.
  destruct (GetLastObservedSnr_rescales Scenario.heard 40 1) as (_ & Hw & _ & _ & _).
  destruct (GetLastObservedSnr_rescales Scenario.heard 40 2) as (_ & _ & _ & _ & Hq).
  split; [apply Hw; [discriminate | reflexivity] |].
  split; [reflexivity |].
  apply Hq; discriminate.
Defined.

(** ** The monad *)

Lemma bind_Some {A B} (c : M A) (k : A -> M B) mgr a mgr' :
  c mgr = Some (a, mgr') -> bind c k mgr = k a mgr'.
Proof. unfold bind. now intros ->. Qed.

(** ** The history of selections *)

Lemma emplace_repeat (mcs : Z) (n : nat) (start : nat) mgr :
  forM (fun (_ : nat) (_ : unit) => emplace_back mcs) (seq start n) tt mgr
  = Some (tt, set_choosenMCS (choosenMCS mgr ++ repeat mcs n) mgr).
Proof.
  revert start mgr. induction n as [| n IH]; intros start mgr; simpl.
  - unfold ret. rewrite app_nil_r. now destruct mgr.
  - unfold bind, emplace_back at 1. rewrite IH. simpl.
    unfold set_choosenMCS; simpl. now rewrite <- app_assoc.
Qed.


Lemma DoReportDataOk_history env st dataSnr w nss mgr :
  exists st',
    DoReportDataOk env st dataSnr w nss mgr
    = Some (st', set_choosenMCS (choosenMCS mgr ++ data_ok_appends env st dataSnr) mgr).
Proof.
  unfold DoReportDataOk, data_ok_appends.
  destruct (PrimFloat.eqb dataSnr dzero).
  - exists st. unfold ret. rewrite app_nil_r. now destruct mgr.
  - simpl. destruct (mode_eqb (m_lastMode st) (GetDefaultMode env)); simpl;
      eexists; unfold bind, ret, emplace_back; simpl; try reflexivity.
    rewrite app_nil_r. now destruct mgr.
Qed.

Lemma DoReportAmpduTxStatus_history st nOk nFailed rxSnr dataSnr w nss mgr :
  exists st',
    DoReportAmpduTxStatus st nOk nFailed rxSnr dataSnr w nss mgr
    = Some (st', set_choosenMCS (choosenMCS mgr ++ ampdu_appends st nOk dataSnr) mgr).
Proof.
  unfold DoReportAmpduTxStatus, ampdu_appends.
  destruct (PrimFloat.eqb dataSnr dzero).
  - exists st. unfold ret. rewrite app_nil_r. now destruct mgr.
  - eexists. unfold bind. rewrite emplace_repeat. reflexivity.
Qed.

(** C9, as amended. A report whose data SNR is zero appends nothing. A
    report of a successful data frame with a non-zero SNR appends the MCS
    index of the station's last mode exactly once, unless that mode is the
    default mode of the manager, in which case it appends nothing. A
    report on an A-MPDU with a non-zero SNR appends that index exactly
    once for each delivered MPDU. *)
Theorem reports_extend_history env st dataSnr w nss nOk nFailed rxSnr mgr :
  (exists st',
      DoReportDataOk env st dataSnr w nss mgr
      = Some (st', set_choosenMCS (choosenMCS mgr ++ data_ok_appends env st dataSnr) mgr)) /\
  (exists st',
      DoReportAmpduTxStatus st nOk nFailed rxSnr dataSnr w nss mgr
      = Some (st', set_choosenMCS (choosenMCS mgr ++ ampdu_appends st nOk dataSnr) mgr)) /\
  (PrimFloat.eqb dataSnr dzero = true ->
   data_ok_appends env st dataSnr = [] /\ ampdu_appends st nOk dataSnr = []) /\
  (PrimFloat.eqb dataSnr dzero = false ->
   (m_lastMode st <> GetDefaultMode env ->
    data_ok_appends env st dataSnr = [GetMcsValue (m_lastMode st)]) /\
   (m_lastMode st = GetDefaultMode env -> data_ok_appends env st dataSnr = []) /\
   ampdu_appends st nOk dataSnr = repeat (GetMcsValue (m_lastMode st)) (Z.to_nat nOk)).
Proof.
  split; [apply DoReportDataOk_history |].
  split; [apply DoReportAmpduTxStatus_history |].
  unfold data_ok_appends, ampdu_appends, mode_eqb.
  split; intros ->; repeat split; intros;
    destruct (WifiMode_eq_dec (m_lastMode st) (GetDefaultMode env)); congruence.
Qed.

(** C9, as stated, fails on a successful data frame sent at the default
    mode (the first frame to any station): the report has a non-zero SNR
    and the history stays empty. *)
Lemma data_ok_at_default_mode_appends_nothing :
  PrimFloat.eqb 12.5 dzero = false /\
  choosenMCS Scenario.manager = [] /\
  option_map (fun r => choosenMCS (snd r))
             (DoReportDataOk Scenario.env Scenario.fresh 12.5 20 1 Scenario.manager)
  = Some [].
Proof. repeat split. Qed.

(** ** The converged phase *)

Lemma fold_add_acc (l : list Z) (a : Z) : fold_left Z.add l a = a + fold_left Z.add l 0.
Proof.
  revert a. induction l as [| x l IH]; intros a; simpl; [lia |].
  rewrite (IH (a + x)), (IH x). lia.
Qed.

Lemma sum_bounds (lo hi : Z) (l : list Z) :
  Forall (fun x => lo <= x <= hi) l ->
  lo * Z.of_nat (List.length l) <= fold_left Z.add l 0 <= hi * Z.of_nat (List.length l).
Proof.
  induction 1 as [| x l Hx _ IH]; simpl List.length; simpl fold_left; [lia |].
  rewrite fold_add_acc. lia.
Qed.

Lemma sum_repeat (c : Z) (n : nat) : fold_left Z.add (repeat c n) 0 = c * Z.of_nat n.
Proof.
  induction n as [| n IH]; simpl; [lia |]. rewrite fold_add_acc, IH. lia.
Qed.

(** [ceil_average] is the mean of the history rounded up: the least
    integer [k] with [sum <= k * size]. *)
Lemma ceil_average_spec (history : list Z) (k : Z) :
  ceil_average history = Some k ->
  let total := fold_left Z.add history 0 in
  let size := Z.of_nat (List.length history) in
  history <> [] /\ total <= k * size < total + size.
Proof.
  unfold ceil_average. cbv zeta.
  destruct (Z.eqb_spec (Z.of_nat (List.length history)) 0) as [| Hsize]; [discriminate |].
  intros [= <-]. split; [intros ->; now apply Hsize |].
  set (total := fold_left Z.add history 0). set (size := Z.of_nat (List.length history)) in *.
  assert (Hpos : 0 < size) by (unfold size in *; lia).
  pose proof (Z.div_mod (- total) size Hsize) as Hdm.
  pose proof (Z.mod_pos_bound (- total) size Hpos) as Hr.
  nia.
Qed.

Lemma ceil_average_defined (history : list Z) :
  history <> [] -> exists k, ceil_average history = Some k.
Proof.
  intros Hne. unfold ceil_average.
  destruct (Z.eqb_spec (Z.of_nat (List.length history)) 0) as [H0 |]; [| eauto].
  destruct history; [congruence | simpl in H0; lia].
Qed.

Lemma ceil_average_empty (history : list Z) : ceil_average history = None <-> history = [].
Proof.
  split.
  - intros H. destruct history as [| x l]; [reflexivity |].
    destruct (ceil_average_defined (x :: l)) as [k Hk]; congruence.
  - now intros ->.
Qed.

Lemma ceil_average_unique (history : list Z) (k c : Z) :
  ceil_average history = Some k ->
  fold_left Z.add history 0 = c * Z.of_nat (List.length history) -> k = c.
Proof.
  intros Hk Hsum. apply ceil_average_spec in Hk. cbv zeta in Hk.
  destruct Hk as [Hne Hk]. rewrite Hsum in Hk.
  assert (0 < Z.of_nat (List.length history)) by (destruct history; [congruence | simpl; lia]).
  nia.
Qed.

Lemma ceil_average_range (lo hi : Z) (history : list Z) (k : Z) :
  Forall (fun x => lo <= x <= hi) history ->
  ceil_average history = Some k -> lo <= k <= hi.
Proof.
  intros Hall Hk. apply sum_bounds in Hall. apply ceil_average_spec in Hk.
  cbv zeta in Hk. destruct Hk as [Hne Hk].
  assert (0 < Z.of_nat (List.length history)) by (destruct history; [congruence | simpl; lia]).
  nia.
Qed.

(** The registry resolves the names [HeMcs0] to [HeMcs11]. *)
Lemma HeMcs_registered (k : Z) :
  0 <= k <= 11 -> WifiMode_of_name ("HeMcs" ++ to_string k) = HeMcs k.
Proof.
  intros Hk.
  assert (H : k = 0 \/ k = 1 \/ k = 2 \/ k = 3 \/ k = 4 \/ k = 5 \/ k = 6 \/ k = 7
              \/ k = 8 \/ k = 9 \/ k = 10 \/ k = 11) by lia.
  repeat (destruct H as [-> | H]; [reflexivity |]). now subst.
Qed.


Lemma converged_run env now station allowedWidth mgr :
  PrimFloat.ltb now 10 = false ->
  DoGetDataTxVector env now station allowedWidth mgr
  = match ceil_average (choosenMCS mgr) with
    | None => None
    | Some k =>
        let channelWidth := Z.min (StaChannelWidth (m_state station)) allowedWidth in
        let mode := WifiMode_of_name ("HeMcs" ++ to_string k) in
        let station' := set_lastChannelWidth channelWidth station in
        let guardInterval := final_gi env station' mode in
        let bw := GetTxBandwidth env mode channelWidth in
        Some (mkTx mode guardInterval 1 bw, station',
              set_currentRate (GetDataRate env mode bw guardInterval 1) mgr)
    end.
Proof.
  intros Hnow. unfold DoGetDataTxVector, choose. rewrite Hnow.
  unfold bind, gets, lift, ret. destruct (ceil_average (choosenMCS mgr)); reflexivity.
Qed.

(** C2. At or after the 10-second threshold, with a history that is not
    empty and holds HE indices, there is one index [k], the mean of the
    whole history rounded up, such that every request, for every station
    and allowed width, returns the HE mode of index [k] with one stream.
    The request reads neither the observed nor the cached SNR, leaves the
    cache of the station alone but for the width, and leaves the table of
    thresholds and the count of rebuilds as they were: no search is made.
    A history that repeats one index [c] gives [k = c]; fifty
    transmissions at MCS 7 give [HeMcs7]. *)
Theorem converged_selection env mgr :
  choosenMCS mgr <> [] ->
  Forall (fun mcs => 0 <= mcs <= 11) (choosenMCS mgr) ->
  exists k,
    let history := choosenMCS mgr in
    let total := fold_left Z.add history 0 in
    let size := Z.of_nat (List.length history) in
    total <= k * size < total + size /\
    (forall c n, history = repeat c n -> k = c) /\
    (history = repeat 7 50%nat -> HeMcs k = HeMcs 7) /\
    forall now station allowedWidth,
      PrimFloat.ltb now 10 = false ->
      exists rate,
        DoGetDataTxVector env now station allowedWidth mgr
        = Some (converged_vector env station allowedWidth k,
                set_lastChannelWidth (Z.min (StaChannelWidth (m_state station)) allowedWidth)
                                     station,
                set_currentRate rate mgr).
Proof.
  intros Hne Hall.
  destruct (ceil_average_defined _ Hne) as [k Hk]. exists k. cbv zeta.
  pose proof (ceil_average_spec _ _ Hk) as Hspec. cbv zeta in Hspec.
  pose proof (ceil_average_range _ _ _ _ Hall Hk) as Hrange.
  assert (Hrep : forall c n, choosenMCS mgr = repeat c n -> k = c).
  { intros c n Hrep. apply (ceil_average_unique _ _ _ Hk).
    rewrite Hrep, sum_repeat, repeat_length. reflexivity. }
  split; [apply Hspec |]. split; [exact Hrep |].
  split; [intros H; now rewrite (Hrep _ _ H) |].
  intros now station allowedWidth Hnow.
  rewrite (converged_run env now station allowedWidth mgr Hnow), Hk. cbv zeta.
  rewrite (HeMcs_registered _ Hrange). eexists. reflexivity.
Qed.

(** Fifty reports of a frame delivered at [HeMcs7] fill the history with
    fifty 7s, and a request at 11 s then returns [HeMcs7]. *)
Example fifty_reports_at_mcs7 :
  option_map (fun r => choosenMCS (snd r))
             (Scenario.after_reports 50 Scenario.at_mcs7 Scenario.manager)
  = Some (repeat 7 50%nat) /\
  match Scenario.after_reports 50 Scenario.at_mcs7 Scenario.manager with
  | Some (st, mgr) =>
      option_map (fun r => GetMode (fst (fst r)))
                 (DoGetDataTxVector Scenario.env 11 st 20 mgr)
  | None => None
  end = Some (HeMcs 7).
Proof. split; vm_compute; reflexivity. Qed.

Lemma converged_selection_witness :
  exists k,
    50 * 7 <= k * 50 < 50 * 7 + 50 /\
    HeMcs k = HeMcs 7 /\
    exists rate,
      DoGetDataTxVector Scenario.env 11 Scenario.heard 20
                        (set_choosenMCS (repeat 7 50%nat) Scenario.manager)
      = Some (converged_vector Scenario.env Scenario.heard 20 k,
              set_lastChannelWidth 20 Scenario.heard,
              set_currentRate rate (set_choosenMCS (repeat 7 50%nat) Scenario.manager)).
Proof.
  destruct (converged_selection Scenario.env
              (set_choosenMCS (repeat 7 50%nat) Scenario.manager))
    as (k & Hk & _ & H7 & Hrun).
  - discriminate.
  - apply Forall_forall. intros x Hx. apply repeat_spec in Hx. lia.
  - exists k. split; [exact Hk |]. split; [now apply H7 |].
    exact (Hrun 11%float Scenario.heard 20 eq_refl).
Defined.

(** C10. The converged phase divides by the size of the history without a
    guard: at or after the threshold a request has a result exactly when
    the history is not empty. On an empty history the quotient is [0.0 / 0]
    and no mode index comes out of it; on a history of HE indices the
    result is the HE mode of an index between 0 and 11. *)
Theorem converged_needs_history env now station allowedWidth mgr :
  PrimFloat.ltb now 10 = false ->
  (choosenMCS mgr = [] <-> DoGetDataTxVector env now station allowedWidth mgr = None) /\
  (choosenMCS mgr = [] -> ceil_average (choosenMCS mgr) = None) /\
  (choosenMCS mgr <> [] ->
   exists k, ceil_average (choosenMCS mgr) = Some k /\
     exists v station' mgr',
       DoGetDataTxVector env now station allowedWidth mgr = Some (v, station', mgr') /\
       GetMode v = WifiMode_of_name ("HeMcs" ++ to_string k) /\
       (Forall (fun mcs => 0 <= mcs <= 11) (choosenMCS mgr) ->
        0 <= k <= 11 /\ GetMode v = HeMcs k)).
Proof.
  intros Hnow. rewrite (converged_run env now station allowedWidth mgr Hnow).
  split; [| split].
  - rewrite <- ceil_average_empty. destruct (ceil_average (choosenMCS mgr)); split; congruence.
  - now intros ->.
  - intros Hne. destruct (ceil_average_defined _ Hne) as [k Hk]. exists k.
    rewrite Hk. split; [reflexivity |]. cbv zeta. do 3 eexists.
    split; [reflexivity |]. split; [reflexivity |].
    intros Hall. pose proof (ceil_average_range _ _ _ _ Hall Hk) as Hrange.
    split; [exact Hrange | now apply HeMcs_registered].
Qed.

Lemma converged_needs_history_witness :
  (choosenMCS Scenario.manager = [] <->
   DoGetDataTxVector Scenario.env 11 Scenario.heard 20 Scenario.manager = None).
Proof.
  exact (proj1 (converged_needs_history Scenario.env 11%float Scenario.heard 20
                  Scenario.manager eq_refl)).
Defined.

(** ** The table of thresholds *)

Lemma find_threshold_entry (t : Thresholds) (v : WifiTxVector) (threshold : float) :
  find_threshold t v = Some threshold ->
  exists e, In (threshold, e) t /\ same_key v (threshold, e) = true.
Proof.
  unfold find_threshold. destruct (find (same_key v) t) as [[x e] |] eqn:Hfind; [| discriminate].
  intros [= <-]. apply find_some in Hfind. now exists e.
Qed.

Lemma BuildSnrThresholds_run env mgr :
  BuildSnrThresholds env mgr
  = match built_table env (m_ber mgr) with
    | Some t => Some (tt, set_thresholds t (count_rebuild mgr))
    | None => None
    end.
Proof. reflexivity. Qed.

Lemma GetSnrThreshold_hit env v mgr threshold :
  find_threshold (m_thresholds mgr) v = Some threshold ->
  GetSnrThreshold env v mgr = Some (threshold, mgr).
Proof. unfold GetSnrThreshold, bind, gets. simpl. now intros ->. Qed.

Lemma GetSnrThreshold_miss env v mgr :
  find_threshold (m_thresholds mgr) v = None ->
  GetSnrThreshold env v mgr
  = match built_table env (m_ber mgr) with
    | None => None
    | Some t =>
        match find_threshold t v with
        | Some threshold => Some (threshold, set_thresholds t (count_rebuild mgr))
        | None => None
        end
    end.
Proof.
  unfold GetSnrThreshold, bind, gets. simpl. intros ->.
  rewrite BuildSnrThresholds_run. destruct (built_table env (m_ber mgr)) as [t |]; [| reflexivity].
  simpl. destruct (find_threshold t v); reflexivity.
Qed.

(** C4. A lookup that finds its key returns the stored threshold and builds
    nothing. A lookup that misses rebuilds the table once, from the
    capabilities of the PHY alone, and searches the new table: a hit
    returns the stored threshold and leaves the new table in place, a
    second miss aborts. A threshold that is returned is always the one of
    an entry of the table with the requested mode, stream count and width,
    and a lookup never rebuilds more than once. *)
Theorem GetSnrThreshold_rebuilds_once env v mgr :
  match find_threshold (m_thresholds mgr) v with
  | Some threshold => GetSnrThreshold env v mgr = Some (threshold, mgr)
  | None =>
      match built_table env (m_ber mgr) with
      | None => GetSnrThreshold env v mgr = None
      | Some t =>
          let mgr' := set_thresholds t (count_rebuild mgr) in
          m_thresholds mgr' = t /\ n_rebuilds mgr' = S (n_rebuilds mgr) /\
          match find_threshold t v with
          | Some threshold => GetSnrThreshold env v mgr = Some (threshold, mgr')
          | None => GetSnrThreshold env v mgr = None
          end
      end
  end /\
  (forall threshold mgr',
      GetSnrThreshold env v mgr = Some (threshold, mgr') ->
      (exists e, In (threshold, e) (m_thresholds mgr') /\ same_key v (threshold, e) = true) /\
      (n_rebuilds mgr' = n_rebuilds mgr \/
       n_rebuilds mgr' = S (n_rebuilds mgr) /\
       built_table env (m_ber mgr) = Some (m_thresholds mgr'))).
Proof.
  split.
  - destruct (find_threshold (m_thresholds mgr) v) as [threshold |] eqn:Hfind.
    + now apply GetSnrThreshold_hit.
    + rewrite (GetSnrThreshold_miss env v mgr Hfind).
      destruct (built_table env (m_ber mgr)) as [t |]; [| reflexivity].
      cbv zeta. split; [reflexivity |]. split; [reflexivity |].
      destruct (find_threshold t v); reflexivity.
  - intros threshold mgr'.
    destruct (find_threshold (m_thresholds mgr) v) as [t0 |] eqn:Hfind.
    + rewrite (GetSnrThreshold_hit env v mgr t0 Hfind). intros [= <- <-].
      split; [now apply find_threshold_entry | now left].
    + rewrite (GetSnrThreshold_miss env v mgr Hfind).
      destruct (built_table env (m_ber mgr)) as [t |]; [| discriminate].
      destruct (find_threshold t v) as [t1 |] eqn:Hfind'; [| discriminate].
      intros [= <- <-]. split; [now apply find_threshold_entry | right].
      split; reflexivity.
Qed.

(** Before [DoInitialize] the table is empty: the first lookup builds it
    and answers from it. *)
Example first_lookup_builds_the_table :
  GetSnrThreshold Scenario.env (mkTx (HeMcs 3) 800 1 20)
                  (mkManager Scenario.ber [] 0 [] false 0)
  = Some (13%float, Scenario.manager).
Proof. vm_compute. reflexivity. Qed.

(** The PHY of the scenario has one stream: a lookup for two streams
    misses, rebuilds, misses again and aborts. *)
Example second_miss_aborts :
  GetSnrThreshold Scenario.env (mkTx (HeMcs 3) 800 2 20) Scenario.manager = None.
Proof. vm_compute. reflexivity. Qed.

(** ** The order of binary64 *)

Lemma SFcompare_lt_trans (x y z : spec_float) :
  SFcompare x y = Some Lt -> SFcompare y z = Some Lt -> SFcompare x z = Some Lt.
Proof.
  destruct x as [sx | sx | | sx mx ex], y as [sy | sy | | sy my ey],
           z as [sz | sz | | sz mz ez];
    simpl; try discriminate; try reflexivity;
    repeat match goal with s : bool |- _ => destruct s end;
    simpl; try discriminate; try reflexivity; try (intros; assumption).
  all: change (Pos.compare_cont Eq) with Pos.compare.
  all: destruct (Z.compare_spec ex ey), (Z.compare_spec ey ez), (Z.compare_spec ex ez);
    try discriminate; try lia; try reflexivity; subst.
  all: destruct (Pos.compare_spec mx my), (Pos.compare_spec my mz),
         (Pos.compare_spec mx mz);
    simpl; try discriminate; try lia; try reflexivity.
Qed.

Lemma SFcompare_irrefl (x : spec_float) : SFcompare x x <> Some Lt.
Proof.
  destruct x as [s | s | | s m e]; simpl; try discriminate; destruct s; try discriminate;
    rewrite Z.compare_refl; change (Pos.compare_cont Eq) with Pos.compare;
    rewrite Pos.compare_refl; discriminate.
Qed.

Lemma double_lt_trans (x y z : float) :
  PrimFloat.ltb x y = true -> PrimFloat.ltb y z = true -> PrimFloat.ltb x z = true.
Proof.
  rewrite !ltb_spec. unfold SFltb.
  destruct (SFcompare (Prim2SF x) (Prim2SF y)) as [[| |] |] eqn:H1; try discriminate.
  destruct (SFcompare (Prim2SF y) (Prim2SF z)) as [[| |] |] eqn:H2; try discriminate.
  now rewrite (SFcompare_lt_trans _ _ _ H1 H2).
Qed.

Lemma double_lt_irrefl (x : float) : PrimFloat.ltb x x = false.
Proof.
  rewrite ltb_spec. unfold SFltb. pose proof (SFcompare_irrefl (Prim2SF x)).
  destruct (SFcompare (Prim2SF x) (Prim2SF x)) as [[| |] |]; congruence.
Qed.

(** ** The warm-up search *)

Lemma scan_spec env station t (l : list WifiTxVector) (best : Z) (m : WifiMode) (n : Z) :
  let r := fold_left (pick env station t) l (best, m, n) in
  (r = (best, m, n) /\
   forall x, In x l -> clears station t x = true -> rate_of env x <= best) \/
  (exists v, first_best env station t l v /\ best < rate_of env v /\
             r = (rate_of env v, GetMode v, GetNss v)).
Proof.
  cbv zeta. unfold first_best. induction l as [| x l IH] using rev_ind.
  - left. split; [reflexivity | intros x []].
  - rewrite fold_left_app. simpl fold_left.
    destruct IH as [[-> Hnone] | (v & (l1 & l2 & -> & Hv & H1 & H2) & Hbest & ->)];
      unfold pick; cbn [fst].
    + destruct (Z.ltb_spec best (rate_of env x)) as [Hlt | Hge]; cbn [andb].
      * destruct (clears station t x) eqn:Hx.
        -- right. exists x. split; [| now split].
           exists l, []. repeat split; trivial.
           ++ intros y Hy Hc. specialize (Hnone y Hy Hc). lia.
           ++ intros y [].
        -- left. split; [reflexivity |].
           intros y Hy Hc. apply in_app_or in Hy. destruct Hy as [Hy | [<- | []]];
             [now apply Hnone | congruence].
      * left. split; [reflexivity |].
        intros y Hy Hc. apply in_app_or in Hy. destruct Hy as [Hy | [<- | []]];
          [now apply Hnone | lia].
    + destruct (Z.ltb_spec (rate_of env v) (rate_of env x)) as [Hlt | Hge]; cbn [andb].
      * destruct (clears station t x) eqn:Hx.
        -- right. exists x. split; [| split; [lia | reflexivity]].
           exists (l1 ++ v :: l2), []. repeat split; trivial.
           ++ intros y Hy Hc. apply in_app_or in Hy. destruct Hy as [Hy | [<- | Hy]].
              ** specialize (H1 y Hy Hc). lia.
              ** lia.
              ** specialize (H2 y Hy Hc). lia.
           ++ intros y [].
        -- right. exists v. split; [| now split].
           exists l1, (l2 ++ [x]). rewrite <- app_assoc. repeat split; trivial.
           intros y Hy Hc. apply in_app_or in Hy. destruct Hy as [Hy | [<- | []]];
             [now apply H2 | congruence].
      * right. exists v. split; [| now split].
        exists l1, (l2 ++ [x]). rewrite <- app_assoc. repeat split; trivial.
        intros y Hy Hc. apply in_app_or in Hy. destruct Hy as [Hy | [<- | []]];
          [now apply H2 | lia].
Qed.



Lemma covered_app t l1 l2 : covered t (l1 ++ l2) = covered t l1 && covered t l2.
Proof. apply forallb_app. Qed.

Lemma tx_eta (v : WifiTxVector) :
  v = mkTx (GetMode v) (GetGuardInterval v) (GetNss v) (GetChannelWidth v).
Proof. now destruct v. Qed.

Section SearchSim.

Variable env : Env.
Variable station : AutoMcsWifiRemoteStation.
Variable mgr : AutoMcsWifiManager.


Lemma test_mcs_sim (s : Search) :
  covered (m_thresholds mgr) [txVector s] = true ->
  exists s',
    reaches env station mgr (test_mcs env station (GetChannelWidth (txVector s)) (GetMode (txVector s))
                      (GetNss (txVector s)) s) s [txVector s] s' /\
    txVector s' = txVector s.
Proof.
  unfold covered, reaches. simpl. rewrite andb_true_r.
  destruct (find_threshold (m_thresholds mgr) (txVector s)) as [threshold |] eqn:Hfind; [intros _ | discriminate].
  unfold test_mcs. rewrite (bind_Some _ _ _ _ _ (GetSnrThreshold_hit env _ _ _ Hfind)).
  unfold pick, clears, rate_of, estimate. rewrite Hfind. cbn [fst acc_of].
  destruct ((bestRate s <? _) && _); eexists; repeat split.
Qed.

Lemma nss_loop_sim (mode : WifiMode) (gi cw : Z) (l : list Z) : forall s,
  GetMode (txVector s) = mode -> GetGuardInterval (txVector s) = gi ->
  GetChannelWidth (txVector s) = cw ->
  let combos := filter (IsValid env) (map (fun nss => mkTx mode gi nss cw) l) in
  covered (m_thresholds mgr) combos = true ->
  exists s',
    reaches env station mgr (forM (nss_body env station cw mode) l s) s combos s' /\
    GetChannelWidth (txVector s') = cw.
Proof.
  cbv zeta. induction l as [| nss l IH]; intros s Hm Hg Hw Hcov.
  - exists s. repeat split; assumption.
  - simpl forM. unfold nss_body at 1.
    set (s1 := with_txVector (SetNss nss (txVector s)) s).
    assert (Hv : txVector s1 = mkTx mode gi nss cw).
    { unfold s1. simpl. unfold SetNss. now rewrite Hm, Hg, Hw. }
    assert (Hacc : acc_of s1 = acc_of s) by reflexivity.
    simpl map in *. simpl filter in *. rewrite <- Hv in *.
    destruct (IsValid env (txVector s1)) eqn:Hvalid; simpl negb; cbv iota.
    + change (txVector s1 :: ?r) with ([txVector s1] ++ r) in Hcov.
      rewrite covered_app in Hcov. apply andb_prop in Hcov. destruct Hcov as [Hc1 Hc2].
      destruct (test_mcs_sim s1 Hc1) as (s2 & [Hrun Hacc2] & Htx).
      rewrite Hv in Hrun at 1 2 3. simpl in Hrun.
      destruct (IH s2) as (s' & [Hrun' Hacc'] & Hw'); try (rewrite Htx, Hv; reflexivity).
      { exact Hc2. }
      exists s'. split; [split |]; trivial.
      * unfold bind. rewrite Hrun. exact Hrun'.
      * simpl fold_left. rewrite Hacc', Hacc2, Hacc. reflexivity.
    + destruct (IH s1) as (s' & [Hrun' Hacc'] & Hw'); try (rewrite Hv; reflexivity).
      { exact Hcov. }
      exists s'. split; [split |]; trivial.
Qed.

Lemma mcs_body_sim (cw : Z) (mode : WifiMode) (s : Search) :
  GetChannelWidth (txVector s) = cw ->
  covered (m_thresholds mgr) (mcs_combos env station cw mode) = true ->
  exists s',
    reaches env station mgr (mcs_body env station cw mode s) s (mcs_combos env station cw mode) s' /\
    GetChannelWidth (txVector s') = cw.
Proof.
  intros Hw. unfold mcs_body, mcs_combos. cbv zeta.
  destruct (class_eqb (GetModulationClass mode) WIFI_MOD_CLASS_HT).
  - destruct (GetVhtSupported env && StaVhtSupported (m_state station)); simpl orb; cbv iota.
    { intros _. eexists. repeat split. exact Hw. }
    destruct (GetHeSupported env && StaHeSupported (m_state station)); cbv iota.
    { intros _. eexists. repeat split. exact Hw. }
    set (s1 := with_txVector _ (with_txVector _ (with_txVector _ s))).
    assert (Hv : txVector s1
                 = mkTx mode (short_gi env station) (GetMcsValue mode / 8 + 1) cw).
    { unfold s1, SetNss, SetGuardInterval, SetMode. simpl. now rewrite Hw. }
    rewrite <- Hv.
    change (SetNss (GetMcsValue mode / 8 + 1)
              (SetGuardInterval (short_gi env station) (SetMode mode (txVector s))))
      with (txVector s1).
    replace (GetNss (txVector s1)) with (GetMcsValue mode / 8 + 1) by now rewrite Hv.
    rewrite Z.leb_antisym.
    destruct (IsValid env (txVector s1)); simpl negb; simpl orb; simpl andb; cbv iota.
    2: { intros _. exists s1. repeat split. now rewrite Hv. }
    destruct (max_streams env station <? GetMcsValue mode / 8 + 1); simpl negb; cbv iota.
    { intros _. exists s1. repeat split. now rewrite Hv. }
    intros Hcov. destruct (test_mcs_sim s1 Hcov) as (s2 & Hreach & Htx).
    rewrite Hv in Hreach at 1 2 3. simpl in Hreach.
    exists s2. split; [exact Hreach | now rewrite Htx, Hv].
  - destruct (class_eqb (GetModulationClass mode) WIFI_MOD_CLASS_VHT).
    + destruct (GetHeSupported env && StaHeSupported (m_state station)); simpl orb; cbv iota.
      { intros _. eexists. repeat split. exact Hw. }
      rewrite <- negb_andb.
      destruct (GetVhtSupported env && StaVhtSupported (m_state station)); simpl negb; cbv iota.
      2: { intros _. eexists. repeat split. exact Hw. }
      intros Hcov.
      destruct (nss_loop_sim mode (short_gi env station) cw (upto (max_streams env station))
                  (with_txVector (SetGuardInterval (short_gi env station) (SetMode mode (txVector s)))
                                 s))
        as (s' & [Hrun Hacc] & Hw'); [reflexivity | reflexivity | exact Hw | exact Hcov |].
      exists s'. repeat split; [exact Hrun | exact Hacc | exact Hw'].
    + rewrite <- negb_andb.
      destruct (GetHeSupported env && StaHeSupported (m_state station)); simpl negb; cbv iota.
      2: { intros _. eexists. repeat split. exact Hw. }
      intros Hcov.
      destruct (nss_loop_sim mode (he_gi env station) cw (upto (max_streams env station))
                  (with_txVector (SetGuardInterval (he_gi env station) (SetMode mode (txVector s)))
                                 s))
        as (s' & [Hrun Hacc] & Hw'); [reflexivity | reflexivity | exact Hw | exact Hcov |].
      exists s'. repeat split; [exact Hrun | exact Hacc | exact Hw'].
Qed.

Lemma mcs_loop_sim (cw : Z) (modes : list WifiMode) : forall s,
  GetChannelWidth (txVector s) = cw ->
  covered (m_thresholds mgr) (flat_map (mcs_combos env station cw) modes) = true ->
  exists s',
    reaches env station mgr (forM (mcs_body env station cw) modes s) s
            (flat_map (mcs_combos env station cw) modes) s'.
Proof.
  induction modes as [| mode modes IH]; intros s Hw Hcov.
  - exists s. now split.
  - simpl flat_map in *. rewrite covered_app in Hcov. apply andb_prop in Hcov.
    destruct Hcov as [Hc1 Hc2].
    destruct (mcs_body_sim cw mode s Hw Hc1) as (s1 & [Hrun1 Hacc1] & Hw1).
    destruct (IH s1 Hw1 Hc2) as (s' & Hrun' & Hacc').
    exists s'. split.
    + simpl forM. unfold bind. rewrite Hrun1. exact Hrun'.
    + rewrite fold_left_app, <- Hacc1. exact Hacc'.
Qed.


Lemma nonht_loop_sim (modes : list WifiMode) : forall s,
  selectedNss s = 1 -> GetGuardInterval (txVector s) = 800 ->
  all_nonht modes = true ->
  let combos := map (fun mode => mkTx mode 800 1 (nonht_width mode)) modes in
  covered (m_thresholds mgr) combos = true ->
  exists s', reaches env station mgr (forM (nonht_body env station) modes s) s combos s'.
Proof.
  cbv zeta. induction modes as [| mode modes IH]; intros s Hn Hg Hall Hcov.
  - exists s. now split.
  - simpl in Hall. apply andb_prop in Hall. destruct Hall as [Hmode Hall].
    simpl map in Hcov. change (?v :: ?r) with ([v] ++ r) in Hcov.
    rewrite covered_app in Hcov. apply andb_prop in Hcov. destruct Hcov as [Hc1 Hc2].
    unfold nonht_width in Hc1.
    destruct (GetChannelWidthForNonHtMode mode) as [width |] eqn:Hwidth; [| discriminate].
    set (v := mkTx mode 800 1 width) in *.
    set (s1 := with_txVector v s).
    assert (Hfind : exists threshold, find_threshold (m_thresholds mgr) v = Some threshold).
    { unfold covered in Hc1. simpl in Hc1.
      destruct (find_threshold (m_thresholds mgr) v); [eauto | discriminate]. }
    destruct Hfind as [threshold Hfind].
    assert (Hstep : exists s2,
               nonht_body env station mode s mgr = Some (s2, mgr) /\
               acc_of s2 = pick env station (m_thresholds mgr) (acc_of s) v /\
               selectedNss s2 = 1 /\ GetGuardInterval (txVector s2) = 800).
    { unfold nonht_body. cbv zeta. unfold bind at 1, lift at 1. rewrite Hwidth.
      simpl txVector. rewrite Hn. unfold SetChannelWidth, SetNss, SetMode. simpl.
      rewrite Hg. fold v.
      rewrite (bind_Some _ _ _ _ _ (GetSnrThreshold_hit env _ _ _ Hfind)).
      unfold pick, clears, rate_of, estimate. rewrite Hfind. cbn [fst acc_of]. simpl.
      destruct ((bestRate s <? _) && _); eexists; repeat split; unfold acc_of; simpl;
        rewrite ?Hn; trivial. }
    destruct Hstep as (s2 & Hrun2 & Hacc2 & Hn2 & Hg2).
    destruct (IH s2 Hn2 Hg2 Hall Hc2) as (s' & Hrun' & Hacc').
    exists s'. split.
    + simpl forM. unfold bind. rewrite Hrun2. exact Hrun'.
    + simpl map. simpl fold_left.
      replace (nonht_width mode) with width by (unfold nonht_width; now rewrite Hwidth).
      fold v.
      rewrite <- Hacc2. exact Hacc'.
Qed.

End SearchSim.


Lemma scan_selects env station t cw :
  selects env station t cw (snd (fst (scan env station t cw))) (snd (scan env station t cw)).
Proof.
  unfold scan, selects.
  destruct (scan_spec env station t (visited env station cw) 0
              (StaDefaultMode (m_state station)) 1)
    as [[-> Hnone] | (v & Hfirst & Hpos & ->)]; simpl.
  - right. now repeat split.
  - left. exists v. now repeat split.
Qed.

Lemma search_sim env station mgr cw :
  searchable env station cw (m_thresholds mgr) = true ->
  exists s',
    search env station cw
           (mkSearch 0 (StaDefaultMode (m_state station)) 1
                     (SetChannelWidth cw WifiTxVector_default)) mgr
    = Some (s', mgr) /\
    acc_of s' = scan env station (m_thresholds mgr) cw.
Proof.
  unfold searchable, search, scan, visited. intros H. apply andb_prop in H.
  destruct H as [Hmodes Hcov].
  destruct (GetHtSupported env && StaHtSupported (m_state station)).
  - destruct (mcs_loop_sim env station mgr cw (StaMcsSupported (m_state station))
                (mkSearch 0 (StaDefaultMode (m_state station)) 1
                          (SetChannelWidth cw WifiTxVector_default)))
      as (s' & Hrun & Hacc); [reflexivity | exact Hcov |].
    exists s'. now split.
  - destruct (nonht_loop_sim env station mgr (StaSupported (m_state station))
                (mkSearch 0 (StaDefaultMode (m_state station)) 1
                          (SetChannelWidth cw WifiTxVector_default)))
      as (s' & Hrun & Hacc); [reflexivity | reflexivity | exact Hmodes | exact Hcov |].
    exists s'. now split.
Qed.


Lemma warmup_search_run env now station allowedWidth mgr :
  let cw := Z.min (StaChannelWidth (m_state station)) allowedWidth in
  PrimFloat.ltb now 10 = true ->
  cache_hit station cw = false ->
  searchable env station cw (m_thresholds mgr) = true ->
  exists best mode nss,
    scan env station (m_thresholds mgr) cw = (best, mode, nss) /\
    DoGetDataTxVector env now station allowedWidth mgr
    = Some (returned_vector env station cw mode nss, after_search station cw mode nss,
            set_currentRate (rate_of env (returned_vector env station cw mode nss)) mgr).
Proof.
  cbv zeta. intros Hnow Hmiss Hok.
  destruct (search_sim env station mgr _ Hok) as (s' & Hrun & Hacc).
  exists (bestRate s'), (maxMode s'), (selectedNss s'). split; [now rewrite <- Hacc |].
  unfold DoGetDataTxVector, choose. rewrite Hnow, Hmiss.
  unfold bind at 1 2. rewrite Hrun. reflexivity.
Qed.

Lemma warmup_cached_run env now station allowedWidth mgr :
  let cw := Z.min (StaChannelWidth (m_state station)) allowedWidth in
  PrimFloat.ltb now 10 = true ->
  cache_hit station cw = true ->
  DoGetDataTxVector env now station allowedWidth mgr
  = Some (returned_vector env station cw (m_lastMode station) (m_lastNss station),
          set_lastChannelWidth cw station,
          set_currentRate
            (rate_of env (returned_vector env station cw (m_lastMode station)
                                          (m_lastNss station))) mgr).
Proof.
  cbv zeta. intros Hnow Hhit. unfold DoGetDataTxVector, choose. rewrite Hnow, Hhit.
  reflexivity.
Qed.

(** C1. In the warm-up phase, a request that is not a cache hit, on a
    table that has the entries of the combinations visited, visits them in
    the order of [visited]: the non-HT modes only when HT is not supported
    on both sides, otherwise the MCS list in ascending index, the stream
    counts of a VHT or HE mode ascending from 1. Only a combination whose
    threshold is strictly below the SNR estimated for its width and stream
    count is adopted, and the request returns the mode and stream count of
    the first combination that reaches the highest rate among those (the
    default mode of the station with one stream when none clears with a
    positive rate). It records the mode, the stream count and the observed
    SNR in the cache of the station. *)
Theorem warmup_search_selects env now station allowedWidth mgr :
  let cw := Z.min (StaChannelWidth (m_state station)) allowedWidth in
  let t := m_thresholds mgr in
  PrimFloat.ltb now 10 = true ->
  cache_hit station cw = false ->
  searchable env station cw t = true ->
  exists v station' mgr',
    DoGetDataTxVector env now station allowedWidth mgr = Some (v, station', mgr') /\
    selects env station t cw (GetMode v) (GetNss v) /\
    m_lastMode station' = GetMode v /\
    m_lastNss station' = GetNss v /\
    m_lastSnrCached station' = m_lastSnrObserved station /\
    m_lastChannelWidth station' = cw /\
    m_thresholds mgr' = t /\ n_rebuilds mgr' = n_rebuilds mgr.
Proof.
  cbv zeta. intros Hnow Hmiss Hok.
  destruct (warmup_search_run env now station allowedWidth mgr Hnow Hmiss Hok)
    as (best & mode & nss & Hscan & Hrun).
  do 3 eexists. split; [exact Hrun |].
  split; [| now repeat split].
  pose proof (scan_selects env station (m_thresholds mgr)
                (Z.min (StaChannelWidth (m_state station)) allowedWidth)) as Hsel.
  now rewrite Hscan in Hsel.
Qed.

Lemma warmup_search_selects_witness :
  exists v station' mgr',
    DoGetDataTxVector Scenario.env 1 Scenario.heard 20 Scenario.manager
    = Some (v, station', mgr') /\
    selects Scenario.env Scenario.heard (m_thresholds Scenario.manager) 20
            (GetMode v) (GetNss v) /\
    m_lastMode station' = GetMode v /\
    m_lastNss station' = GetNss v /\
    m_lastSnrCached station' = m_lastSnrObserved Scenario.heard /\
    m_lastChannelWidth station' = 20 /\
    m_thresholds mgr' = m_thresholds Scenario.manager /\
    n_rebuilds mgr' = n_rebuilds Scenario.manager.
Proof.
  apply (warmup_search_selects Scenario.env 1 Scenario.heard 20 Scenario.manager);
    vm_compute; reflexivity.
Defined.

(** With an SNR of 12.5 observed on 20 MHz and one stream, the search of
    the scenario settles on [HeMcs2], whose threshold is 10. *)
Example heard_station_gets_HeMcs2 :
  option_map (fun r => (GetMode (fst (fst r)), GetNss (fst (fst r))))
             (DoGetDataTxVector Scenario.env 1 Scenario.heard 20 Scenario.manager)
  = Some (HeMcs 2, 1).
Proof. vm_compute. reflexivity. Qed.

(** C3, as amended. In the warm-up phase a request returns in one of three
    ways. When a search is made and some combination visited clears with a
    positive rate, the mode and stream count returned are those of a
    combination visited whose threshold is strictly below the SNR estimated
    for its width and stream count. When a search is made and no
    combination visited clears with a positive rate, the default mode of
    the station is returned with one stream. On a cache hit the cached
    mode and stream count are returned, and no threshold is looked up: the
    manager changes in its current rate only. *)
Theorem warmup_selection_feasible env now station allowedWidth mgr :
  let cw := Z.min (StaChannelWidth (m_state station)) allowedWidth in
  let t := m_thresholds mgr in
  PrimFloat.ltb now 10 = true ->
  (cache_hit station cw = false ->
   searchable env station cw t = true ->
   ((exists x, In x (visited env station cw) /\ clears station t x = true /\ 0 < rate_of env x) ->
    exists v station' mgr' c threshold,
      DoGetDataTxVector env now station allowedWidth mgr = Some (v, station', mgr') /\
      In c (visited env station cw) /\
      GetMode c = GetMode v /\ GetNss c = GetNss v /\
      find_threshold t c = Some threshold /\
      PrimFloat.ltb threshold (GetLastObservedSnr station (GetChannelWidth c) (GetNss c))
      = true) /\
   ((forall x, In x (visited env station cw) -> clears station t x = true ->
               rate_of env x <= 0) ->
    exists v station' mgr',
      DoGetDataTxVector env now station allowedWidth mgr = Some (v, station', mgr') /\
      GetMode v = StaDefaultMode (m_state station) /\ GetNss v = 1)) /\
  (cache_hit station cw = true ->
   exists v station' rate,
     DoGetDataTxVector env now station allowedWidth mgr
     = Some (v, station', set_currentRate rate mgr) /\
     GetMode v = m_lastMode station /\ GetNss v = m_lastNss station).
Proof.
  cbv zeta. intros Hnow. split.
  - intros Hmiss Hok.
    destruct (warmup_search_run env now station allowedWidth mgr Hnow Hmiss Hok)
      as (best & mode & nss & Hscan & Hrun).
    pose proof (scan_selects env station (m_thresholds mgr)
                  (Z.min (StaChannelWidth (m_state station)) allowedWidth)) as Hsel.
    rewrite Hscan in Hsel. simpl in Hsel. split.
    + intros (x & Hin & Hclears & Hpos).
      destruct Hsel as [(c & (l1 & l2 & Hl & Hc & _) & _ & -> & ->) | (Hnone & _)].
      * unfold clears, estimate in Hc.
        destruct (find_threshold (m_thresholds mgr) c) as [threshold |] eqn:Hfind;
          [| discriminate].
        do 3 eexists. exists c, threshold.
        split; [exact Hrun |]. split; [rewrite Hl; apply in_elt |]. now repeat split.
      * specialize (Hnone x Hin Hclears). lia.
    + intros Hnone.
      destruct Hsel as [(c & (l1 & l2 & Hl & Hc & _) & Hpos & _) | (_ & -> & ->)].
      * assert (Hin : In c (visited env station
                               (Z.min (StaChannelWidth (m_state station)) allowedWidth)))
          by (rewrite Hl; apply in_elt).
        specialize (Hnone c Hin Hc). lia.
      * do 3 eexists. split; [exact Hrun |]. split; reflexivity.
  - intros Hhit.
    rewrite (warmup_cached_run env now station allowedWidth mgr Hnow Hhit).
    do 3 eexists. split; [reflexivity |]. split; reflexivity.
Qed.

Lemma warmup_selection_feasible_witness :
  exists v station' mgr' c threshold,
    DoGetDataTxVector Scenario.env 1 Scenario.heard 20 Scenario.manager
    = Some (v, station', mgr') /\
    In c (visited Scenario.env Scenario.heard 20) /\
    GetMode c = GetMode v /\ GetNss c = GetNss v /\
    find_threshold (m_thresholds Scenario.manager) c = Some threshold /\
    PrimFloat.ltb threshold
                  (GetLastObservedSnr Scenario.heard (GetChannelWidth c) (GetNss c)) = true.
Proof.
  refine (proj1 (proj1 (warmup_selection_feasible Scenario.env 1 Scenario.heard 20
                          Scenario.manager _) _ _) _);
    try (vm_compute; reflexivity).
  exists (mkTx (HeMcs 0) 800 1 20). split; [left; reflexivity | split; vm_compute; reflexivity].
Defined.

(** C3, as stated, fails on the first request to a station. Nothing has
    been observed, the estimate is 0 for every rate, no rate clears, and
    the request returns the default mode [OfdmRate6Mbps]: its threshold, 2,
    is not below the estimate, 0, that it was tested against. *)
Lemma fresh_station_gets_default_mode :
  PrimFloat.ltb 1 10 = true /\
  cache_hit Scenario.fresh 20 = false /\
  In (mkTx OfdmRate6Mbps 800 1 20) (visited Scenario.env_legacy Scenario.fresh 20) /\
  option_map (fun r => (GetMode (fst (fst r)), GetNss (fst (fst r))))
             (DoGetDataTxVector Scenario.env_legacy 1 Scenario.fresh 20
                                Scenario.manager_legacy)
  = Some (OfdmRate6Mbps, 1) /\
  find_threshold (m_thresholds Scenario.manager_legacy) (mkTx OfdmRate6Mbps 800 1 20)
  = Some 2%float /\
  GetLastObservedSnr Scenario.fresh 20 1 = 0%float /\
  PrimFloat.ltb 2 0 = false.
Proof.
  repeat split; try (vm_compute; reflexivity). left. reflexivity.
Qed.

(** The second request to the same station, with nothing reported in
    between, is a cache hit: the first request has cached the default mode
    against the observed SNR 0, and the default mode is returned again,
    its threshold 2 still not below the estimate 0. *)
Example second_request_returns_cached_default_mode :
  exists v station' mgr',
    DoGetDataTxVector Scenario.env_legacy 1 Scenario.fresh 20 Scenario.manager_legacy
    = Some (v, station', mgr') /\
    cache_hit station' 20 = true /\
    option_map (fun r => (GetMode (fst (fst r)), GetNss (fst (fst r))))
               (DoGetDataTxVector Scenario.env_legacy 1 station' 20 mgr')
    = Some (OfdmRate6Mbps, 1) /\
    find_threshold (m_thresholds mgr') (mkTx OfdmRate6Mbps 800 1 20) = Some 2%float /\
    GetLastObservedSnr station' 20 1 = 0%float.
Proof.
  do 3 eexists. split; [vm_compute; reflexivity |].
  repeat split; vm_compute; reflexivity.
Qed.

(** ** The cache *)

Lemma warmup_miss_inv env now station allowedWidth mgr v station' mgr' :
  let cw := Z.min (StaChannelWidth (m_state station)) allowedWidth in
  PrimFloat.ltb now 10 = true ->
  cache_hit station cw = false ->
  DoGetDataTxVector env now station allowedWidth mgr = Some (v, station', mgr') ->
  exists mode nss,
    v = returned_vector env station cw mode nss /\ station' = after_search station cw mode nss.
Proof.
  cbv zeta. intros Hnow Hmiss. unfold DoGetDataTxVector, choose. rewrite Hnow, Hmiss.
  unfold bind at 1 2.
  destruct (search env station _ _ mgr) as [[s' mgr1] |]; [| discriminate].
  unfold ret, bind. intros [= <- <- _]. now exists (maxMode s'), (selectedNss s').
Qed.

Lemma cache_hit_iff (station : AutoMcsWifiRemoteStation) (cw : Z) :
  cache_hit station cw = true <->
  PrimFloat.eqb (m_lastSnrCached station) CACHE_INITIAL_VALUE = false /\
  PrimFloat.eqb (m_lastSnrObserved station) (m_lastSnrCached station) = true /\
  cw = m_lastChannelWidth station.
Proof.
  unfold cache_hit. rewrite !andb_true_iff, negb_true_iff, Z.eqb_eq. tauto.
Qed.

(** C5. In the warm-up phase, after a request that returned for a station
    whose observed SNR is a number other than the sentinel, a second
    request with the same allowed width, no report having come in between,
    is a cache hit and returns the same mode and stream count; it leaves
    the station and the table as they were. A request is a cache hit
    exactly when the cached SNR is not the sentinel, the observed SNR is
    equal to the cached SNR, and the requested width is the cached
    width. *)
Theorem cache_idempotence env now1 now2 station allowedWidth mgr v1 station1 mgr1 :
  let cw := Z.min (StaChannelWidth (m_state station)) allowedWidth in
  PrimFloat.ltb now1 10 = true ->
  PrimFloat.ltb now2 10 = true ->
  PrimFloat.eqb (m_lastSnrObserved station) (m_lastSnrObserved station) = true ->
  PrimFloat.eqb (m_lastSnrObserved station) CACHE_INITIAL_VALUE = false ->
  DoGetDataTxVector env now1 station allowedWidth mgr = Some (v1, station1, mgr1) ->
  cache_hit station1 cw = true /\
  (exists v2 mgr2,
      DoGetDataTxVector env now2 station1 allowedWidth mgr1 = Some (v2, station1, mgr2) /\
      GetMode v2 = GetMode v1 /\ GetNss v2 = GetNss v1 /\
      m_thresholds mgr2 = m_thresholds mgr1) /\
  (forall st w,
      cache_hit st w = true <->
      PrimFloat.eqb (m_lastSnrCached st) CACHE_INITIAL_VALUE = false /\
      PrimFloat.eqb (m_lastSnrObserved st) (m_lastSnrCached st) = true /\
      w = m_lastChannelWidth st).
Proof.
  cbv zeta. intros Hnow1 Hnow2 Hnum Hsent Hrun.
  set (cw := Z.min (StaChannelWidth (m_state station)) allowedWidth) in *.
  assert (Hfirst : cache_hit station1 cw = true /\ m_state station1 = m_state station /\
                   m_lastChannelWidth station1 = cw /\
                   GetMode v1 = m_lastMode station1 /\ GetNss v1 = m_lastNss station1).
  { destruct (cache_hit station cw) eqn:Hhit.
    - rewrite (warmup_cached_run env now1 station allowedWidth mgr Hnow1 Hhit) in Hrun.
      injection Hrun as <- <- _. apply cache_hit_iff in Hhit. destruct Hhit as (H1 & H2 & H3).
      repeat split; trivial. apply cache_hit_iff. now repeat split.
    - destruct (warmup_miss_inv env now1 station allowedWidth mgr v1 station1 mgr1
                  Hnow1 Hhit Hrun) as (mode & nss & -> & ->).
      repeat split; trivial. apply cache_hit_iff. now repeat split. }
  destruct Hfirst as (Hhit1 & Hstate & Hwidth & Hmode & Hnss).
  split; [exact Hhit1 |]. split; [| exact cache_hit_iff].
  assert (Hcw : Z.min (StaChannelWidth (m_state station1)) allowedWidth = cw)
    by now rewrite Hstate.
  pose proof (warmup_cached_run env now2 station1 allowedWidth mgr1 Hnow2) as Hrun2.
  cbv zeta in Hrun2. rewrite Hcw in Hrun2. specialize (Hrun2 Hhit1).
  do 2 eexists. split.
  - rewrite Hrun2. repeat f_equal. destruct station1; simpl in *. now subst.
  - now repeat split.
Qed.

Lemma cache_idempotence_witness :
  cache_hit Scenario.settled (Z.min (StaChannelWidth (m_state Scenario.heard)) 20) = true /\
  (exists v2 mgr2,
      DoGetDataTxVector Scenario.env 2 Scenario.settled 20 Scenario.manager_after
      = Some (v2, Scenario.settled, mgr2) /\
      GetMode v2 = GetMode Scenario.first_vector /\
      GetNss v2 = GetNss Scenario.first_vector /\
      m_thresholds mgr2 = m_thresholds Scenario.manager_after) /\
  (forall st w,
      cache_hit st w = true <->
      PrimFloat.eqb (m_lastSnrCached st) CACHE_INITIAL_VALUE = false /\
      PrimFloat.eqb (m_lastSnrObserved st) (m_lastSnrCached st) = true /\
      w = m_lastChannelWidth st).
Proof.
  apply (cache_idempotence Scenario.env 1 2 Scenario.heard 20 Scenario.manager
           Scenario.first_vector Scenario.settled Scenario.manager_after);
    vm_compute; reflexivity.
Defined.

(** ** The RTS vector *)

Lemma rts_scan_spec (t : Thresholds) (observed : float) (l : list WifiMode)
    (cur : float) (m : WifiMode) :
  let r := fold_left (rts_pick t observed) l (cur, m) in
  (forall x threshold,
      In x l -> rts_threshold t x = Some threshold ->
      PrimFloat.ltb threshold observed = true -> PrimFloat.ltb (fst r) threshold = false) /\
  ((r = (cur, m) /\
    forall x threshold,
      In x l -> rts_threshold t x = Some threshold ->
      PrimFloat.ltb cur threshold && PrimFloat.ltb threshold observed = false) \/
   (In (snd r) l /\ rts_threshold t (snd r) = Some (fst r) /\
    PrimFloat.ltb cur (fst r) = true /\ PrimFloat.ltb (fst r) observed = true)).
Proof.
  cbv zeta. induction l as [| x l IH] using rev_ind.
  - simpl. split; [intros x th [] | left; split; [reflexivity | intros x th []]].
  - rewrite fold_left_app. simpl fold_left.
    destruct (fold_left (rts_pick t observed) l (cur, m)) as [mid mode] eqn:Hfold.
    simpl fst in IH. simpl snd in IH. destruct IH as [Hmax Hcase].
    unfold rts_pick. simpl fst.
    destruct (rts_threshold t x) as [tx |] eqn:Hx.
    + destruct (PrimFloat.ltb mid tx) eqn:Hlt; simpl andb.
      * destruct (PrimFloat.ltb tx observed) eqn:Hobs; simpl fst; simpl snd.
        -- split.
           ++ intros y th Hy Hth Hclear. apply in_app_or in Hy.
              destruct Hy as [Hy | [<- | []]].
              ** destruct (PrimFloat.ltb tx th) eqn:Hcmp; [| reflexivity].
                 rewrite <- (Hmax y th Hy Hth Hclear). symmetry.
                 now apply double_lt_trans with tx.
              ** assert (th = tx) by congruence. subst. apply double_lt_irrefl.
           ++ right. split; [apply in_or_app; right; now left |].
              split; [exact Hx |]. split; [| exact Hobs].
              destruct Hcase as [[[= -> ->] _] | (_ & _ & Hcur & _)]; [exact Hlt |].
              now apply double_lt_trans with mid.
        -- split.
           ++ intros y th Hy Hth Hclear. apply in_app_or in Hy.
              destruct Hy as [Hy | [<- | []]]; [now apply (Hmax y) | congruence].
           ++ destruct Hcase as [[[= -> ->] Hnone] | (Hin & Hthr & Hcur & Hclear)].
              ** left. split; [reflexivity |].
                 intros y th Hy Hth. apply in_app_or in Hy.
                 destruct Hy as [Hy | [<- | []]]; [now apply (Hnone y) |].
                 assert (th = tx) by congruence. subst. rewrite Hobs. apply andb_false_r.
              ** right. repeat split; trivial. apply in_or_app. now left.
      * cbn [fst snd]. split.
        -- intros y th Hy Hth Hclear. apply in_app_or in Hy.
           destruct Hy as [Hy | [<- | []]]; [now apply (Hmax y) | congruence].
        -- destruct Hcase as [[[= -> ->] Hnone] | (Hin & Hthr & Hcur & Hclear)].
           ++ left. split; [reflexivity |].
              intros y th Hy Hth. apply in_app_or in Hy.
              destruct Hy as [Hy | [<- | []]]; [now apply (Hnone y) |].
              assert (th = tx) by congruence. subst. now rewrite Hlt.
           ++ right. repeat split; trivial. apply in_or_app. now left.
    + cbn [fst snd]. split.
      * intros y th Hy Hth Hclear. apply in_app_or in Hy.
        destruct Hy as [Hy | [<- | []]]; [now apply (Hmax y) | congruence].
      * destruct Hcase as [[[= -> ->] Hnone] | (Hin & Hthr & Hcur & Hclear)].
        -- left. split; [reflexivity |].
           intros y th Hy Hth. apply in_app_or in Hy.
           destruct Hy as [Hy | [<- | []]]; [now apply (Hnone y) | congruence].
        -- right. repeat split; trivial. apply in_or_app. now left.
Qed.

Lemma rts_loop_sim env station mgr (modes : list WifiMode) : forall s,
  GetGuardInterval (rtsVector s) = 800 ->
  all_nonht modes = true ->
  covered (m_thresholds mgr) (map rts_key modes) = true ->
  exists s',
    forM (rts_body env station) modes s mgr = Some (s', mgr) /\
    (maxThreshold s', rtsMode s')
    = fold_left (rts_pick (m_thresholds mgr) (m_lastSnrObserved station)) modes
                (maxThreshold s, rtsMode s).
Proof.
  induction modes as [| mode modes IH]; intros s Hg Hall Hcov.
  - exists s. now split.
  - simpl in Hall. apply andb_prop in Hall. destruct Hall as [Hmode Hall].
    simpl in Hcov. apply andb_prop in Hcov. destruct Hcov as [Hc1 Hc2].
    destruct (GetChannelWidthForNonHtMode mode) as [width |] eqn:Hwidth; [| discriminate].
    assert (Hkey : rts_key mode = mkTx mode 800 1 width).
    { unfold rts_key, nonht_width. now rewrite Hwidth. }
    destruct (find_threshold (m_thresholds mgr) (rts_key mode)) as [threshold |] eqn:Hfind;
      [| discriminate].
    assert (Hstep : exists s1,
               rts_body env station mode s mgr = Some (s1, mgr) /\
               (maxThreshold s1, rtsMode s1)
               = rts_pick (m_thresholds mgr) (m_lastSnrObserved station)
                          (maxThreshold s, rtsMode s) mode /\
               GetGuardInterval (rtsVector s1) = 800).
    { unfold rts_body. unfold bind at 1, lift at 1. rewrite Hwidth.
      unfold SetChannelWidth, SetNss, SetMode. simpl. rewrite Hg, <- Hkey.
      rewrite (bind_Some _ _ _ _ _ (GetSnrThreshold_hit env _ _ _ Hfind)).
      unfold rts_pick, rts_threshold. rewrite Hfind. simpl fst.
      destruct (_ && _); eexists; repeat split; simpl; now rewrite Hkey. }
    destruct Hstep as (s1 & Hrun1 & Hacc1 & Hg1).
    destruct (IH s1 Hg1 Hall Hc2) as (s' & Hrun' & Hacc').
    exists s'. split.
    + simpl forM. unfold bind. rewrite Hrun1. exact Hrun'.
    + simpl fold_left. rewrite <- Hacc1. exact Hacc'.
Qed.

Lemma rts_search_run env station mgr :
  m_autoMCS mgr = false ->
  rts_searchable env (m_thresholds mgr) = true ->
  DoGetRtsTxVector env station mgr
  = Some (rts_vector
            (snd (fold_left (rts_pick (m_thresholds mgr) (m_lastSnrObserved station))
                            (GetBasicModes env) (dzero, GetDefaultMode env))),
          mgr).
Proof.
  intros Hflag Hok. unfold rts_searchable in Hok. apply andb_prop in Hok.
  destruct Hok as [Hmodes Hcov].
  assert (Hbasic : all_nonht (GetBasicModes env) = true).
  { simpl in Hmodes. now apply andb_prop in Hmodes. }
  destruct (rts_loop_sim env station mgr (GetBasicModes env)
              (mkRts dzero (GetDefaultMode env) WifiTxVector_default) eq_refl Hbasic Hcov)
    as (s' & Hrun & Hacc).
  simpl maxThreshold in Hacc. simpl rtsMode in Hacc. rewrite <- Hacc. simpl snd.
  unfold DoGetRtsTxVector, bind, gets. cbv beta iota. rewrite Hflag.
  change (negb false) with true. cbv beta iota. rewrite Hrun.
  assert (Hw : exists width, GetChannelWidthForNonHtMode (rtsMode s') = Some width).
  { pose proof (rts_scan_spec (m_thresholds mgr) (m_lastSnrObserved station)
                  (GetBasicModes env) dzero (GetDefaultMode env)) as [_ Hcase].
    cbv zeta in Hcase. rewrite <- Hacc in Hcase. simpl in Hcase.
    assert (Hin : In (rtsMode s') (GetDefaultMode env :: GetBasicModes env)).
    { destruct Hcase as [[[= _ ->] _] | (Hin & _)]; [now left | now right]. }
    unfold all_nonht in Hmodes. rewrite forallb_forall in Hmodes.
    specialize (Hmodes _ Hin).
    destruct (GetChannelWidthForNonHtMode (rtsMode s')); [eauto | discriminate]. }
  destruct Hw as [width Hw]. unfold lift, ret, rts_vector, nonht_width.
  now rewrite Hw.
Qed.

Lemma rts_fixed_run env station mgr :
  m_autoMCS mgr = true ->
  DoGetRtsTxVector env station mgr = Some (rts_fixed_vector env station, mgr).
Proof.
  intros Hflag. unfold DoGetRtsTxVector, bind, gets. now rewrite Hflag.
Qed.

(** C8. With [autoMCS] off, on a table that has the entries of the basic
    modes, the RTS vector has one stream, the non-HT width of its mode, and
    for mode the basic mode whose threshold is the highest among the
    thresholds strictly below the last observed SNR: no basic mode that
    clears has a higher threshold. The data rate takes no part in the
    choice. When no basic mode has a positive threshold below the observed
    SNR, the mode is the default mode of the manager. With [autoMCS] on,
    the mode is [OfdmRate6Mbps] whatever has been observed. *)
Theorem rts_selection env station mgr :
  let t := m_thresholds mgr in
  let observed := m_lastSnrObserved station in
  (m_autoMCS mgr = false ->
   rts_searchable env t = true ->
   exists mode,
     DoGetRtsTxVector env station mgr = Some (mkTx mode 800 1 (nonht_width mode), mgr) /\
     ((In mode (GetBasicModes env) /\
       exists threshold,
         rts_threshold t mode = Some threshold /\
         PrimFloat.ltb dzero threshold = true /\
         PrimFloat.ltb threshold observed = true /\
         forall other threshold',
           In other (GetBasicModes env) ->
           rts_threshold t other = Some threshold' ->
           PrimFloat.ltb threshold' observed = true ->
           PrimFloat.ltb threshold threshold' = false) \/
      (mode = GetDefaultMode env /\
       forall other, In other (GetBasicModes env) -> rts_qualifies t observed other = false))) /\
  (m_autoMCS mgr = true ->
   forall station',
     m_state station' = m_state station ->
     DoGetRtsTxVector env station' mgr = Some (rts_fixed_vector env station, mgr) /\
     GetMode (rts_fixed_vector env station) = OfdmRate6Mbps).
Proof.
  cbv zeta. split.
  - intros Hflag Hok. rewrite (rts_search_run env station mgr Hflag Hok).
    pose proof (rts_scan_spec (m_thresholds mgr) (m_lastSnrObserved station)
                  (GetBasicModes env) dzero (GetDefaultMode env)) as [Hmax Hcase].
    cbv zeta in Hmax, Hcase.
    destruct (fold_left _ (GetBasicModes env) (dzero, GetDefaultMode env)) as [top mode].
    simpl fst in *. simpl snd in *. exists mode. split; [reflexivity |].
    destruct Hcase as [[[= -> ->] Hnone] | (Hin & Hthr & Hpos & Hclear)].
    + right. split; [reflexivity |]. intros other Hother. unfold rts_qualifies.
      destruct (rts_threshold (m_thresholds mgr) other) as [th |] eqn:Hth; [| reflexivity].
      now apply (Hnone other).
    + left. split; [exact Hin |]. exists top. repeat split; trivial.
  - intros Hflag station' Hstate. split; [| reflexivity].
    rewrite (rts_fixed_run env station' mgr Hflag). unfold rts_fixed_vector.
    now rewrite Hstate.
Qed.

Lemma rts_selection_witness :
  exists mode,
    DoGetRtsTxVector Scenario.env Scenario.heard Scenario.manager
    = Some (mkTx mode 800 1 (nonht_width mode), Scenario.manager) /\
    ((In mode (GetBasicModes Scenario.env) /\
      exists threshold,
        rts_threshold (m_thresholds Scenario.manager) mode = Some threshold /\
        PrimFloat.ltb dzero threshold = true /\
        PrimFloat.ltb threshold (m_lastSnrObserved Scenario.heard) = true /\
        forall other threshold',
          In other (GetBasicModes Scenario.env) ->
          rts_threshold (m_thresholds Scenario.manager) other = Some threshold' ->
          PrimFloat.ltb threshold' (m_lastSnrObserved Scenario.heard) = true ->
          PrimFloat.ltb threshold threshold' = false) \/
     (mode = GetDefaultMode Scenario.env /\
      forall other,
        In other (GetBasicModes Scenario.env) ->
        rts_qualifies (m_thresholds Scenario.manager) (m_lastSnrObserved Scenario.heard)
                      other = false)).
Proof.
  apply (proj1 (rts_selection Scenario.env Scenario.heard Scenario.manager));
    vm_compute; reflexivity.
Defined.

(** With an SNR of 12.5 observed, the RTS goes out at 24 Mb/s, the basic
    rate of threshold 11; on a station that has observed nothing it goes
    out at the default mode; with [autoMCS] set it goes out at 6 Mb/s. *)
Example rts_modes_of_the_scenario :
  option_map (fun r => GetMode (fst r))
             (DoGetRtsTxVector Scenario.env Scenario.heard Scenario.manager)
  = Some Scenario.OfdmRate24Mbps /\
  option_map (fun r => GetMode (fst r))
             (DoGetRtsTxVector Scenario.env Scenario.fresh Scenario.manager)
  = Some OfdmRate6Mbps /\
  option_map (fun r => GetMode (fst r))
             (DoGetRtsTxVector Scenario.env Scenario.heard Scenario.manager_fixed)
  = Some OfdmRate6Mbps.
Proof. repeat split; vm_compute; reflexivity. Qed.

(** Where the thresholds do not grow with the rate, the choice follows the
    threshold: with 12.5 observed, thresholds 2, 9 and 5 for 6, 12 and
    24 Mb/s, the RTS goes out at 12 Mb/s, while the data search of the same
    device returns the fastest rate that clears, 24 Mb/s. *)
Example rts_follows_threshold_not_rate :
  option_map (fun r => GetMode (fst r))
             (DoGetRtsTxVector Scenario.env_skewed Scenario.heard Scenario.manager_skewed)
  = Some Scenario.OfdmRate12Mbps /\
  option_map (fun r => GetMode (fst (fst r)))
             (DoGetDataTxVector Scenario.env_skewed 1 Scenario.heard 20
                                Scenario.manager_skewed)
  = Some Scenario.OfdmRate24Mbps.
Proof. split; vm_compute; reflexivity. Qed.

(** * Further properties *)

(** ** What a request leaves untouched *)

Section Keeps.

Variable R : AutoMcsWifiManager -> AutoMcsWifiManager -> Prop.
Hypothesis R_refl : forall mgr, R mgr mgr.
Hypothesis R_trans : forall a b c, R a b -> R b c -> R a c.

Lemma keeps_ret {A} (a : A) : keeps R (ret a).
Proof. intros mgr x mgr' [= _ <-]. apply R_refl. Qed.

Lemma keeps_lift {A} (o : option A) : keeps R (lift o).
Proof. intros mgr x mgr'. unfold lift. destruct o; [| discriminate]. intros [= _ <-]. apply R_refl. Qed.

Lemma keeps_gets {A} (f : AutoMcsWifiManager -> A) : keeps R (gets f).
Proof. intros mgr x mgr' [= _ <-]. apply R_refl. Qed.

Lemma keeps_bind {A B} (c : M A) (k : A -> M B) :
  keeps R c -> (forall a, keeps R (k a)) -> keeps R (bind c k).
Proof.
  intros Hc Hk mgr b mgr'. unfold bind.
  destruct (c mgr) as [[a mgr1] |] eqn:Hrun; [| discriminate].
  intros Hrun'. apply R_trans with mgr1; [now apply (Hc mgr a) | now apply (Hk a mgr1 b)].
Qed.

Lemma keeps_forM {X S} (body : X -> S -> M S) (l : list X) :
  (forall x s, keeps R (body x s)) -> forall s, keeps R (forM body l s).
Proof.
  intros Hbody. induction l as [| x l IH]; intros s; simpl.
  - apply keeps_ret.
  - apply keeps_bind; [apply Hbody | exact IH].
Qed.

Lemma keeps_if {A} (b : bool) (c1 c2 : M A) : keeps R c1 -> keeps R c2 -> keeps R (if b then c1 else c2).
Proof. now destruct b. Qed.

End Keeps.

Lemma evolves_refl env mgr : evolves env mgr mgr.
Proof. unfold evolves. repeat split; trivial. now left. Qed.

Lemma evolves_trans env a b c : evolves env a b -> evolves env b c -> evolves env a c.
Proof.
  unfold evolves. intros (H1 & H2 & H3 & H5) (K1 & K2 & K3 & K5).
  repeat split; try congruence.
  destruct H5 as [[Ht Hn] | [Ht Hn]], K5 as [[Kt Kn] | [Kt Kn]].
  - left. split; congruence.
  - right. split; [congruence | lia].
  - right. split; [congruence | lia].
  - right. split; [congruence | lia].
Qed.

Lemma GetSnrThreshold_evolves env v : keeps (evolves env) (GetSnrThreshold env v).
Proof.
  intros mgr threshold mgr'.
  destruct (find_threshold (m_thresholds mgr) v) as [t0 |] eqn:Hfind.
  - rewrite (GetSnrThreshold_hit env v mgr t0 Hfind). intros [= _ <-]. apply evolves_refl.
  - rewrite (GetSnrThreshold_miss env v mgr Hfind).
    destruct (built_table env (m_ber mgr)) as [t |] eqn:Hbuilt; [| discriminate].
    destruct (find_threshold t v); [| discriminate].
    intros [= _ <-]. unfold evolves. simpl. repeat split; trivial. right. split; [exact Hbuilt | lia].
Qed.

Lemma search_keeps R env station cw s :
  (forall mgr, R mgr mgr) -> (forall a b c, R a b -> R b c -> R a c) ->
  (forall v, keeps R (GetSnrThreshold env v)) ->
  keeps R (search env station cw s).
Proof.
  intros Hrefl Htrans Hget.
  assert (Htest : forall mode nss w s0, keeps R (test_mcs env station w mode nss s0)).
  { intros. unfold test_mcs. apply keeps_bind; trivial. intros th.
    apply keeps_if; now apply keeps_ret. }
  assert (Hnss : forall mode nss s0, keeps R (nss_body env station cw mode nss s0)).
  { intros. unfold nss_body. apply keeps_if; [now apply keeps_ret | apply Htest]. }
  unfold search. apply keeps_if.
  - apply keeps_forM; trivial. intros mode s0. unfold mcs_body.
    repeat (apply keeps_if; try (now apply keeps_ret); try apply Htest;
            try (apply keeps_forM; trivial; intros; apply Hnss)).
  - apply keeps_forM; trivial. intros mode s0. unfold nonht_body.
    apply keeps_bind; trivial; [now apply keeps_lift |]. intros w.
    apply keeps_bind; trivial. intros th. apply keeps_if; now apply keeps_ret.
Qed.

Lemma choose_keeps R env now station cw :
  (forall mgr, R mgr mgr) -> (forall a b c, R a b -> R b c -> R a c) ->
  (forall v, keeps R (GetSnrThreshold env v)) ->
  keeps R (choose env now station cw).
Proof.
  intros Hrefl Htrans Hget. unfold choose. cbv zeta.
  apply keeps_if; [apply keeps_if |].
  - now apply keeps_ret.
  - apply keeps_bind; trivial; [now apply search_keeps |]. intros s. now apply keeps_ret.
  - apply keeps_bind; trivial; [now apply keeps_gets |]. intros h.
    apply keeps_bind; trivial; [now apply keeps_lift |]. intros k. now apply keeps_ret.
Qed.

Lemma DoGetDataTxVector_inv env now station allowedWidth mgr r mgr' :
  DoGetDataTxVector env now station allowedWidth mgr = Some (r, mgr') ->
  exists c mgr1 rate,
    choose env now station (Z.min (StaChannelWidth (m_state station)) allowedWidth) mgr
    = Some (c, mgr1) /\ mgr' = set_currentRate rate mgr1.
Proof.
  unfold DoGetDataTxVector. cbv zeta. unfold bind at 1.
  destruct (choose env now station _ mgr) as [[[[mode nss] st] mgr1] |]; [| discriminate].
  unfold bind, ret. intros [= _ <-]. do 3 eexists. split; reflexivity.
Qed.

Lemma DoGetRtsTxVector_keeps R env station :
  (forall mgr, R mgr mgr) -> (forall a b c, R a b -> R b c -> R a c) ->
  (forall v, keeps R (GetSnrThreshold env v)) ->
  keeps R (DoGetRtsTxVector env station).
Proof.
  intros Hrefl Htrans Hget. unfold DoGetRtsTxVector.
  apply keeps_bind; trivial; [now apply keeps_gets |]. intros flag.
  apply keeps_if; [| now apply keeps_ret].
  apply keeps_bind; trivial.
  - apply keeps_forM; trivial. intros mode s. unfold rts_body.
    apply keeps_bind; trivial; [now apply keeps_lift |]. intros w.
    apply keeps_bind; trivial. intros th. apply keeps_if; now apply keeps_ret.
  - intros s. apply keeps_bind; trivial; [now apply keeps_lift |]. intros w.
    now apply keeps_ret.
Qed.

Lemma evolves_set_currentRate env mgr mgr1 rate :
  evolves env mgr mgr1 -> evolves env mgr (set_currentRate rate mgr1).
Proof. unfold evolves. simpl. tauto. Qed.

(** X1. A request for a data or an RTS vector that returns, in either phase
    and from any table, leaves the history, the BER and the [autoMCS] flag
    as they were; the table after it is the table before it, with no build
    counted, or the table built from the PHY, with a build counted. *)
Theorem requests_keep_history env now station allowedWidth mgr :
  (forall r mgr',
      DoGetDataTxVector env now station allowedWidth mgr = Some (r, mgr') ->
      evolves env mgr mgr') /\
  (forall v mgr', DoGetRtsTxVector env station mgr = Some (v, mgr') -> evolves env mgr mgr').
Proof.
  split.
  - intros r mgr' Hrun.
    destruct (DoGetDataTxVector_inv env now station allowedWidth mgr r mgr' Hrun)
      as (c & mgr1 & rate & Hchoose & ->).
    apply evolves_set_currentRate.
    apply (choose_keeps (evolves env) env now station _ (evolves_refl env) (evolves_trans env)
             (GetSnrThreshold_evolves env) mgr c mgr1 Hchoose).
  - intros v mgr' Hrun.
    apply (DoGetRtsTxVector_keeps (evolves env) env station (evolves_refl env)
             (evolves_trans env) (GetSnrThreshold_evolves env) mgr v mgr' Hrun).
Qed.

Lemma stays_refl env mgr : stays env mgr mgr.
Proof. now intros _. Qed.

Lemma stays_trans env a b c : stays env a b -> stays env b c -> stays env a c.
Proof. unfold stays. intros Hab Hbc Ha. rewrite <- (Hab Ha) in Ha |- *. now apply Hbc. Qed.

Lemma GetSnrThreshold_stays env v : keeps (stays env) (GetSnrThreshold env v).
Proof.
  intros mgr threshold mgr' Hrun Hfresh. unfold up_to_date in Hfresh.
  destruct (find_threshold (m_thresholds mgr) v) as [t0 |] eqn:Hfind.
  - rewrite (GetSnrThreshold_hit env v mgr t0 Hfind) in Hrun. congruence.
  - rewrite (GetSnrThreshold_miss env v mgr Hfind), Hfresh, Hfind in Hrun. discriminate.
Qed.

(** X2. When the table is the one that a build from the PHY gives, a
    request that returns has made no lookup miss: it rebuilds nothing and
    changes nothing in the manager but [m_currentRate] (a data request) or
    nothing at all (an RTS request), and the table is still up to date. A
    miss on an up-to-date table is therefore always fatal. *)
Theorem up_to_date_table_is_stable env now station allowedWidth mgr :
  up_to_date env mgr ->
  (forall r mgr',
      DoGetDataTxVector env now station allowedWidth mgr = Some (r, mgr') ->
      (exists rate, mgr' = set_currentRate rate mgr) /\ up_to_date env mgr') /\
  (forall v mgr', DoGetRtsTxVector env station mgr = Some (v, mgr') -> mgr' = mgr) /\
  (forall v, find_threshold (m_thresholds mgr) v = None -> GetSnrThreshold env v mgr = None).
Proof.
  intros Hfresh. split; [| split].
  - intros r mgr' Hrun.
    destruct (DoGetDataTxVector_inv env now station allowedWidth mgr r mgr' Hrun)
      as (c & mgr1 & rate & Hchoose & ->).
    pose proof (choose_keeps (stays env) env now station _ (stays_refl env) (stays_trans env)
                  (GetSnrThreshold_stays env) mgr c mgr1 Hchoose Hfresh) as ->.
    split; [now exists rate | exact Hfresh].
  - intros v mgr' Hrun.
    apply (DoGetRtsTxVector_keeps (stays env) env station (stays_refl env)
             (stays_trans env) (GetSnrThreshold_stays env) mgr v mgr' Hrun Hfresh).
  - intros v Hmiss. rewrite (GetSnrThreshold_miss env v mgr Hmiss).
    unfold up_to_date in Hfresh. now rewrite Hfresh, Hmiss.
Qed.

(** ** Failures, reports and the cache *)

Lemma reset_misses env st cw : cache_hit (Reset env st) cw = false.
Proof. reflexivity. Qed.

(** X3. Once a frame has failed for good ([DoReportFinalDataFailed] or
    [DoReportFinalRtsFailed]), the station is no cache hit for any width:
    the next warm-up request runs the search. In the converged phase the
    failure changes nothing: a request returns the same vector and leaves
    the same manager as it would have without the failure. *)
Theorem final_failure_resets_the_cache env st :
  (forall cw,
      cache_hit (DoReportFinalDataFailed env st) cw = false /\
      cache_hit (DoReportFinalRtsFailed env st) cw = false) /\
  (forall now allowedWidth mgr,
      PrimFloat.ltb now 10 = true ->
      searchable env (DoReportFinalDataFailed env st)
                 (Z.min (StaChannelWidth (m_state st)) allowedWidth) (m_thresholds mgr) = true ->
      exists v st' mgr',
        DoGetDataTxVector env now (DoReportFinalDataFailed env st) allowedWidth mgr
        = Some (v, st', mgr') /\
        selects env (DoReportFinalDataFailed env st) (m_thresholds mgr)
                (Z.min (StaChannelWidth (m_state st)) allowedWidth) (GetMode v) (GetNss v)) /\
  (forall now allowedWidth mgr,
      PrimFloat.ltb now 10 = false ->
      option_map (fun r => (fst (fst r), snd r))
                 (DoGetDataTxVector env now (DoReportFinalDataFailed env st) allowedWidth mgr)
      = option_map (fun r => (fst (fst r), snd r))
                   (DoGetDataTxVector env now st allowedWidth mgr)).
Proof.
  split; [| split].
  - intros cw. split; reflexivity.
  - intros now allowedWidth mgr Hnow Hok.
    destruct (warmup_search_run env now (DoReportFinalDataFailed env st) allowedWidth mgr
                Hnow (reset_misses env st _) Hok) as (best & mode & nss & Hscan & Hrun).
    do 3 eexists. split; [exact Hrun |].
    pose proof (scan_selects env (DoReportFinalDataFailed env st) (m_thresholds mgr)
                  (Z.min (StaChannelWidth (m_state st)) allowedWidth)) as Hsel.
    simpl in Hscan. rewrite Hscan in Hsel. exact Hsel.
  - intros now allowedWidth mgr Hnow.
    rewrite !(converged_run _ _ _ _ _ Hnow).
    destruct (ceil_average (choosenMCS mgr)); reflexivity.
Qed.

Lemma observe_hit (st : AutoMcsWifiRemoteStation) snr w nss cw :
  PrimFloat.eqb (m_lastSnrCached st) CACHE_INITIAL_VALUE = false ->
  cw = m_lastChannelWidth st ->
  cache_hit (observe snr w nss st) cw = PrimFloat.eqb snr (m_lastSnrCached st).
Proof.
  intros Hsent ->. unfold cache_hit, observe. simpl. rewrite Hsent, Z.eqb_refl. simpl.
  apply andb_true_r.
Qed.

(** X4. After a report that records an observation, whether the next
    request is a cache hit depends on the reported SNR alone: for a station
    with a cached decision and a request at the cached width, the request
    is a hit exactly when the reported SNR is equal to the cached SNR, and
    the observed width and stream count play no part. So a warm-up request
    that follows a report of the cached SNR returns the cached mode and
    stream count again, even when the report came on another width. *)
Theorem reports_invalidate_by_snr_only env st dataSnr w nss nOk nFailed rxSnr mgr :
  PrimFloat.eqb dataSnr dzero = false ->
  PrimFloat.eqb (m_lastSnrCached st) CACHE_INITIAL_VALUE = false ->
  (exists st' mgr',
      DoReportDataOk env st dataSnr w nss mgr = Some (st', mgr') /\
      cache_hit st' (m_lastChannelWidth st) = PrimFloat.eqb dataSnr (m_lastSnrCached st)) /\
  (exists st' mgr',
      DoReportAmpduTxStatus st nOk nFailed rxSnr dataSnr w nss mgr = Some (st', mgr') /\
      cache_hit st' (m_lastChannelWidth st) = PrimFloat.eqb dataSnr (m_lastSnrCached st)) /\
  cache_hit (DoReportRtsOk env st dataSnr) (m_lastChannelWidth st)
  = PrimFloat.eqb dataSnr (m_lastSnrCached st) /\
  (forall now allowedWidth st' mgr',
      PrimFloat.ltb now 10 = true ->
      Z.min (StaChannelWidth (m_state st)) allowedWidth = m_lastChannelWidth st ->
      PrimFloat.eqb dataSnr (m_lastSnrCached st) = true ->
      DoReportDataOk env st dataSnr w nss mgr = Some (st', mgr') ->
      exists v st'' mgr'',
        DoGetDataTxVector env now st' allowedWidth mgr' = Some (v, st'', mgr'') /\
        GetMode v = m_lastMode st /\ GetNss v = m_lastNss st).
Proof.
  intros Hsnr Hsent.
  assert (Hdata : DoReportDataOk env st dataSnr w nss mgr
                  = Some (observe dataSnr w nss st,
                          set_choosenMCS (choosenMCS mgr ++ data_ok_appends env st dataSnr) mgr)).
  { unfold DoReportDataOk, data_ok_appends. rewrite Hsnr. simpl.
    destruct (mode_eqb (m_lastMode st) (GetDefaultMode env)); simpl;
      unfold bind, ret, emplace_back; simpl; [| reflexivity].
    rewrite app_nil_r. now destruct mgr. }
  split; [| split; [| split]].
  - do 2 eexists. split; [exact Hdata |]. now apply observe_hit.
  - unfold DoReportAmpduTxStatus. rewrite Hsnr. unfold bind. rewrite emplace_repeat.
    do 2 eexists. split; [reflexivity |]. now apply observe_hit.
  - unfold DoReportRtsOk. now apply observe_hit.
  - intros now allowedWidth st' mgr' Hnow Hcw Heq Hrun.
    rewrite Hdata in Hrun. injection Hrun as <- <-.
    assert (Hhit : cache_hit (observe dataSnr w nss st)
                             (Z.min (StaChannelWidth (m_state (observe dataSnr w nss st)))
                                    allowedWidth) = true).
    { simpl m_state. rewrite Hcw, <- Heq. now apply observe_hit. }
    rewrite (warmup_cached_run env now (observe dataSnr w nss st) allowedWidth _ Hnow Hhit).
    do 3 eexists. split; [reflexivity | split; reflexivity].
Qed.

(** X5. In the converged phase, on a history of HE indices, the MCS index
    of the mode returned lies between the lowest and the highest index of
    the history: the manager never converges on a mode faster than the
    fastest, or slower than the slowest, that was reported. *)
Theorem converged_index_within_history env now station allowedWidth mgr lo hi :
  PrimFloat.ltb now 10 = false ->
  choosenMCS mgr <> [] ->
  Forall (fun mcs => 0 <= mcs <= 11) (choosenMCS mgr) ->
  Forall (fun mcs => lo <= mcs <= hi) (choosenMCS mgr) ->
  exists v station' mgr',
    DoGetDataTxVector env now station allowedWidth mgr = Some (v, station', mgr') /\
    GetModulationClass (GetMode v) = WIFI_MOD_CLASS_HE /\
    lo <= GetMcsValue (GetMode v) <= hi.
Proof.
  intros Hnow Hne Hhe Hrange.
  rewrite (converged_run env now station allowedWidth mgr Hnow).
  destruct (ceil_average_defined _ Hne) as [k Hk]. rewrite Hk. cbv zeta.
  rewrite (HeMcs_registered k (ceil_average_range _ _ _ _ Hhe Hk)).
  do 3 eexists. split; [reflexivity |]. split; [reflexivity |].
  exact (ceil_average_range _ _ _ _ Hrange Hk).
Qed.

(** ** The table after initialisation *)

Section Built.

Variable env : Env.
Variable ber : float.

Lemma grows_refl s : grows env ber s s.
Proof. exists []. split; [now rewrite app_nil_r | constructor]. Qed.

Lemma grows_trans a b c : grows env ber a b -> grows env ber b c -> grows env ber a c.
Proof.
  intros (e1 & H1 & K1) (e2 & H2 & K2). exists (e1 ++ e2). split.
  - now rewrite H2, H1, app_assoc.
  - apply Forall_app. now split.
Qed.

Lemma grows_add v s : grows env ber s (v, AddSnrThreshold v (CalculateSnr env v ber) (snd s)).
Proof. exists [entry_of env ber v]. split; [reflexivity | now repeat constructor]. Qed.

Lemma grows_fold {X} (f : WifiTxVector * Thresholds -> X -> WifiTxVector * Thresholds) l :
  (forall s x, grows env ber s (f s x)) -> forall s, grows env ber s (fold_left f l s).
Proof.
  intros Hf. induction l as [| x l IH]; intros s; simpl; [apply grows_refl |].
  apply grows_trans with (f s x); [apply Hf | apply IH].
Qed.

Lemma build_mcs_nss_grows mode j s k : grows env ber s (build_mcs_nss env ber mode j s k).
Proof. unfold build_mcs_nss. destruct (IsAllowed env mode j k); [apply grows_add | apply grows_refl]. Qed.

Lemma build_mcs_width_grows mode s j : grows env ber s (build_mcs_width env ber mode s j).
Proof.
  unfold build_mcs_width. cbv zeta.
  destruct (class_eqb (GetModulationClass mode) WIFI_MOD_CLASS_HT).
  - apply (grows_add _ s).
  - match goal with |- grows env ber _ (fold_left _ _ (?v, _)) =>
      apply grows_trans with (v, snd s); [exists []; split; [simpl; now rewrite app_nil_r | constructor] |]
    end.
    apply grows_fold. intros. apply build_mcs_nss_grows.
Qed.

Lemma build_mcs_grows s mode : grows env ber s (build_mcs env ber s mode).
Proof. unfold build_mcs. apply grows_fold. intros. apply build_mcs_width_grows. Qed.

(** The loop over the PHY's non-HT modes stores their vectors, in order. *)
Lemma build_modes_run modes : forall v t s',
  GetGuardInterval v = 800 ->
  fold_opt (build_mode env ber) modes (v, t) = Some s' ->
  snd s' = t ++ map (fun mode => entry_of env ber (nonht_vector mode)) modes /\
  all_nonht modes = true.
Proof.
  induction modes as [| mode modes IH]; intros v t s' Hgi; simpl.
  - intros [= <-]. simpl. now rewrite app_nil_r.
  - unfold build_mode at 1. unfold nonht_vector at 1, nonht_width at 1.
    destruct (GetChannelWidthForNonHtMode mode) as [w |]; [| discriminate].
    simpl fst. simpl snd. intros Hrun. apply IH in Hrun; [| simpl; exact Hgi].
    destruct Hrun as [-> ->]. split; [| reflexivity].
    unfold AddSnrThreshold. rewrite <- app_assoc. simpl.
    unfold SetMode, SetNss, SetChannelWidth. simpl. now rewrite Hgi.
Qed.

Lemma built_table_shape t :
  built_table env ber = Some t ->
  all_nonht (GetModeList env) = true /\
  exists ext,
    t = map (fun mode => entry_of env ber (nonht_vector mode)) (GetModeList env) ++ ext /\
    entries_ok env ber ext /\
    (GetHtSupported env = true ->
     exists s0, snd s0 = map (fun mode => entry_of env ber (nonht_vector mode)) (GetModeList env) /\
                t = snd (fold_left (build_mcs env ber) (GetMcsList env) s0)).
Proof.
  unfold built_table.
  destruct (fold_opt (build_mode env ber) (GetModeList env) (WifiTxVector_default, []))
    as [s0 |] eqn:Hmodes; [| discriminate].
  apply build_modes_run in Hmodes; [| reflexivity]. destruct Hmodes as [Hs0 Hall].
  simpl in Hs0. intros Ht. split; [exact Hall |].
  destruct (GetHtSupported env).
  - injection Ht as <-.
    destruct (grows_fold (build_mcs env ber) (GetMcsList env) build_mcs_grows s0)
      as (ext & Hext & Hok).
    exists ext. rewrite Hext, Hs0. split; [reflexivity |]. split; [exact Hok |].
    intros _. exists s0. split; [exact Hs0 | ]. now rewrite <- Hs0, <- Hext.
  - injection Ht as <-. exists []. rewrite app_nil_r. split; [exact Hs0 |].
    split; [constructor | discriminate].
Qed.

Lemma find_app_first {A} (p : A -> bool) (l1 l2 : list A) x :
  In x l1 -> p x = true -> exists y, find p (l1 ++ l2) = Some y /\ In y l1 /\ p y = true.
Proof.
  induction l1 as [| a l1 IH]; intros Hin Hp; [destruct Hin |]. simpl.
  destruct (p a) eqn:Ha.
  - exists a. repeat split; trivial. now left.
  - destruct Hin as [-> | Hin]; [congruence |].
    destruct (IH Hin Hp) as (y & Hy & Hiny & Hpy). exists y. repeat split; trivial. now right.
Qed.

Lemma mode_eqb_eq m n : mode_eqb m n = true -> m = n.
Proof. unfold mode_eqb. now destruct (WifiMode_eq_dec m n). Qed.

Lemma mode_eqb_refl m : mode_eqb m m = true.
Proof. unfold mode_eqb. now destruct (WifiMode_eq_dec m m). Qed.

Lemma nonht_lookup t mode gi :
  built_table env ber = Some t ->
  In mode (GetModeList env) ->
  find_threshold t (mkTx mode gi 1 (nonht_width mode))
  = Some (CalculateSnr env (nonht_vector mode) ber).
Proof.
  intros Hbuilt Hin. destruct (built_table_shape t Hbuilt) as (_ & ext & -> & _).
  unfold find_threshold.
  destruct (find_app_first (same_key (mkTx mode gi 1 (nonht_width mode)))
              (map (fun m => entry_of env ber (nonht_vector m)) (GetModeList env)) ext
              (entry_of env ber (nonht_vector mode)))
    as (y & -> & Hy & Hkey).
  - apply in_map_iff. now exists mode.
  - unfold same_key. simpl. now rewrite mode_eqb_refl, Z.eqb_refl.
  - apply in_map_iff in Hy. destruct Hy as (m' & <- & _).
    unfold same_key in Hkey. simpl in Hkey.
    apply andb_prop in Hkey. destruct Hkey as [Hkey _].
    apply andb_prop in Hkey. destruct Hkey as [Hkey _].
    apply mode_eqb_eq in Hkey. now subst.
Qed.

Lemma has_key_grows s s' mode k j :
  grows env ber s s' -> has_key (snd s) mode k j -> has_key (snd s') mode k j.
Proof.
  intros (ext & -> & _) (p & Hin & Hp). exists p. split; [| exact Hp].
  apply in_or_app. now left.
Qed.

Lemma has_key_add v t :
  has_key (AddSnrThreshold v (CalculateSnr env v ber) t) (GetMode v) (GetNss v)
          (GetChannelWidth v).
Proof.
  exists (entry_of env ber v). split; [| now repeat split].
  apply in_or_app. right. now left.
Qed.

(** A loop that only extends the table leaves, for every element that it
    visits, what that element's step establishes. *)
Lemma fold_keys {X} (f : WifiTxVector * Thresholds -> X -> WifiTxVector * Thresholds)
    (Inv : WifiTxVector * Thresholds -> Prop)
    (Q : X -> WifiTxVector * Thresholds -> Prop) (l : list X) :
  (forall s x, Inv s -> Inv (f s x)) ->
  (forall s x, grows env ber s (f s x)) ->
  (forall s x, Inv s -> Q x (f s x)) ->
  (forall x s s', grows env ber s s' -> Q x s -> Q x s') ->
  forall s, Inv s -> Inv (fold_left f l s) /\ forall x, In x l -> Q x (fold_left f l s).
Proof.
  intros Hinv Hgrows Hstep Hmono. induction l as [| a l IH]; intros s Hs; simpl.
  - split; [exact Hs | intros x []].
  - destruct (IH (f s a) (Hinv s a Hs)) as [Hfinal Hall]. split; [exact Hfinal |].
    intros x [<- | Hx]; [| now apply Hall].
    apply Hmono with (f s a); [now apply grows_fold | now apply Hstep].
Qed.

Lemma mcs_keys_grows mode j s s' : grows env ber s s' -> mcs_keys env mode j s -> mcs_keys env mode j s'.
Proof.
  unfold mcs_keys. intros Hg.
  destruct (class_eqb (GetModulationClass mode) WIFI_MOD_CLASS_HT).
  - now apply has_key_grows.
  - intros H k Hk Ha. apply (has_key_grows s s'); auto.
Qed.

Lemma build_mcs_width_keys mode s j : mcs_keys env mode j (build_mcs_width env ber mode s j).
Proof.
  unfold mcs_keys, build_mcs_width. cbv zeta.
  destruct (class_eqb (GetModulationClass mode) WIFI_MOD_CLASS_HT).
  - simpl snd.
    match goal with |- has_key (AddSnrThreshold ?v _ _) _ _ _ =>
      pose proof (has_key_add v (snd s)) as H end.
    exact H.
  - intros k Hk Hallowed.
    match goal with |- has_key (snd (fold_left ?f ?l ?s0)) _ _ _ =>
      destruct (fold_keys f (fun st => GetChannelWidth (fst st) = j)
                  (fun k st => IsAllowed env mode j k = true -> has_key (snd st) mode k j)
                  l) with (s := s0) as [_ Hall]
    end.
    + intros st x Hst. unfold build_mcs_nss. now destruct (IsAllowed env mode j x).
    + intros st x. apply build_mcs_nss_grows.
    + intros st x Hst Hx. unfold build_mcs_nss. rewrite Hx. simpl snd.
      match goal with |- has_key (AddSnrThreshold ?v _ _) _ _ _ =>
        pose proof (has_key_add v (snd st)) as H end.
      simpl in H. rewrite Hst in H. exact H.
    + intros x st st' Hg Hq Hx. apply (has_key_grows st st'); auto.
    + reflexivity.
    + now apply Hall.
Qed.

Lemma build_mcs_keys mode s j :
  In j (phy_widths (PhyGetChannelWidth env)) -> mcs_keys env mode j (build_mcs env ber s mode).
Proof.
  intros Hj. unfold build_mcs.
  destruct (fold_keys (build_mcs_width env ber mode) (fun _ => True) (mcs_keys env mode)
              (phy_widths (PhyGetChannelWidth env))) with (s := s) as [_ Hall]; auto.
  - intros. apply build_mcs_width_grows.
  - intros. apply build_mcs_width_keys.
  - intros x st st'. apply mcs_keys_grows.
Qed.

Lemma built_table_mcs_keys t mode j :
  built_table env ber = Some t ->
  GetHtSupported env = true ->
  In mode (GetMcsList env) ->
  In j (phy_widths (PhyGetChannelWidth env)) ->
  mcs_keys env mode j (WifiTxVector_default, t).
Proof.
  intros Hbuilt Hht Hmode Hj.
  destruct (built_table_shape t Hbuilt) as (_ & ext & _ & _ & Hfold).
  destruct (Hfold Hht) as (s0 & _ & ->).
  destruct (fold_keys (build_mcs env ber) (fun _ => True)
              (fun m st => mcs_keys env m j st) (GetMcsList env)) with (s := s0) as [_ Hall]; auto.
  - intros. apply build_mcs_grows.
  - intros. now apply build_mcs_keys.
  - intros x st st'. apply mcs_keys_grows.
  - specialize (Hall mode Hmode). unfold mcs_keys in *. exact Hall.
Qed.

Lemma built_table_entries_ok t : built_table env ber = Some t -> entries_ok env ber t.
Proof.
  intros Hbuilt. destruct (built_table_shape t Hbuilt) as (_ & ext & -> & Hext & _).
  apply Forall_app. split; [| exact Hext].
  apply Forall_forall. intros p Hp. apply in_map_iff in Hp. now destruct Hp as (m & <- & _).
Qed.

End Built.

Lemma has_key_found t v :
  has_key t (GetMode v) (GetNss v) (GetChannelWidth v) -> find_threshold t v <> None.
Proof.
  intros (p & Hin & Hm & Hn & Hw). unfold find_threshold.
  destruct (find (same_key v) t) eqn:Hfind; [discriminate |].
  pose proof (find_none _ _ Hfind p Hin) as Hp. unfold same_key in Hp.
  rewrite Hm, Hn, Hw, mode_eqb_refl, !Z.eqb_refl in Hp. discriminate.
Qed.

Lemma upto_In (n k : Z) : In k (upto n) <-> 1 <= k <= n.
Proof.
  unfold upto. rewrite in_map_iff. split.
  - intros (x & <- & Hx). apply in_seq in Hx. lia.
  - intros Hk. exists (Z.to_nat k). split; [lia |]. apply in_seq. lia.
Qed.

Lemma covered_forall t l :
  (forall v, In v l -> find_threshold t v <> None) -> covered t l = true.
Proof.
  intros H. unfold covered. apply forallb_forall. intros v Hv. specialize (H v Hv).
  now destruct (find_threshold t v).
Qed.

Lemma built_table_covers_mcs env ber t station cw mode v :
  built_table env ber = Some t ->
  GetHtSupported env = true ->
  within_phy env station ->
  In cw (phy_widths (PhyGetChannelWidth env)) ->
  In mode (StaMcsSupported (m_state station)) ->
  In v (mcs_combos env station cw mode) ->
  find_threshold t v <> None.
Proof.
  intros Hbuilt Hht (Hmcs & _ & Hstreams & Hvalid) Hcw Hmode Hv.
  pose proof (built_table_mcs_keys env ber t mode cw Hbuilt Hht (Hmcs mode Hmode) Hcw) as Hkeys.
  unfold mcs_keys in Hkeys. unfold mcs_combos in Hv. cbv zeta in Hv.
  apply has_key_found.
  destruct (class_eqb (GetModulationClass mode) WIFI_MOD_CLASS_HT) eqn:Hclass.
  - destruct (_ || _) in Hv; [destruct Hv |].
    destruct (_ && _) in Hv; [| destruct Hv].
    destruct Hv as [<- | []]. exact Hkeys.
  - assert (Hnss : forall gi,
               In v (filter (IsValid env)
                            (map (fun nss => mkTx mode gi nss cw) (upto (max_streams env station)))) ->
               has_key t (GetMode v) (GetNss v) (GetChannelWidth v)).
    { intros gi Hin. apply filter_In in Hin. destruct Hin as [Hin Hok].
      apply in_map_iff in Hin. destruct Hin as (nss & <- & Hnss). simpl.
      apply Hkeys.
      - apply upto_In. apply upto_In in Hnss. lia.
      - apply (Hvalid (mkTx mode gi nss cw) Hok). exact Hclass. }
    destruct (class_eqb (GetModulationClass mode) WIFI_MOD_CLASS_VHT).
    + destruct (_ || _) in Hv; [destruct Hv | now apply (Hnss _ Hv)].
    + destruct (negb _) in Hv; [destruct Hv | now apply (Hnss _ Hv)].
Qed.

Lemma all_nonht_incl l1 l2 : incl l1 l2 -> all_nonht l2 = true -> all_nonht l1 = true.
Proof.
  unfold all_nonht. rewrite !forallb_forall. intros Hincl H x Hx. apply H. now apply Hincl.
Qed.

Lemma built_table_searchable env ber t station cw :
  built_table env ber = Some t ->
  within_phy env station ->
  (GetHtSupported env && StaHtSupported (m_state station) = true ->
   In cw (phy_widths (PhyGetChannelWidth env))) ->
  searchable env station cw t = true.
Proof.
  intros Hbuilt Hin Hcw. unfold searchable, visited.
  destruct (built_table_shape env ber t Hbuilt) as (Hall & _).
  destruct (GetHtSupported env && StaHtSupported (m_state station)) eqn:Hht; simpl.
  - apply andb_prop in Hht. destruct Hht as [Hht _].
    apply covered_forall. intros v Hv. apply in_flat_map in Hv.
    destruct Hv as (mode & Hmode & Hv).
    apply (built_table_covers_mcs env ber t station cw mode v); auto.
  - destruct Hin as (_ & Hmodes & _). rewrite (all_nonht_incl _ _ Hmodes Hall). simpl.
    apply covered_forall. intros v Hv. apply in_map_iff in Hv. destruct Hv as (mode & <- & Hmode).
    rewrite (nonht_lookup env ber t mode 800 Hbuilt (Hmodes mode Hmode)). discriminate.
Qed.

Lemma DoInitialize_run env mgr0 mgr :
  DoInitialize env mgr0 = Some (tt, mgr) ->
  built_table env (m_ber mgr) = Some (m_thresholds mgr) /\
  m_ber mgr = m_ber mgr0 /\ n_rebuilds mgr = S (n_rebuilds mgr0) /\
  choosenMCS mgr = choosenMCS mgr0 /\ m_autoMCS mgr = m_autoMCS mgr0.
Proof.
  unfold DoInitialize. rewrite BuildSnrThresholds_run.
  destruct (built_table env (m_ber mgr0)) as [t |] eqn:Hbuilt; [| discriminate].
  intros [= <-]. simpl. now rewrite Hbuilt.
Qed.

(** X6.  Initialisation leaves a table whose every entry holds the SNR that
    the PHY computes for the entry's vector at the manager's error rate, and
    a lookup of a non-HT mode of the PHY (one stream, the width of the
    mode, any guard interval) returns that SNR without a rebuild. *)
Theorem initialised_table_holds_phy_thresholds env mgr0 mgr :
  DoInitialize env mgr0 = Some (tt, mgr) ->
  entries_ok env (m_ber mgr0) (m_thresholds mgr) /\
  n_rebuilds mgr = S (n_rebuilds mgr0) /\
  forall mode gi,
    In mode (GetModeList env) ->
    GetSnrThreshold env (mkTx mode gi 1 (nonht_width mode)) mgr
    = Some (CalculateSnr env (nonht_vector mode) (m_ber mgr0), mgr).
Proof.
  intros Hinit. destruct (DoInitialize_run env mgr0 mgr Hinit) as (Hbuilt & Hber & Hn & _).
  rewrite Hber in Hbuilt. split; [| split].
  - now apply built_table_entries_ok.
  - exact Hn.
  - intros mode gi Hmode. apply GetSnrThreshold_hit.
    now apply (nonht_lookup env (m_ber mgr0)).
Qed.

(** X7.  After initialisation, a data request of the warm-up period for a
    station whose capabilities lie within those of the PHY returns: the
    table has an entry for every combination that the search visits, so no
    lookup misses, the table is not rebuilt, and the manager changes in
    its current rate only. *)
Theorem initialised_manager_serves_data env mgr0 mgr now station allowedWidth :
  let cw := Z.min (StaChannelWidth (m_state station)) allowedWidth in
  DoInitialize env mgr0 = Some (tt, mgr) ->
  within_phy env station ->
  (GetHtSupported env && StaHtSupported (m_state station) = true ->
   In cw (phy_widths (PhyGetChannelWidth env))) ->
  PrimFloat.ltb now 10 = true ->
  searchable env station cw (m_thresholds mgr) = true /\
  exists v station',
    DoGetDataTxVector env now station allowedWidth mgr
    = Some (v, station', set_currentRate (rate_of env v) mgr).
Proof.
  intros cw Hinit Hin Hcw Hnow.
  destruct (DoInitialize_run env mgr0 mgr Hinit) as (Hbuilt & _).
  pose proof (built_table_searchable env (m_ber mgr) (m_thresholds mgr) station cw
                Hbuilt Hin Hcw) as Hsearch.
  split; [exact Hsearch |].
  destruct (cache_hit station cw) eqn:Hhit.
  - eexists _, _. exact (warmup_cached_run env now station allowedWidth mgr Hnow Hhit).
  - destruct (warmup_search_run env now station allowedWidth mgr Hnow Hhit Hsearch)
      as (best & mode & nss & _ & Hrun).
    eexists _, _. exact Hrun.
Qed.

(** X8.  After initialisation, an RTS request returns and leaves the manager
    as it is, when the basic modes and the default mode are modes of the
    PHY: every basic mode has its entry in the table. *)
Theorem initialised_manager_serves_rts env mgr0 mgr station :
  DoInitialize env mgr0 = Some (tt, mgr) ->
  incl (GetBasicModes env) (GetModeList env) ->
  In (GetDefaultMode env) (GetModeList env) ->
  rts_searchable env (m_thresholds mgr) = true /\
  exists v, DoGetRtsTxVector env station mgr = Some (v, mgr).
Proof.
  intros Hinit Hbasic Hdefault.
  destruct (DoInitialize_run env mgr0 mgr Hinit) as (Hbuilt & _).
  destruct (built_table_shape env (m_ber mgr) (m_thresholds mgr) Hbuilt) as (Hall & _).
  assert (Hsearch : rts_searchable env (m_thresholds mgr) = true).
  { unfold rts_searchable. apply andb_true_intro. split.
    - apply (all_nonht_incl _ (GetModeList env)); [| exact Hall].
      intros m [<- | Hm]; auto.
    - apply covered_forall. intros v Hv. apply in_map_iff in Hv.
      destruct Hv as (mode & <- & Hmode). unfold rts_key.
      rewrite (nonht_lookup env (m_ber mgr) (m_thresholds mgr) mode 800 Hbuilt
                 (Hbasic mode Hmode)). discriminate. }
  split; [exact Hsearch |].
  destruct (m_autoMCS mgr) eqn:Hauto.
  - eexists. exact (rts_fixed_run env station mgr Hauto).
  - eexists. exact (rts_search_run env station mgr Hauto Hsearch).
Qed.

(** ** Configuration strings *)

Module CsvFacts.
Import Csv.
Local Open Scope string_scope.

Lemma append_nil_r (s : string) : s ++ EmptyString = s.
Proof. induction s; simpl; congruence. Qed.

Lemma append_assoc (a b c : string) : (a ++ b) ++ c = a ++ (b ++ c).
Proof. induction a; simpl; congruence. Qed.

Lemma occurs_append c a b : occurs c (a ++ b) = occurs c a || occurs c b.
Proof. induction a; simpl; [reflexivity |]. now rewrite IHa, orb_assoc. Qed.

Lemma csv_loop_ret source d q word ret :
  csv_loop source d q word ret = (ret ++ csv_loop source d q word [])%list.
Proof.
  revert q word ret.
  induction source as [source IH] using
    (well_founded_induction (well_founded_ltof _ String.length)).
  intros q word ret.
  destruct source as [| c rest]; [reflexivity |].
  assert (Hrest : forall q w r, csv_loop rest d q w r = (r ++ csv_loop rest d q w [])%list).
  { intros. apply IH. unfold ltof. simpl. lia. }
  simpl.
  destruct (negb q && Ascii.eqb c dquote); [apply Hrest |].
  destruct (q && Ascii.eqb c dquote).
  - destruct rest as [| c' rest']; [reflexivity |].
    destruct (Ascii.eqb c' dquote); [| apply Hrest].
    apply IH. unfold ltof. simpl. lia.
  - destruct (negb q && Ascii.eqb c d); [| apply Hrest].
    rewrite (Hrest q EmptyString (ret ++ [word])%list), (Hrest q EmptyString [word]).
    now rewrite <- app_assoc.
Qed.

(** Outside quotes and on a source without double quote, the loop cuts at
    every delimiter. *)
Lemma csv_loop_unquoted source d word :
  occurs dquote source = false ->
  exists fields,
    csv_loop source d false word [] = fields /\
    String.concat (String d EmptyString) fields = word ++ source /\
    List.length fields = S (count d source) /\
    (occurs d word = false -> Forall (fun f => occurs d f = false) fields).
Proof.
  revert word. induction source as [| c rest IH]; intros word Hq.
  - exists [word]. simpl. rewrite append_nil_r. repeat split. intros H. now constructor.
  - simpl in Hq. apply orb_false_elim in Hq. destruct Hq as [Hc Hq].
    simpl. rewrite Hc. simpl.
    destruct (Ascii.eqb c d) eqn:Hd.
    + apply Ascii.eqb_eq in Hd. subst c.
      destruct (IH EmptyString Hq) as (fields & Hrun & Hcat & Hlen & Hall).
      exists (word :: fields). rewrite csv_loop_ret, Hrun. split; [reflexivity |].
      split; [| split].
      * destruct fields as [| f fs]; [discriminate |].
        change (String.concat (String d EmptyString) (word :: f :: fs))
          with (word ++ String d EmptyString ++ String.concat (String d EmptyString) (f :: fs)).
        rewrite Hcat. reflexivity.
      * simpl. now rewrite Hlen.
      * intros Hw. constructor; [exact Hw | now apply Hall].
    + destruct (IH (word ++ String c EmptyString) Hq) as (fields & Hrun & Hcat & Hlen & Hall).
      exists fields. split; [exact Hrun |]. split; [| split].
      * rewrite Hcat, append_assoc. reflexivity.
      * exact Hlen.
      * intros Hw. apply Hall. rewrite occurs_append, Hw. simpl. now rewrite Hd.
Qed.

(** X9.  On a source without double quote, [csv_split] returns the pieces
    between the delimiters: joined by the delimiter they give the source
    back, none of them holds a delimiter, and there is one more of them
    than there are delimiters, so an empty source gives one empty field. *)
Theorem csv_split_unquoted source d :
  (N.of_nat (String.length source) < 2 ^ 32)%N ->
  occurs dquote source = false ->
  exists fields,
    csv_split source d = Some fields /\
    String.concat (String d EmptyString) fields = source /\
    Forall (fun f => occurs d f = false) fields /\
    List.length fields = S (count d source).
Proof.
  intros Hlen Hq. unfold csv_split.
  apply N.ltb_lt in Hlen. rewrite Hlen.
  destruct (csv_loop_unquoted source d EmptyString Hq) as (fields & Hrun & Hcat & Hn & Hall).
  exists fields. rewrite Hrun. repeat split; auto.
Qed.

Lemma csv_loop_quoted field d rest word ret :
  (match rest with String c _ => Ascii.eqb c dquote = false | EmptyString => True end) ->
  csv_loop (escape field ++ String dquote rest) d true word ret
  = csv_loop rest d false (word ++ field) ret.
Proof.
  intros Hrest. revert word. induction field as [| c f IH]; intros word.
  - simpl. rewrite ?Ascii.eqb_refl. rewrite append_nil_r.
    destruct rest as [| c' rest']; [reflexivity |]. now rewrite Hrest.
  - simpl. destruct (Ascii.eqb c dquote) eqn:Hc.
    + apply Ascii.eqb_eq in Hc. subst c. simpl. rewrite ?Ascii.eqb_refl. simpl.
      rewrite IH, append_assoc. reflexivity.
    + simpl. rewrite Hc. simpl. rewrite IH, append_assoc. reflexivity.
Qed.

Lemma csv_loop_quoted_fields d field fields ret :
  Ascii.eqb d dquote = false ->
  csv_loop (String.concat (String d EmptyString) (map quoted (field :: fields))) d false EmptyString ret
  = (ret ++ field :: fields)%list.
Proof.
  intros Hd. revert field ret. induction fields as [| f fs IH]; intros field ret.
  - simpl. rewrite ?Ascii.eqb_refl. simpl.
    rewrite (csv_loop_quoted field d EmptyString EmptyString ret I). reflexivity.
  - change (String.concat (String d EmptyString) (map quoted (field :: f :: fs)))
      with (quoted field ++ String d EmptyString ++ String.concat (String d EmptyString) (map quoted (f :: fs))).
    remember (String.concat (String d EmptyString) (map quoted (f :: fs))) as tail eqn:Htail.
    unfold quoted. simpl append.
    rewrite append_assoc. simpl append.
    cbn [csv_loop]. rewrite ?Ascii.eqb_refl. cbn [negb andb].
    rewrite csv_loop_quoted by exact Hd.
    cbn [csv_loop]. rewrite ?Hd, ?Ascii.eqb_refl. cbn [negb andb append].
    subst tail. rewrite IH, <- app_assoc. reflexivity.
Qed.

(** X10.  Fields written in quoted form (every double quote doubled, the
    field between double quotes) and joined by a delimiter other than the
    double quote are read back as they were, whatever characters they
    hold. *)
Theorem csv_split_reads_quoted_fields d field fields :
  Ascii.eqb d dquote = false ->
  (N.of_nat (String.length (String.concat (String d EmptyString) (map quoted (field :: fields))))
   < 2 ^ 32)%N ->
  csv_split (String.concat (String d EmptyString) (map quoted (field :: fields))) d
  = Some (field :: fields).
Proof.
  intros Hd Hlen. unfold csv_split. apply N.ltb_lt in Hlen. rewrite Hlen.
  now rewrite csv_loop_quoted_fields.
Qed.

End CsvFacts.

(** ** The configuration file *)

Module ConfigFacts.
Import Config.

Lemma find_Some c line pos :
  find c line = Some pos ->
  line = (String.substring 0 pos line
          ++ String c (String.substring (pos + 1) (String.length line - (pos + 1)) line))%string /\
  Csv.occurs c (String.substring 0 pos line) = false.
Proof.
  revert pos. induction line as [| x rest IH]; intros pos; simpl; [discriminate |].
  destruct (Ascii.eqb x c) eqn:Hx.
  - intros [= <-]. apply Ascii.eqb_eq in Hx. subst x. simpl. split; [| reflexivity].
    f_equal. rewrite Nat.sub_0_r. clear. induction rest as [| y r IHr]; simpl; [reflexivity |].
    now rewrite <- IHr.
  - destruct (find c rest) as [p |]; [| discriminate]. simpl. intros [= <-].
    destruct (IH p eq_refl) as [Hline Hocc]. simpl. rewrite Hx. simpl.
    split; [| exact Hocc]. f_equal. exact Hline.
Qed.

Lemma find_first c key value :
  Csv.occurs c key = false -> find c (key ++ String c value)%string = Some (String.length key).
Proof.
  induction key as [| x rest IH]; simpl.
  - intros _. now rewrite Ascii.eqb_refl.
  - intros H. apply orb_false_elim in H. destruct H as [Hx Hrest].
    rewrite Hx, (IH Hrest). reflexivity.
Qed.

Lemma append_inj_occurs c k1 v1 k2 v2 :
  Csv.occurs c k1 = false -> Csv.occurs c k2 = false ->
  (k1 ++ String c v1 = k2 ++ String c v2)%string -> k1 = k2 /\ v1 = v2.
Proof.
  revert k2. induction k1 as [| x r IH]; intros k2 H1 H2 Heq.
  - destruct k2 as [| y r2]; simpl in *.
    + injection Heq as <-. now split.
    + injection Heq as <- _. now rewrite Ascii.eqb_refl in H2.
  - destruct k2 as [| y r2]; simpl in *.
    + injection Heq as -> _. now rewrite Ascii.eqb_refl in H1.
    + injection Heq as <- Heq. apply orb_false_elim in H1, H2.
      destruct (IH r2 (proj2 H1) (proj2 H2) Heq) as [-> ->]. now split.
Qed.

Section ReaderFacts.

Variable stoi : string -> option Z.

Lemma cuts_unique line k1 v1 k2 v2 :
  cuts line k1 v1 -> cuts line k2 v2 -> k1 = k2 /\ v1 = v2.
Proof.
  intros (_ & H1 & O1) (_ & H2 & O2). rewrite H1 in H2.
  now apply (append_inj_occurs colon).
Qed.

(** A line either leaves the configuration as it is, or it is cut at its
    first colon and its key is read as a number. *)
Lemma readConfigLine_cases line config :
  (readConfigLine stoi line config = Some config /\ forall key value, ~ cuts line key value) \/
  (exists key value,
     cuts line key value /\
     readConfigLine stoi line config
     = match stoi key with
       | Some node => Some (assign node value config)
       | None => None
       end).
Proof.
  unfold readConfigLine.
  destruct (find hash line) as [[| p] |] eqn:Hhash.
  - left. split; [reflexivity |]. intros key value (Hc & _).
    destruct line as [| c rest]; [discriminate |]. simpl in Hhash.
    rewrite Hc in Hhash. destruct (find hash rest); discriminate.
  - assert (Hfirst : match line with
                     | String c _ => Ascii.eqb c hash = false
                     | EmptyString => True
                     end).
    { destruct line as [| c rest]; [exact I |]. simpl in Hhash.
      destruct (Ascii.eqb c hash); [discriminate | reflexivity]. }
    clear Hhash. destruct (find colon line) as [pos |] eqn:Hcolon.
    + right. destruct (find_Some colon line pos Hcolon) as [Hline Hocc].
      eexists _, _. split; [| reflexivity]. repeat split; assumption.
    + left. split; [reflexivity |]. intros key value (_ & Hline & Hocc).
      rewrite Hline, (find_first colon key value Hocc) in Hcolon. discriminate.
  - assert (Hfirst : match line with
                     | String c _ => Ascii.eqb c hash = false
                     | EmptyString => True
                     end).
    { destruct line as [| c rest]; [exact I |]. simpl in Hhash.
      destruct (Ascii.eqb c hash); [discriminate | reflexivity]. }
    clear Hhash. destruct (find colon line) as [pos |] eqn:Hcolon.
    + right. destruct (find_Some colon line pos Hcolon) as [Hline Hocc].
      eexists _, _. split; [| reflexivity]. repeat split; assumption.
    + left. split; [reflexivity |]. intros key value (_ & Hline & Hocc).
      rewrite Hline, (find_first colon key value Hocc) in Hcolon. discriminate.
Qed.

Lemma fold_opt_app {X S} (body : X -> S -> option S) (l : list X) (x : X) (s : S) :
  fold_opt body (l ++ [x]) s
  = match fold_opt body l s with Some s' => body x s' | None => None end.
Proof.
  revert s. induction l as [| a l IH]; intros s; simpl.
  - now destruct (body x s).
  - destruct (body a s); [apply IH | reflexivity].
Qed.

(** X11.  A configuration that is read holds, for every node, the value of
    the last line that sets the node: the text after the first colon of a
    line that is no comment and whose text before that colon reads as the
    number of the node.  A node that no line sets has no entry. *)
Theorem readConfigFile_last_line_wins lines config :
  readConfigFile stoi (Some lines) = Some config ->
  forall node,
    match config node with
    | Some value =>
        exists before line after,
          lines = before ++ line :: after /\ binds stoi line node value /\
          forall l v, In l after -> ~ binds stoi l node v
    | None => forall l v, In l lines -> ~ binds stoi l node v
    end.
Proof.
  unfold readConfigFile. revert config.
  induction lines as [| line lines IH] using rev_ind; intros config.
  - intros [= <-] node. simpl. intros l v [].
  - rewrite fold_opt_app.
    destruct (fold_opt (readConfigLine stoi) lines empty) as [c0 |]; [| discriminate].
    specialize (IH c0 eq_refl). intros Hline node. specialize (IH node).
    destruct (readConfigLine_cases line c0) as [[Hsame Hno] | (key & value & Hcut & Hrun)].
    + rewrite Hsame in Hline. injection Hline as <-.
      assert (Hline : forall v, ~ binds stoi line node v).
      { intros v (k & Hk & _). exact (Hno k v Hk). }
      destruct (c0 node) as [value |].
      * destruct IH as (before & l0 & after & -> & Hb & Hafter).
        exists before, l0, (after ++ [line]). split; [| split; [exact Hb |]].
        -- now rewrite <- app_assoc.
        -- intros l v Hin. apply in_app_or in Hin. destruct Hin as [Hin | [<- | []]]; auto.
      * intros l v Hin. apply in_app_or in Hin. destruct Hin as [Hin | [<- | []]]; auto.
    + rewrite Hrun in Hline. destruct (stoi key) as [n |] eqn:Hkey; [| discriminate].
      injection Hline as <-. unfold assign.
      destruct (node =? n) eqn:Hn.
      * apply Z.eqb_eq in Hn. subst n. exists lines, line, []. split; [reflexivity |].
        split; [now exists key | intros l v []].
      * assert (Hline : forall v, ~ binds stoi line node v).
        { intros v (k & Hk & Hs). destruct (cuts_unique line k v key value Hk Hcut) as [-> _].
          rewrite Hkey in Hs. injection Hs as ->. now rewrite Z.eqb_refl in Hn. }
        destruct (c0 node) as [value0 |].
        -- destruct IH as (before & l0 & after & -> & Hb & Hafter).
           exists before, l0, (after ++ [line]). split; [| split; [exact Hb |]].
           ++ now rewrite <- app_assoc.
           ++ intros l v Hin. apply in_app_or in Hin. destruct Hin as [Hin | [<- | []]]; auto.
        -- intros l v Hin. apply in_app_or in Hin. destruct Hin as [Hin | [<- | []]]; auto.
Qed.

(** X12.  Reading fails exactly when some line that is no comment has a
    colon and the text before its first colon does not read as a number;
    a file that cannot be opened gives the empty configuration. *)
Theorem readConfigFile_fails_on_a_bad_key lines :
  readConfigFile stoi None = Some empty /\
  (readConfigFile stoi (Some lines) = None <->
   exists line key value, In line lines /\ cuts line key value /\ stoi key = None).
Proof.
  split; [reflexivity |]. unfold readConfigFile.
  induction lines as [| line lines IH] using rev_ind.
  - simpl. split; [discriminate | intros (l & _ & _ & [] & _)].
  - rewrite fold_opt_app.
    destruct (fold_opt (readConfigLine stoi) lines empty) as [c0 |].
    + destruct (readConfigLine_cases line c0) as [[Hsame Hno] | (key & value & Hcut & Hrun)].
      * rewrite Hsame. split; [discriminate |].
        intros (l & k & v & Hin & Hc & Hs). apply in_app_or in Hin.
        destruct Hin as [Hin | [<- | []]].
        -- exfalso. assert (Hex : exists line key value,
                                   In line lines /\ cuts line key value /\ stoi key = None)
             by (exists l, k, v; auto).
           apply IH in Hex. discriminate.
        -- exfalso. exact (Hno k v Hc).
      * rewrite Hrun. destruct (stoi key) as [n |] eqn:Hkey.
        -- split; [discriminate |].
           intros (l & k & v & Hin & Hc & Hs). apply in_app_or in Hin.
           destruct Hin as [Hin | [<- | []]].
           ++ exfalso. assert (Hex : exists line key value,
                                   In line lines /\ cuts line key value /\ stoi key = None)
                by (exists l, k, v; auto).
              apply IH in Hex. discriminate.
           ++ destruct (cuts_unique line k v key value Hc Hcut) as [-> _]. congruence.
        -- split; [| reflexivity]. intros _. exists line, key, value.
           split; [apply in_or_app; right; now left | now split].
    + split; [| reflexivity]. intros _.
      destruct (proj1 IH eq_refl) as (l & k & v & Hin & Hc & Hs).
      exists l, k, v. split; [apply in_or_app; now left | now split].
Qed.

End ReaderFacts.

End ConfigFacts.

(** ** Measurements *)

Module MeasFacts.
Import Meas.

Lemma measId8 (a b : Z) :
  0 <= a < 256 -> 0 <= b < 256 ->
  uint8 (Z.lor (Z.shiftl a 5) (Z.land b 31)) = 32 * (a mod 8) + b mod 32.
Proof.
  intros Ha Hb.
  assert (Hall : forallb (fun a => forallb (fun b =>
             uint8 (Z.lor (Z.shiftl a 5) (Z.land b 31)) =? 32 * (a mod 8) + b mod 32)
             (nodes 256)) (nodes 256) = true) by (vm_compute; reflexivity).
  assert (Hin : forall x, 0 <= x < 256 -> In x (nodes 256)).
  { intros x Hx. unfold nodes. apply in_map_iff. exists (Z.to_nat x). split; [lia |].
    apply in_seq. lia. }
  rewrite forallb_forall in Hall. specialize (Hall a (Hin a Ha)).
  rewrite forallb_forall in Hall. specialize (Hall b (Hin b Hb)).
  now apply Z.eqb_eq in Hall.
Qed.

Lemma measId_closed_form i j :
  0 <= i -> 0 <= j -> measId i j = 32 * ((j / 4) mod 8) + i mod 32.
Proof.
  intros Hi Hj. unfold measId. cbv zeta. unfold N_BSS.
  rewrite Z.quot_div_nonneg by lia.
  rewrite measId8 by (unfold uint8; apply Z.mod_pos_bound; lia).
  unfold uint8. change (2 ^ 8) with 256.
  f_equal; [f_equal |].
  - generalize (j / 4). intros q. Z.div_mod_to_equations. lia.
  - Z.div_mod_to_equations. lia.
Qed.

(** X13.  The identifier of an RX power entry holds the TX node in its low
    five bits and the index of the RX node within BSS 0 in the three bits
    above: it is read back exactly for TX nodes below 32 and RX nodes
    below 32, and the nodes 32 places further get the same identifier. *)
Theorem measId_holds_five_and_three_bits i j :
  0 <= i -> 0 <= j ->
  measId i j = 32 * ((j / N_BSS) mod 8) + i mod 32 /\
  (i < 32 -> j < 32 ->
   Z.land (measId i j) 31 = i /\ Z.shiftr (measId i j) 5 = j / N_BSS) /\
  measId (i + 32) j = measId i j /\
  measId i (j + 32) = measId i j.
Proof.
  intros Hi Hj. rewrite !measId_closed_form by lia. unfold N_BSS.
  split; [reflexivity |]. split; [| split].
  - intros Hi' Hj'. change 31 with (Z.ones 5). rewrite Z.land_ones, Z.shiftr_div_pow2 by lia.
    change (2 ^ 5) with 32. split; Z.div_mod_to_equations; lia.
  - f_equal. Z.div_mod_to_equations. lia.
  - f_equal. f_equal. Z.div_mod_to_equations. lia.
Qed.

Lemma nodes_In n x : In x (nodes n) <-> 0 <= x < n.
Proof.
  unfold nodes. rewrite in_map_iff. split.
  - intros (k & <- & Hk). apply in_seq in Hk. lia.
  - intros Hx. exists (Z.to_nat x). split; [lia |]. apply in_seq. lia.
Qed.

Lemma NoDup_map_inj {A B} (f : A -> B) (l : list A) :
  (forall x y, f x = f y -> x = y) -> NoDup l -> NoDup (map f l).
Proof.
  intros Hinj. induction 1 as [| a l Ha Hl IH]; simpl; constructor; [| exact IH].
  intros H. apply in_map_iff in H. destruct H as (x & Hx & Hin).
  apply Hinj in Hx. now subst.
Qed.

Lemma nodes_NoDup n : NoDup (nodes n).
Proof.
  unfold nodes. apply NoDup_map_inj; [| apply seq_NoDup].
  intros a b H. lia.
Qed.

(** A loop whose iteration [a] writes the entry of [key a] only, from
    the entry itself: an entry whose key the loop meets once is written
    once, and the other entries are left. *)
Lemma fold_keyed (g : (Z -> Z) -> Z -> Z -> Z) (key : Z -> Z) (h : Z -> Z -> Z) (l : list Z) :
  (forall m a k, k <> key a -> g m a k = m k) ->
  (forall m a, g m a (key a) = h a (m (key a))) ->
  NoDup (map key l) ->
  forall m,
    (forall i, In i l -> fold_left g l m (key i) = h i (m (key i))) /\
    (forall k, ~ In k (map key l) -> fold_left g l m k = m k).
Proof.
  intros Hother Hkey. induction l as [| a l IH]; intros Hnd m.
  - split; [intros i [] | reflexivity].
  - inversion Hnd as [| ? ? Ha Hl]; subst. destruct (IH Hl (g m a)) as [IH1 IH2].
    simpl fold_left. split.
    + intros i [<- | Hi].
      * rewrite (IH2 _ Ha). apply Hkey.
      * rewrite (IH1 i Hi). f_equal. apply Hother.
        intros E. apply Ha. rewrite <- E. now apply in_map.
    + intros k Hk. rewrite IH2 by (intros H; apply Hk; now right).
      apply Hother. intros ->. apply Hk. now left.
Qed.

Lemma step_counters_at n succPktsMap c i :
  stepSuccPerNodeInitialized c = true ->
  stepSuccPerNodeInitialized (step_counters n succPktsMap c) = true /\
  stepSuccPerNode (step_counters n succPktsMap c) i
  = if (N_BSS <=? i) && (i <? n)
    then uint32 (nRecvdTotal succPktsMap i - stepSuccPerNode c i)
    else stepSuccPerNode c i.
Proof.
  intros Hinit. unfold step_counters. rewrite Hinit. simpl. split; [reflexivity |].
  destruct (fold_keyed (update_step succPktsMap) (fun k => k)
              (fun a old => if a <? N_BSS then old
                            else uint32 (nRecvdTotal succPktsMap a - old))
              (nodes n)) with (m := stepSuccPerNode c) as [Hin Hout].
  - intros m a k Hk. unfold update_step. destruct (a <? N_BSS); [reflexivity |].
    unfold set_count. destruct (k =? a) eqn:E; [apply Z.eqb_eq in E; contradiction | reflexivity].
  - intros m a. unfold update_step. destruct (a <? N_BSS); [reflexivity |].
    unfold set_count. now rewrite Z.eqb_refl.
  - rewrite map_id. apply nodes_NoDup.
  - destruct (Z_lt_dec i n) as [Hlt | Hge]; [destruct (Z_le_dec 0 i) as [H0 | Hneg] |].
    + rewrite (Hin i) by (apply nodes_In; lia).
      destruct (i <? N_BSS) eqn:E.
      * apply Z.ltb_lt in E. destruct (N_BSS <=? i) eqn:E'; [apply Z.leb_le in E'; lia |].
        reflexivity.
      * apply Z.ltb_ge in E. destruct (N_BSS <=? i) eqn:E'; [| apply Z.leb_gt in E'; lia].
        destruct (i <? n) eqn:E''; [reflexivity | apply Z.ltb_ge in E''; lia].
    + rewrite Hout by (rewrite map_id, nodes_In; lia).
      destruct (N_BSS <=? i) eqn:E'; [apply Z.leb_le in E'; unfold N_BSS in E'; lia |].
      reflexivity.
    + rewrite Hout by (rewrite map_id, nodes_In; lia).
      destruct (i <? n) eqn:E''; [apply Z.ltb_lt in E''; lia |]. now rewrite andb_false_r.
Qed.

Lemma first_step_clears n succPktsMap i :
  stepSuccPerNodeInitialized (step_counters n succPktsMap no_counters) = true /\
  stepSuccPerNode (step_counters n succPktsMap no_counters) i = 0.
Proof.
  unfold step_counters, no_counters. simpl. split; [reflexivity |].
  destruct (fold_keyed (fun m i => set_count i 0 m) (fun k => k) (fun _ _ => 0) (nodes n))
    with (m := fun _ : Z => 0) as [Hin Hout].
  - intros m a k Hk. unfold set_count.
    destruct (k =? a) eqn:E; [apply Z.eqb_eq in E; contradiction | reflexivity].
  - intros m a. unfold set_count. now rewrite Z.eqb_refl.
  - rewrite map_id. apply nodes_NoDup.
  - destruct (in_dec Z.eq_dec i (nodes n)) as [H | H].
    + now apply Hin.
    + apply Hout. now rewrite map_id.
Qed.

Lemma uint32_sub_sub a b r : uint32 (a - uint32 (b - r)) = uint32 (a - b + r).
Proof. unfold uint32. Z.div_mod_to_equations. lia. Qed.

(** X14.  After the first call, the count of a station for a step is the
    total of the step less the count of the step before, modulo 2^32: over
    two calls it is the increase of the total plus the count that was
    there before them.  The entries of the access points and of indices
    beyond the nodes are left as they are. *)
Theorem step_count_adds_the_count_before n t1 t2 c i :
  stepSuccPerNodeInitialized c = true ->
  (N_BSS <= i < n ->
   stepSuccPerNode (step_counters n t1 c) i
   = uint32 (nRecvdTotal t1 i - stepSuccPerNode c i) /\
   stepSuccPerNode (step_counters n t2 (step_counters n t1 c)) i
   = uint32 (nRecvdTotal t2 i - nRecvdTotal t1 i + stepSuccPerNode c i)) /\
  (~ N_BSS <= i < n ->
   stepSuccPerNode (step_counters n t1 c) i = stepSuccPerNode c i).
Proof.
  intros Hinit.
  destruct (step_counters_at n t1 c i Hinit) as [Hinit1 H1].
  destruct (step_counters_at n t2 (step_counters n t1 c) i Hinit1) as [_ H2].
  split.
  - intros Hi. assert (E : (N_BSS <=? i) && (i <? n) = true).
    { apply andb_true_intro. split; [apply Z.leb_le | apply Z.ltb_lt]; lia. }
    rewrite E in H1, H2. split; [exact H1 |].
    rewrite H2, H1. apply uint32_sub_sub.
  - intros Hi. assert (E : (N_BSS <=? i) && (i <? n) = false).
    { destruct (N_BSS <=? i) eqn:E1; [| reflexivity].
      destruct (i <? n) eqn:E2; [| reflexivity].
      apply Z.leb_le in E1. apply Z.ltb_lt in E2. exfalso. apply Hi. lia. }
    now rewrite E in H1.
Qed.

Lemma nRecvdTotal_range t i : 0 <= nRecvdTotal t i < 2 ^ 32.
Proof.
  unfold nRecvdTotal. destruct (t i); [apply Z.mod_pos_bound |]; lia.
Qed.

Lemma last_cons (l : list Z) (a d : Z) : last (a :: l) d = last l a.
Proof.
  revert a d. induction l as [| b l IH]; intros a d; [reflexivity |].
  change (last (a :: b :: l) d) with (last (b :: l) d). now rewrite !IH.
Qed.

Lemma run_steps_within n maps i :
  N_BSS <= i < n ->
  forall c lo,
    stepSuccPerNodeInitialized c = true ->
    0 <= stepSuccPerNode c i <= lo ->
    Sorted.Sorted Z.le (lo :: map (fun t => nRecvdTotal t i) maps) ->
    0 <= stepSuccPerNode (run_steps n maps c) i
      <= last (map (fun t => nRecvdTotal t i) maps) lo.
Proof.
  intros Hi. induction maps as [| t rest IH]; intros c lo Hinit Hr Hsorted.
  - simpl. exact Hr.
  - simpl map in *. inversion Hsorted as [| ? ? Hrest Hhd]; subst.
    inversion Hhd as [| ? ? Hle]; subst.
    destruct (step_counters_at n t c i Hinit) as [Hinit1 H1].
    assert (E : (N_BSS <=? i) && (i <? n) = true).
    { apply andb_true_intro. split; [apply Z.leb_le | apply Z.ltb_lt]; lia. }
    rewrite E in H1. pose proof (nRecvdTotal_range t i) as Ht.
    assert (Hnew : 0 <= stepSuccPerNode (step_counters n t c) i <= nRecvdTotal t i).
    { rewrite H1. unfold uint32. rewrite Z.mod_small; lia. }
    specialize (IH (step_counters n t c) (nRecvdTotal t i) Hinit1 Hnew Hrest).
    simpl run_steps. unfold run_steps in IH.
    rewrite last_cons. exact IH.
Qed.

(** X15.  While the totals of a station do not decrease from call to call,
    its count for a step lies between 0 and the total of the step: the
    subtraction of line 964 never wraps, and the count never exceeds the
    number of frames that the station has got through since the start. *)
Theorem step_count_within_total n first maps i :
  N_BSS <= i < n ->
  Sorted.Sorted Z.le (map (fun t => nRecvdTotal t i) maps) ->
  0 <= stepSuccPerNode (run_steps n maps (step_counters n first no_counters)) i
    <= last (map (fun t => nRecvdTotal t i) maps) 0.
Proof.
  intros Hi Hsorted.
  destruct (first_step_clears n first i) as [Hinit H0].
  apply run_steps_within; auto.
  - rewrite H0. lia.
  - constructor; [exact Hsorted |].
    destruct maps as [| t rest]; constructor. apply nRecvdTotal_range.
Qed.

Lemma mod_add_self k a : 0 < a -> (a + k) mod a = k mod a.
Proof.
  intros Ha. replace (a + k) with (k + 1 * a) by lia. apply Z.mod_add. lia.
Qed.

Lemma bssOfNode_mod apNodeCount networkSize apId staId k :
  (forall i, apId i = i) ->
  (forall i, staId i = apNodeCount + i) ->
  0 < apNodeCount -> 0 <= networkSize ->
  0 <= k < apNodeCount * (1 + networkSize) ->
  bssOfNode apNodeCount networkSize apId staId k = k mod apNodeCount.
Proof.
  intros Hap Hsta Ha Hn Hk. unfold bssOfNode, bss_of_stas, bss_of_aps.
  assert (Hnd : NoDup (map staId (nodes (apNodeCount * networkSize)))).
  { apply NoDup_map_inj; [| apply nodes_NoDup].
    intros x y. rewrite !Hsta. lia. }
  assert (Hset : forall (key : Z -> Z) (v : Z -> Z) (m : Z -> Z) (a x : Z),
             x <> key a -> set_count (key a) (v a) m x = m x).
  { intros key v m a x Hx. unfold set_count.
    destruct (x =? key a) eqn:E; [apply Z.eqb_eq in E; contradiction | reflexivity]. }
  assert (Hget : forall (key : Z -> Z) (v : Z -> Z) (m : Z -> Z) (a : Z),
             set_count (key a) (v a) m (key a) = v a).
  { intros key v m a. unfold set_count. now rewrite Z.eqb_refl. }
  match goal with |- fold_left ?g ?l ?m0 k = _ =>
    destruct (fold_keyed g staId (fun i _ => i mod apNodeCount) l
                (Hset staId (fun i => i mod apNodeCount))
                (Hget staId (fun i => i mod apNodeCount)) Hnd m0) as [Hin Hout]
  end.
  destruct (Z_lt_dec k apNodeCount) as [Hlow | Hhigh].
  - rewrite Hout.
    + assert (Hnd' : NoDup (map apId (nodes apNodeCount))).
      { apply NoDup_map_inj; [| apply nodes_NoDup]. intros x y. rewrite !Hap. lia. }
      match goal with |- fold_left ?g ?l ?m0 k = _ =>
        destruct (fold_keyed g apId (fun i _ => i) l
                    (Hset apId (fun i => i)) (Hget apId (fun i => i)) Hnd' m0) as [Hin' _]
      end.
      specialize (Hin' k). rewrite Hap in Hin'. rewrite Hin' by (apply nodes_In; lia).
      symmetry. apply Z.mod_small. lia.
    + intros H. apply in_map_iff in H. destruct H as (x & Hx & Hx').
      apply nodes_In in Hx'. rewrite Hsta in Hx. lia.
  - specialize (Hin (k - apNodeCount)). rewrite Hsta in Hin.
    replace (apNodeCount + (k - apNodeCount)) with k in Hin by lia.
    rewrite Hin by (apply nodes_In; nia).
    rewrite <- (mod_add_self (k - apNodeCount) apNodeCount Ha). f_equal. lia.
Qed.

Lemma action_nodes_In n i :
  0 <= n -> In i (action_nodes n) <-> 0 <= i < n /\ i mod N_BSS = 0.
Proof.
  intros Hn. unfold action_nodes, N_BSS. rewrite in_map_iff. split.
  - intros (k & <- & Hk). apply in_seq in Hk. split.
    + assert (Z.of_nat k < (n + 4 - 1) / 4) by lia.
      Z.div_mod_to_equations. lia.
    + apply Z.mod_mul. lia.
  - intros [Hi Hmod]. exists (Z.to_nat (i / 4)). split.
    + rewrite Z2Nat.id by (apply Z.div_pos; lia). Z.div_mod_to_equations. lia.
    + apply in_seq. split; [lia |]. simpl.
      apply Z2Nat.inj_lt; [apply Z.div_pos; lia | apply Z.div_pos; lia |].
      Z.div_mod_to_equations. lia.
Qed.

(** X16.  When the nodes are numbered in the order of their creation, the
    BSS of node [k] is [k mod apNodeCount]; with [N_BSS] access points the
    nodes that [RecvAction] visits are exactly the nodes of BSS 0, so its
    assertion on the SSID holds for each of them, and the node at index
    [N_BSS * q] is the [q]-th node of BSS 0. *)
Theorem action_nodes_are_bss0 apNodeCount networkSize apId staId :
  (forall i, apId i = i) ->
  (forall i, staId i = apNodeCount + i) ->
  0 < apNodeCount -> 0 <= networkSize ->
  let n := apNodeCount * (1 + networkSize) in
  (forall k, 0 <= k < n ->
             bssOfNode apNodeCount networkSize apId staId k = k mod apNodeCount) /\
  (apNodeCount = N_BSS ->
   forall i, In i (action_nodes n) <->
             0 <= i < n /\ bssOfNode apNodeCount networkSize apId staId i = 0).
Proof.
  intros Hap Hsta Ha Hn n. split.
  - intros k Hk. now apply bssOfNode_mod.
  - intros -> i. rewrite action_nodes_In by (unfold n, N_BSS; nia). split.
    + intros [Hi Hmod]. split; [exact Hi |].
      rewrite bssOfNode_mod; auto.
    + intros [Hi Hbss]. split; [exact Hi |].
      rewrite bssOfNode_mod in Hbss; auto.
Qed.

End MeasFacts.

Module SingleStaFacts.
Import Meas SingleSta MeasFacts.

Lemma counts_range stats : 0 <= nRecvd stats < 2 ^ 32 /\ 0 <= nFailed stats < 2 ^ 32.
Proof.
  unfold nRecvd, nFailed, GetTotalSuccAndFailCounts. simpl.
  split; [destruct (fst stats) | destruct (snd stats)];
    try (apply Z.mod_pos_bound); lia.
Qed.

Lemma run_cons stats rest t :
  run (stats :: rest) t
  = ((uint32 (nRecvd stats - totalSucc t), uint32 (nFailed stats - totalFail t))
       :: fst (run rest (mkTotals (nRecvd stats) (nFailed stats))),
     snd (run rest (mkTotals (nRecvd stats) (nFailed stats)))).
Proof.
  simpl. unfold GenerateMeasurement, nRecvd, nFailed.
  now destruct (run rest _).
Qed.

Lemma run_adds_up calls :
  forall t, 0 <= totalSucc t < 2 ^ 32 -> 0 <= totalFail t < 2 ^ 32 ->
    totalSucc (snd (run calls t)) = uint32 (totalSucc t + sum_succ (fst (run calls t))) /\
    totalFail (snd (run calls t)) = uint32 (totalFail t + sum_fail (fst (run calls t))) /\
    totalSucc (snd (run calls t)) = last (map nRecvd calls) (totalSucc t) /\
    totalFail (snd (run calls t)) = last (map nFailed calls) (totalFail t).
Proof.
  induction calls as [| stats rest IH]; intros t Hs Hf.
  - simpl. unfold uint32. rewrite !Z.add_0_r, !Z.mod_small by lia. auto.
  - destruct (counts_range stats) as [Hr Hfl].
    specialize (IH (mkTotals (nRecvd stats) (nFailed stats)) Hr Hfl).
    rewrite run_cons. cbn [fst snd totalSucc totalFail] in *.
    destruct IH as (I1 & I2 & I3 & I4).
    cbn [map sum_succ sum_fail fold_right fst snd]. rewrite !last_cons.
    fold (sum_succ (fst (run rest (mkTotals (nRecvd stats) (nFailed stats))))).
    fold (sum_fail (fst (run rest (mkTotals (nRecvd stats) (nFailed stats))))).
    repeat split; auto.
    + rewrite I1. unfold uint32. Z.div_mod_to_equations. lia.
    + rewrite I2. unfold uint32. Z.div_mod_to_equations. lia.
Qed.

(** X17.  The successes and failures reported period by period add up,
    modulo 2^32, to the totals of the last call, which are the totals
    that the manager holds afterwards. *)
Theorem period_counts_add_up calls :
  let result := run calls (mkTotals 0 0) in
  uint32 (sum_succ (fst result)) = last (map nRecvd calls) 0 /\
  uint32 (sum_fail (fst result)) = last (map nFailed calls) 0 /\
  totalSucc (snd result) = last (map nRecvd calls) 0 /\
  totalFail (snd result) = last (map nFailed calls) 0.
Proof.
  intros result. destruct (run_adds_up calls (mkTotals 0 0)) as (H1 & H2 & H3 & H4);
    simpl; try lia.
  simpl in *. fold result in H1, H2, H3, H4. rewrite <- H3 at 1. rewrite <- H4 at 1.
  repeat split; auto.
Qed.

End SingleStaFacts.

(** ** The properties on the sample data *)

Lemma up_to_date_table_is_stable_witness :
  up_to_date Scenario.env Scenario.manager /\
  ((forall r mgr',
       DoGetDataTxVector Scenario.env 1 Scenario.heard 20 Scenario.manager = Some (r, mgr') ->
       (exists rate, mgr' = set_currentRate rate Scenario.manager) /\
       up_to_date Scenario.env mgr') /\
   (forall v mgr',
       DoGetRtsTxVector Scenario.env Scenario.heard Scenario.manager = Some (v, mgr') ->
       mgr' = Scenario.manager) /\
   (forall v, find_threshold (m_thresholds Scenario.manager) v = None ->
              GetSnrThreshold Scenario.env v Scenario.manager = None)).
Proof.
  split; [vm_compute; reflexivity |].
  apply (up_to_date_table_is_stable Scenario.env 1 Scenario.heard 20 Scenario.manager).
  vm_compute; reflexivity.
Defined.

Lemma reports_invalidate_by_snr_only_witness :
  cache_hit (DoReportRtsOk Scenario.env Scenario.settled 12.5) (m_lastChannelWidth Scenario.settled)
  = PrimFloat.eqb 12.5 (m_lastSnrCached Scenario.settled).
Proof.
  apply (reports_invalidate_by_snr_only Scenario.env Scenario.settled 12.5 40 2 1 0 12.5
           Scenario.manager); vm_compute; reflexivity.
Defined.

Lemma converged_index_within_history_witness :
  exists v station' mgr',
    DoGetDataTxVector Scenario.env 10 Scenario.settled 20 Samples.with_history
    = Some (v, station', mgr') /\
    GetModulationClass (GetMode v) = WIFI_MOD_CLASS_HE /\
    5 <= GetMcsValue (GetMode v) <= 7.
Proof.
  apply (converged_index_within_history Scenario.env 10 Scenario.settled 20
           Samples.with_history 5 7).
  - reflexivity.
  - simpl. discriminate.
  - simpl. repeat constructor; lia.
  - simpl. repeat constructor; lia.
Defined.

Lemma initialised_table_holds_phy_thresholds_witness :
  entries_ok Scenario.env (m_ber Samples.blank) (m_thresholds Scenario.manager) /\
  n_rebuilds Scenario.manager = S (n_rebuilds Samples.blank) /\
  forall mode gi,
    In mode (GetModeList Scenario.env) ->
    GetSnrThreshold Scenario.env (mkTx mode gi 1 (nonht_width mode)) Scenario.manager
    = Some (CalculateSnr Scenario.env (nonht_vector mode) (m_ber Samples.blank),
            Scenario.manager).
Proof.
  apply (initialised_table_holds_phy_thresholds Scenario.env Samples.blank Scenario.manager).
  vm_compute; reflexivity.
Defined.

Lemma initialised_manager_serves_data_witness :
  searchable Scenario.env Scenario.heard 20 (m_thresholds Scenario.manager) = true /\
  exists v station',
    DoGetDataTxVector Scenario.env 1 Scenario.heard 20 Scenario.manager
    = Some (v, station', set_currentRate (rate_of Scenario.env v) Scenario.manager).
Proof.
  apply (initialised_manager_serves_data Scenario.env Samples.blank Scenario.manager 1
           Scenario.heard 20).
  - vm_compute; reflexivity.
  - repeat split; [apply incl_refl | apply incl_refl | vm_compute; discriminate].
  - intros _. simpl. now left.
  - reflexivity.
Defined.

Lemma initialised_manager_serves_rts_witness :
  rts_searchable Scenario.env (m_thresholds Scenario.manager) = true /\
  exists v, DoGetRtsTxVector Scenario.env Scenario.heard Scenario.manager
            = Some (v, Scenario.manager).
Proof.
  apply (initialised_manager_serves_rts Scenario.env Samples.blank Scenario.manager
           Scenario.heard).
  - vm_compute; reflexivity.
  - apply incl_refl.
  - simpl. now left.
Defined.

Lemma csv_split_unquoted_witness :
  exists fields,
    Csv.csv_split "0,-82,20,42,20" "," = Some fields /\
    String.concat (String "," EmptyString) fields = "0,-82,20,42,20"%string /\
    Forall (fun f => Csv.occurs "," f = false) fields /\
    List.length fields = S (Csv.count "," "0,-82,20,42,20").
Proof.
  apply (CsvFacts.csv_split_unquoted "0,-82,20,42,20" ","); vm_compute; reflexivity.
Defined.

Lemma csv_split_reads_quoted_fields_witness :
  Csv.csv_split (String.concat (String "," EmptyString) (map Csv.quoted ["a,b"; "c"]%string)) ","
  = Some ["a,b"; "c"]%string.
Proof.
  apply (CsvFacts.csv_split_reads_quoted_fields "," "a,b" ["c"%string]); vm_compute; reflexivity.
Defined.

Lemma readConfigFile_last_line_wins_witness :
  exists before line after,
    Samples.config_lines = before ++ line :: after /\
    Config.binds Config.stoi_decimal line 0 "second" /\
    forall l v, In l after -> ~ Config.binds Config.stoi_decimal l 0 v.
Proof.
  apply (ConfigFacts.readConfigFile_last_line_wins Config.stoi_decimal Samples.config_lines
           Samples.config ltac:(vm_compute; reflexivity) 0).
Defined.

Lemma measId_holds_five_and_three_bits_witness :
  Meas.measId 5 12 = 32 * ((12 / Meas.N_BSS) mod 8) + 5 mod 32 /\
  (5 < 32 -> 12 < 32 ->
   Z.land (Meas.measId 5 12) 31 = 5 /\ Z.shiftr (Meas.measId 5 12) 5 = 12 / Meas.N_BSS) /\
  Meas.measId (5 + 32) 12 = Meas.measId 5 12 /\
  Meas.measId 5 (12 + 32) = Meas.measId 5 12.
Proof.
  apply (MeasFacts.measId_holds_five_and_three_bits 5 12); lia.
Defined.

Lemma step_count_adds_the_count_before_witness :
  (Meas.N_BSS <= 4 < 8 ->
   Meas.stepSuccPerNode (Meas.step_counters 8 (fun _ => Some 10) Samples.counted) 4
   = Meas.uint32 (Meas.nRecvdTotal (fun _ => Some 10) 4 - Meas.stepSuccPerNode Samples.counted 4) /\
   Meas.stepSuccPerNode
     (Meas.step_counters 8 (fun _ => Some 25)
        (Meas.step_counters 8 (fun _ => Some 10) Samples.counted)) 4
   = Meas.uint32 (Meas.nRecvdTotal (fun _ => Some 25) 4 - Meas.nRecvdTotal (fun _ => Some 10) 4
                  + Meas.stepSuccPerNode Samples.counted 4)) /\
  (~ Meas.N_BSS <= 4 < 8 ->
   Meas.stepSuccPerNode (Meas.step_counters 8 (fun _ => Some 10) Samples.counted) 4
   = Meas.stepSuccPerNode Samples.counted 4).
Proof.
  apply (MeasFacts.step_count_adds_the_count_before 8 (fun _ => Some 10) (fun _ => Some 25)
           Samples.counted 4).
  reflexivity.
Defined.

Lemma step_count_within_total_witness :
  0 <= Meas.stepSuccPerNode
         (Meas.run_steps 8 [fun _ => Some 10; fun _ => Some 25]
            (Meas.step_counters 8 (fun _ => None) Meas.no_counters)) 4
    <= last (map (fun t => Meas.nRecvdTotal t 4) [fun _ => Some 10; fun _ => Some 25]) 0.
Proof.
  apply (MeasFacts.step_count_within_total 8 (fun _ => None)
           [fun _ => Some 10; fun _ => Some 25] 4).
  - unfold Meas.N_BSS. lia.
  - simpl. repeat constructor. vm_compute. discriminate.
Defined.

Lemma action_nodes_are_bss0_witness :
  (forall k, 0 <= k < 4 * (1 + 4) ->
             Meas.bssOfNode 4 4 (fun i => i) (fun i => 4 + i) k = k mod 4) /\
  (4 = Meas.N_BSS ->
   forall i, In i (Meas.action_nodes (4 * (1 + 4))) <->
             0 <= i < 4 * (1 + 4) /\ Meas.bssOfNode 4 4 (fun i => i) (fun i => 4 + i) i = 0).
Proof.
  apply (MeasFacts.action_nodes_are_bss0 4 4 (fun i => i) (fun i => 4 + i)).
  - reflexivity.
  - reflexivity.
  - lia.
  - lia.
Defined.
